(** * Scene lifecycle of the three.js demo components

    A shallow embedding of the [useEffect] bodies of [RotatingCube.tsx],
    [ImmersiveScene.tsx] and [GalacticSolarSystem.tsx]: mount, frame loop,
    mouse and resize handlers, and the cleanup closure.

    Conventions.
    - A JavaScript [number] is idealised as a real number ([R]); rounding of
      IEEE doubles and of [Float32Array] cells is not modelled.  Pixel sizes
      and [Date.now()] are integers ([Z]), request ids and object identities
      are naturals.
    - The browser is an explicit state ([Host]): the children of the mount
      [div], the registered listeners, the pending animation-frame requests
      and timers, and a chronological log of the side effects of the
      lifecycle (requests, listeners, DOM changes, disposals, draws).
    - [Math.random()] is modelled by the values it returns to the calls
      that the components' own code makes, in the order of these calls, and
      a cursor that counts them.  The calls that three.js makes inside its
      constructors (it draws the uuid of every object it creates from
      [Math.random()] too) are not calls of the components' code: they are
      not in that sequence and the cursor does not count them. *)

From Stdlib Require Import String.
From Stdlib Require Import Reals Lra ZArith List Bool Lia.
Import ListNotations.
Open Scope R_scope.

(* ================================================================== *)
(** * Numbers, vectors and [Math.random] *)
(* ================================================================== *)

Module Js.

(** [a < b] and [a > b] as tests. *)
Definition Rltb (a b : R) : bool := if Rlt_dec a b then true else false.
Definition Rgtb (a b : R) : bool := Rltb b a.

(** [a || b] on numbers: [0] is falsy. *)
Definition Ror (a b : R) : R := if Req_dec_T a 0 then b else a.

Record Vec3 := vec3 { vx : R; vy : R; vz : R }.

Definition vec_add (a b : Vec3) : Vec3 :=
  vec3 (vx a + vx b) (vy a + vy b) (vz a + vz b).

Definition multiplyScalar (s : R) (a : Vec3) : Vec3 :=
  vec3 (vx a * s) (vy a * s) (vz a * s).

Definition vec_length (a : Vec3) : R :=
  sqrt (vx a * vx a + vy a * vy a + vz a * vz a).

(** [v.normalize()] is [v.divideScalar(v.length() || 1)]. *)
Definition normalize (a : Vec3) : Vec3 :=
  multiplyScalar (1 / Ror (vec_length a) 1) a.

Definition negate (a : Vec3) : Vec3 := vec3 (- vx a) (- vy a) (- vz a).

(** [Math.random()] as the components' own code sees it: [draws] are the
    values that its calls of [Math.random()] are going to return, in the
    order of the calls, and [cursor] is how many of these calls have been
    made.  What three.js draws from [Math.random()] in between, for the
    uuids of the objects it constructs, is no part of [draws] and is not
    counted by [cursor]. *)
Record Rng := mkRng { draws : nat -> R; cursor : nat }.

(** Code of the components that calls [Math.random()]. *)
Definition Rand (A : Type) : Type := Rng -> A * Rng.

Definition ret {A} (a : A) : Rand A := fun g => (a, g).

Definition bind {A B} (m : Rand A) (k : A -> Rand B) : Rand B :=
  fun g => let (a, g') := m g in k a g'.

(** One call of [Math.random()] in the components' code. *)
Definition Math_random : Rand R :=
  fun g => (draws g (cursor g), mkRng (draws g) (S (cursor g))).

(** [for (let i = 0; i < n; i++) body(i)], collecting what each round
    builds. *)
Fixpoint repeat_from {A} (i n : nat) (body : nat -> Rand A) : Rand (list A) :=
  match n with
  | O => ret []
  | S n' =>
      bind (body i) (fun a =>
      bind (repeat_from (S i) n' body) (fun rest =>
      ret (a :: rest)))
  end.

(** In [g1] and in [g2] the code has made the same number of calls, and its
    next [k] calls return the same values. *)
Definition agree_on (k : nat) (g1 g2 : Rng) : Prop :=
  cursor g1 = cursor g2 /\
  forall n, (n < k)%nat ->
            draws g1 (cursor g1 + n) = draws g2 (cursor g2 + n).

(** [m] calls [Math.random()] exactly [k] times, and what it builds depends
    on nothing but the values these calls return. *)
Definition uses_draws {A} (k : nat) (m : Rand A) : Prop :=
  (forall g, cursor (snd (m g)) = (cursor g + k)%nat /\
             draws (snd (m g)) = draws g) /\
  (forall g1 g2, agree_on k g1 g2 -> fst (m g1) = fst (m g2)).

(** Every value returned lies in [[0, 1)]. *)
Definition unit_draws (g : Rng) : Prop := forall n, 0 <= draws g n < 1.

End Js.

Declare Scope rand_scope.
Delimit Scope rand_scope with rand.
Notation "x <- m ;; k" := (Js.bind m (fun x => k))
  (at level 61, m at next level, right associativity) : rand_scope.

(* ================================================================== *)
(** * The host page *)
(* ================================================================== *)

Module Host.

(** DOM nodes under the mount point: the canvas of renderer [r], or
    anything else that happens to sit there. *)
Inductive Node :=
| Canvas (r : nat)
| OtherNode (n : nat).

Inductive Target :=
| Window
| Document
| CanvasElement (r : nat).

Inductive EventName := mousedown | mousemove | mouseup | resize.

(** The closures that one run of the effect registers; [r] is the renderer
    created by that run. *)
Inductive Handler :=
| handleMouseDown (r : nat)
| handleMouseMove (r : nat)
| handleMouseUp (r : nat)
| handleResize (r : nat).

(** Disposable objects, named after the variables that hold them. *)
Inductive Resource :=
| the_renderer (r : nat)
| the_controls (r : nat)
| the_geometry (r : nat)
| the_material (r : nat)
| the_planeGeometry (r : nat)
| the_planeMaterial (r : nat)
| the_particleMaterial (r : nat)
| the_planetGeometry (r i : nat)
| the_planetMaterial (r i : nat)
| the_moonGeometry (r i j : nat)
| the_moonMaterial (r i j : nat).

(** Side effects, logged in the order in which the code performs them. *)
Inductive Effect :=
| RequestFrame (id r : nat)
| CancelFrame (id : nat)
| AddListener (t : Target) (e : EventName) (h : Handler)
| RemoveListener (t : Target) (e : EventName) (h : Handler)
| AppendChild (n : Node)
| RemoveChild (n : Node)
| Dispose (x : Resource)
| SetTimeout (r : nat)
| Draw (r : nat).

Definition Node_eqb (a b : Node) : bool :=
  match a, b with
  | Canvas r, Canvas r' => Nat.eqb r r'
  | OtherNode n, OtherNode n' => Nat.eqb n n'
  | _, _ => false
  end.

Definition Target_eqb (a b : Target) : bool :=
  match a, b with
  | Window, Window => true
  | Document, Document => true
  | CanvasElement r, CanvasElement r' => Nat.eqb r r'
  | _, _ => false
  end.

Definition EventName_eqb (a b : EventName) : bool :=
  match a, b with
  | mousedown, mousedown | mousemove, mousemove
  | mouseup, mouseup | resize, resize => true
  | _, _ => false
  end.

Definition Handler_eqb (a b : Handler) : bool :=
  match a, b with
  | handleMouseDown r, handleMouseDown r'
  | handleMouseMove r, handleMouseMove r'
  | handleMouseUp r, handleMouseUp r'
  | handleResize r, handleResize r' => Nat.eqb r r'
  | _, _ => false
  end.

Definition Listener : Type := Target * EventName * Handler.

Definition Listener_eqb (a b : Listener) : bool :=
  let '(t, e, h) := a in
  let '(t', e', h') := b in
  Target_eqb t t' && EventName_eqb e e' && Handler_eqb h h'.

Definition is_canvas (n : Node) : bool :=
  match n with Canvas _ => true | OtherNode _ => false end.

Record Host := mkHost {
  mount_present : bool;          (* [mountRef.current] is not null *)
  children : list Node;          (* child nodes of the mount [div] *)
  clientWidth : Z;
  clientHeight : Z;
  innerWidth : Z;
  innerHeight : Z;
  devicePixelRatio : R;
  listeners : list Listener;
  frames : list (nat * nat);     (* pending requests: (id, renderer of the callback) *)
  nextFrame : nat;               (* the id the next request gets *)
  timers : list nat;             (* pending [setTimeout(() => handleResize())] *)
  log : list Effect
}.

Definition set_children (c : list Node) (h : Host) : Host :=
  mkHost (mount_present h) c (clientWidth h) (clientHeight h) (innerWidth h)
         (innerHeight h) (devicePixelRatio h) (listeners h) (frames h)
         (nextFrame h) (timers h) (log h).

Definition set_listeners (l : list Listener) (h : Host) : Host :=
  mkHost (mount_present h) (children h) (clientWidth h) (clientHeight h)
         (innerWidth h) (innerHeight h) (devicePixelRatio h) l (frames h)
         (nextFrame h) (timers h) (log h).

Definition set_frames (f : list (nat * nat)) (n : nat) (h : Host) : Host :=
  mkHost (mount_present h) (children h) (clientWidth h) (clientHeight h)
         (innerWidth h) (innerHeight h) (devicePixelRatio h) (listeners h) f
         n (timers h) (log h).

Definition set_timers (t : list nat) (h : Host) : Host :=
  mkHost (mount_present h) (children h) (clientWidth h) (clientHeight h)
         (innerWidth h) (innerHeight h) (devicePixelRatio h) (listeners h)
         (frames h) (nextFrame h) t (log h).

Definition set_viewport (cw ch iw ih : Z) (h : Host) : Host :=
  mkHost (mount_present h) (children h) cw ch iw ih (devicePixelRatio h)
         (listeners h) (frames h) (nextFrame h) (timers h) (log h).

Definition emit (e : Effect) (h : Host) : Host :=
  mkHost (mount_present h) (children h) (clientWidth h) (clientHeight h)
         (innerWidth h) (innerHeight h) (devicePixelRatio h) (listeners h)
         (frames h) (nextFrame h) (timers h) (log h ++ [e]).

(** [a || b] on pixel sizes: [0] is falsy. *)
Definition js_or (a b : Z) : Z := if Z.eqb a 0 then b else a.

Fixpoint remove_node (n : Node) (l : list Node) : list Node :=
  match l with
  | [] => []
  | m :: l' => if Node_eqb n m then l' else m :: remove_node n l'
  end.

(** [parent.removeChild(n)] *)
Definition removeChild (n : Node) (h : Host) : Host :=
  emit (RemoveChild n) (set_children (remove_node n (children h)) h).

(** [parent.appendChild(n)] *)
Definition appendChild (n : Node) (h : Host) : Host :=
  emit (AppendChild n) (set_children (children h ++ [n]) h).

(** [while (m.firstChild) m.removeChild(m.firstChild)]; one round per child
    present when the loop starts. *)
Fixpoint clear_loop (fuel : nat) (h : Host) : Host :=
  match fuel with
  | O => h
  | S fuel' =>
      match children h with
      | [] => h
      | first :: _ => clear_loop fuel' (removeChild first h)
      end
  end.

Definition clearChildren (h : Host) : Host :=
  clear_loop (length (children h)) h.

(** [m.contains(n)] for a node that can only be a direct child. *)
Definition contains (n : Node) (h : Host) : bool :=
  existsb (Node_eqb n) (children h).

(** [m.querySelectorAll("canvas").forEach(c => if (c.parentNode === m)
    m.removeChild(c))] *)
Definition removeRemainingCanvases (h : Host) : Host :=
  fold_left (fun acc c => if contains c acc then removeChild c acc else acc)
            (filter is_canvas (children h)) h.

Definition addEventListener (t : Target) (e : EventName) (k : Handler)
    (h : Host) : Host :=
  emit (AddListener t e k)
       (if existsb (Listener_eqb (t, e, k)) (listeners h) then h
        else set_listeners (listeners h ++ [(t, e, k)]) h).

Definition removeEventListener (t : Target) (e : EventName) (k : Handler)
    (h : Host) : Host :=
  emit (RemoveListener t e k)
       (set_listeners
          (filter (fun l => negb (Listener_eqb (t, e, k) l)) (listeners h)) h).

(** [requestAnimationFrame(cb)]: a fresh non-zero id, the callback queued. *)
Definition requestAnimationFrame (r : nat) (h : Host) : nat * Host :=
  let id := nextFrame h in
  (id, emit (RequestFrame id r) (set_frames (frames h ++ [(id, r)]) (S id) h)).

(** [cancelAnimationFrame(id)] *)
Definition cancelAnimationFrame (id : nat) (h : Host) : Host :=
  emit (CancelFrame id)
       (set_frames (filter (fun f => negb (Nat.eqb (fst f) id)) (frames h))
                   (nextFrame h) h).

Definition setTimeout (r : nat) (h : Host) : Host :=
  emit (SetTimeout r) (set_timers (timers h ++ [r]) h).

(** Handlers registered for an event on a target, in registration order. *)
Definition handlers_for (t : Target) (e : EventName) (h : Host) : list Handler :=
  map snd
      (filter (fun l => Target_eqb t (fst (fst l)) && EventName_eqb e (snd (fst l)))
              (listeners h)).

Definition draw_count (l : list Effect) : nat :=
  length (filter (fun e => match e with Draw _ => true | _ => false end) l).

(** Truthiness of [animationIdRef.current : number | null]. *)
Definition truthy (v : option nat) : bool :=
  match v with
  | Some (S _) => true
  | _ => false
  end.

(** [l[n] = f(l[n])] where the index exists. *)
Fixpoint update_nth {A} (n : nat) (f : A -> A) (l : list A) : list A :=
  match l, n with
  | [], _ => []
  | a :: l', O => f a :: l'
  | a :: l', S n' => a :: update_nth n' f l'
  end.

(** The step of the required release order an effect belongs to: 1 stop
    the frame driver, 2 remove the input listeners, 3 remove the resize
    listener, 4 detach and destroy the drawing surface, 5 release what the
    content builder allocated. *)
Definition release_step (e : Effect) : option nat :=
  match e with
  | CancelFrame _ => Some 1%nat
  | RemoveListener _ resize _ => Some 3%nat
  | RemoveListener _ _ _ => Some 2%nat
  | Dispose (the_controls _) => Some 2%nat
  | RemoveChild _ => Some 4%nat
  | Dispose (the_renderer _) => Some 4%nat
  | Dispose _ => Some 5%nat
  | _ => None
  end.

Fixpoint release_steps (l : list Effect) : list nat :=
  match l with
  | [] => []
  | e :: l' =>
      match release_step e with
      | Some k => k :: release_steps l'
      | None => release_steps l'
      end
  end.

Fixpoint nondecreasing (l : list nat) : bool :=
  match l with
  | a :: (b :: _) as l' => Nat.leb a b && nondecreasing l'
  | _ => true
  end.

(** No effect of a later step comes before an effect of an earlier one. *)
Definition in_required_order (l : list Effect) : bool :=
  nondecreasing (release_steps l).

(** What React does to [mountRef] when the component unmounts: it sets
    [mountRef.current] to [null], and does so before it runs the cleanups
    of the effects.  The nodes under the mount [div] stay where they
    are. *)
Definition detachRef (h : Host) : Host :=
  mkHost false (children h) (clientWidth h) (clientHeight h) (innerWidth h)
         (innerHeight h) (devicePixelRatio h) (listeners h) (frames h)
         (nextFrame h) (timers h) (log h).

(** A freshly loaded page: an empty mount [div] of the given size, nothing
    registered, nothing scheduled. *)
Definition fresh (cw ch iw ih : Z) (dpr : R) : Host :=
  mkHost true [] cw ch iw ih dpr [] [] 1 [] [].

End Host.

(* ================================================================== *)
(** * RotatingCube.tsx *)
(* ================================================================== *)

(** The first [useEffect] of the component: scene set-up, frame loop, mouse
    and resize handlers, cleanup.  The lights and the ground plane are fixed
    objects that no handler touches; of the scene only the cube is kept.
    [OrbitControls] is created disabled, so its [update] does nothing.  The
    second [useEffect] (colour and scale of the cube) changes neither
    rotation nor position and is not part of the lifecycle. *)
Module RotatingCube.
Import Host.

(** The component state that the effect depends on. *)
Record Props := mkProps {
  cubeColor : String.string;
  cubeSize : R;
  autoRotate : bool;
  rotationSpeed : R;
  cubeTexture : String.string
}.

Inductive Material :=
| MeshPhongMaterial (color : String.string) (wireframe : bool)
| MeshStandardMaterial (color : String.string) (metalness roughness : R)
| MeshPhysicalMaterial (color : String.string)
    (metalness roughness transmission opacity : R).

Record Mesh := mkMesh {
  geometry : R * R * R;          (* BoxGeometry(width, height, depth) *)
  material : Material;
  rotation_x : R;
  rotation_y : R;
  position_y : R
}.

(** What one run of the effect keeps in its closures: the props it was run
    with, the camera and the renderer. *)
Record Instance := mkInstance {
  props : Props;
  camera_aspect : R;
  renderer_width : Z;
  renderer_height : Z;
  renderer_pixelRatio : R
}.

Record World := mkWorld {
  host : Host;
  sceneRef : option nat;
  rendererRef : option nat;
  cubeRef : option Mesh;
  animationIdRef : option nat;
  controlsRef : option nat;
  isDraggingRef : bool;
  previousMousePositionRef : R * R;
  instances : list Instance
}.

Definition set_host (h : Host) (w : World) : World :=
  mkWorld h (sceneRef w) (rendererRef w) (cubeRef w) (animationIdRef w)
          (controlsRef w) (isDraggingRef w) (previousMousePositionRef w)
          (instances w).

Definition on_host (f : Host -> Host) (w : World) : World :=
  set_host (f (host w)) w.

Definition set_sceneRef (v : option nat) (w : World) : World :=
  mkWorld (host w) v (rendererRef w) (cubeRef w) (animationIdRef w)
          (controlsRef w) (isDraggingRef w) (previousMousePositionRef w)
          (instances w).

Definition set_rendererRef (v : option nat) (w : World) : World :=
  mkWorld (host w) (sceneRef w) v (cubeRef w) (animationIdRef w)
          (controlsRef w) (isDraggingRef w) (previousMousePositionRef w)
          (instances w).

Definition set_cubeRef (v : option Mesh) (w : World) : World :=
  mkWorld (host w) (sceneRef w) (rendererRef w) v (animationIdRef w)
          (controlsRef w) (isDraggingRef w) (previousMousePositionRef w)
          (instances w).

Definition set_animationIdRef (v : option nat) (w : World) : World :=
  mkWorld (host w) (sceneRef w) (rendererRef w) (cubeRef w) v
          (controlsRef w) (isDraggingRef w) (previousMousePositionRef w)
          (instances w).

Definition set_controlsRef (v : option nat) (w : World) : World :=
  mkWorld (host w) (sceneRef w) (rendererRef w) (cubeRef w) (animationIdRef w)
          v (isDraggingRef w) (previousMousePositionRef w) (instances w).

Definition set_isDraggingRef (v : bool) (w : World) : World :=
  mkWorld (host w) (sceneRef w) (rendererRef w) (cubeRef w) (animationIdRef w)
          (controlsRef w) v (previousMousePositionRef w) (instances w).

Definition set_previousMousePositionRef (v : R * R) (w : World) : World :=
  mkWorld (host w) (sceneRef w) (rendererRef w) (cubeRef w) (animationIdRef w)
          (controlsRef w) (isDraggingRef w) v (instances w).

Definition set_instances (v : list Instance) (w : World) : World :=
  mkWorld (host w) (sceneRef w) (rendererRef w) (cubeRef w) (animationIdRef w)
          (controlsRef w) (isDraggingRef w) (previousMousePositionRef w) v.

Definition set_rotation (x y : R) (m : Mesh) : Mesh :=
  mkMesh (geometry m) (material m) x y (position_y m).

Definition set_position_y (y : R) (m : Mesh) : Mesh :=
  mkMesh (geometry m) (material m) (rotation_x m) (rotation_y m) y.

(** ** Content: the cube's geometry and material *)

Definition makeMaterial (p : Props) : Material :=
  if String.eqb (cubeTexture p) "wireframe"%string then
    MeshPhongMaterial (cubeColor p) true
  else if String.eqb (cubeTexture p) "metallic"%string then
    MeshStandardMaterial (cubeColor p) 0.8 0.2
  else if String.eqb (cubeTexture p) "glass"%string then
    MeshPhysicalMaterial (cubeColor p) 0 0 0.9 0.8
  else
    MeshPhongMaterial (cubeColor p) false.

Definition makeCube (p : Props) : Mesh :=
  mkMesh (cubeSize p, cubeSize p, cubeSize p) (makeMaterial p) 0 0 0.

(** ** The frame loop *)

(** One call of [animate], the closure of run [r], at [Date.now() = now]. *)
Definition animate (r : nat) (now : Z) (w : World) : World :=
  match nth_error (instances w) r with
  | None => w
  | Some inst =>
      let p := props inst in
      let '(id, h) := requestAnimationFrame r (host w) in
      let w := set_animationIdRef (Some id) (set_host h w) in
      let w :=
        match cubeRef w with
        | Some cube =>
            let cube :=
              if autoRotate p && negb (isDraggingRef w) then
                set_rotation (rotation_x cube + 0.01 * rotationSpeed p)
                             (rotation_y cube + 0.01 * rotationSpeed p) cube
              else cube in
            let cube :=
              if autoRotate p then
                set_position_y (sin (IZR now * 0.001) * 0.2) cube
              else
                set_position_y 0 cube in
            set_cubeRef (Some cube) w
        | None => w
        end in
      (* controls.update() on disabled controls changes nothing *)
      on_host (emit (Draw r)) w
  end.

(** ** The mouse handlers *)

Definition onMouseDown (x y : R) (w : World) : World :=
  set_previousMousePositionRef (x, y) (set_isDraggingRef true w).

Definition onMouseMove (x y : R) (w : World) : World :=
  match isDraggingRef w, cubeRef w with
  | true, Some cube =>
      let deltaMove_x := x - fst (previousMousePositionRef w) in
      let deltaMove_y := y - snd (previousMousePositionRef w) in
      let rotationSpeed := 0.01 in
      let cube := set_rotation (rotation_x cube)
                               (rotation_y cube + deltaMove_x * rotationSpeed)
                               cube in
      let cube := set_rotation (rotation_x cube + deltaMove_y * rotationSpeed)
                               (rotation_y cube) cube in
      set_previousMousePositionRef (x, y) (set_cubeRef (Some cube) w)
  | _, _ => w
  end.

Definition onMouseUp (w : World) : World :=
  set_isDraggingRef false w.

(** ** The resize handler *)

Definition onResize (r : nat) (w : World) : World :=
  if negb (mount_present (host w)) then w
  else
    let width := js_or (clientWidth (host w)) (innerWidth (host w)) in
    let height := js_or (clientHeight (host w)) (innerHeight (host w)) in
    set_instances
      (update_nth r
         (fun i => mkInstance (props i) (IZR width / IZR height) width height
                              (renderer_pixelRatio i))
         (instances w))
      w.

(** ** The effect *)

(** The body of the first [useEffect], run with props [p] at
    [Date.now() = now]; returns the renderer of the cleanup closure it
    hands back, or [None] where it returns early. *)
Definition effect (p : Props) (now : Z) (w : World) : World * option nat :=
  if negb (mount_present (host w)) then (w, None)
  else
    let w := on_host clearChildren w in
    match rendererRef w with
    | Some _ => (w, None)
    | None =>
        let r := length (instances w) in
        let w := set_sceneRef (Some r) w in
        let width := js_or (clientWidth (host w)) (innerWidth (host w)) in
        let height := js_or (clientHeight (host w)) (innerHeight (host w)) in
        let inst := mkInstance p (IZR width / IZR height) width height
                               (devicePixelRatio (host w)) in
        let w := set_instances (instances w ++ [inst]) w in
        let w := set_rendererRef (Some r) w in
        let w := on_host (appendChild (Canvas r)) w in
        let w := set_controlsRef (Some r) w in
        let w := set_cubeRef (Some (makeCube p)) w in
        let w := animate r now w in
        let w := on_host (addEventListener (CanvasElement r) mousedown
                                           (handleMouseDown r)) w in
        let w := on_host (addEventListener Document mousemove
                                           (handleMouseMove r)) w in
        let w := on_host (addEventListener Document mouseup
                                           (handleMouseUp r)) w in
        let w := on_host (addEventListener Window resize (handleResize r)) w in
        let w := on_host (setTimeout r) w in
        (w, Some r)
    end.

(** The cleanup closure returned by the run that created renderer [r]. *)
Definition cleanup (r : nat) (w : World) : World :=
  let w := on_host (removeEventListener Window resize (handleResize r)) w in
  let w :=
    if truthy (animationIdRef w) then
      match animationIdRef w with
      | Some id => set_animationIdRef None (on_host (cancelAnimationFrame id) w)
      | None => w
      end
    else w in
  let w :=
    match controlsRef w with
    | Some c => on_host (emit (Dispose (the_controls c))) w
    | None => w
    end in
  let w := on_host (removeEventListener (CanvasElement r) mousedown
                                        (handleMouseDown r)) w in
  let w := on_host (removeEventListener Document mousemove
                                        (handleMouseMove r)) w in
  let w := on_host (removeEventListener Document mouseup
                                        (handleMouseUp r)) w in
  let w :=
    if mount_present (host w) then
      let w := if contains (Canvas r) (host w)
               then on_host (removeChild (Canvas r)) w else w in
      on_host removeRemainingCanvases w
    else w in
  let w := on_host (emit (Dispose (the_renderer r))) w in
  let w := set_rendererRef None w in
  let w := on_host (emit (Dispose (the_geometry r))) w in
  let w := on_host (emit (Dispose (the_material r))) w in
  let w := on_host (emit (Dispose (the_planeMaterial r))) w in
  on_host (emit (Dispose (the_planeGeometry r))) w.

(** ** What the page can do to a mounted cube *)

Inductive Event :=
| Frame (now : Z)                    (* the browser runs the frame callbacks *)
| MouseDown (r : nat) (x y : R)      (* a press on the canvas of [r] *)
| MouseMove (x y : R)
| MouseUp
| Resize (cw ch iw ih : Z)           (* new sizes, then the resize event *)
| Timeout.                           (* the oldest pending timer fires *)

Definition run_handler (k : Handler) (x y : R) (w : World) : World :=
  match k with
  | handleMouseDown _ => onMouseDown x y w
  | handleMouseMove _ => onMouseMove x y w
  | handleMouseUp _ => onMouseUp w
  | handleResize r => onResize r w
  end.

Definition dispatch (t : Target) (e : EventName) (x y : R) (w : World) : World :=
  fold_left (fun acc k => run_handler k x y acc) (handlers_for t e (host w)) w.

Definition step (e : Event) (w : World) : World :=
  match e with
  | Frame now =>
      let callbacks := frames (host w) in
      let w := on_host (fun h => set_frames [] (nextFrame h) h) w in
      fold_left (fun acc f => animate (snd f) now acc) callbacks w
  | MouseDown r x y => dispatch (CanvasElement r) mousedown x y w
  | MouseMove x y => dispatch Document mousemove x y w
  | MouseUp => dispatch Document mouseup 0 0 w
  | Resize cw ch iw ih =>
      dispatch Window resize 0 0 (on_host (set_viewport cw ch iw ih) w)
  | Timeout =>
      match timers (host w) with
      | [] => w
      | r :: rest => onResize r (on_host (set_timers rest) w)
      end
  end.

Definition run (es : list Event) (w : World) : World :=
  fold_left (fun acc e => step e acc) es w.

(** The component before its first effect: refs at their initial values. *)
Definition initial (h : Host) : World :=
  mkWorld h None None None None None false (0, 0) [].

(** The default state of the controls. *)
Definition defaultProps : Props :=
  mkProps "#00ff88"%string 1.5 true 1 "solid"%string.

Definition boot (cw ch iw ih : Z) (dpr : R) (p : Props) (now : Z) : World :=
  fst (effect p now (initial (fresh cw ch iw ih dpr))).

(** The effects that the cleanup closure of run [r] performs, in order. *)
Definition teardown_trace (r : nat) (w : World) : list Effect :=
  skipn (length (log (host w))) (log (host (cleanup r w))).

(** What [teardown_trace] is on a mounted cube whose pending request is
    [id]. *)
Definition cube_teardown (r id : nat) : list Effect :=
  [ RemoveListener Window resize (handleResize r);
    CancelFrame id;
    Dispose (the_controls r);
    RemoveListener (CanvasElement r) mousedown (handleMouseDown r);
    RemoveListener Document mousemove (handleMouseMove r);
    RemoveListener Document mouseup (handleMouseUp r);
    RemoveChild (Canvas r);
    Dispose (the_renderer r);
    Dispose (the_geometry r);
    Dispose (the_material r);
    Dispose (the_planeMaterial r);
    Dispose (the_planeGeometry r) ].

(** The cleanup as React runs it when the component unmounts: [mountRef]
    has been cleared by then. *)
Definition unmount (r : nat) (w : World) : World :=
  cleanup r (on_host detachRef w).

(** The effects of the cleanup at unmount, in order. *)
Definition unmount_trace (r : nat) (w : World) : list Effect :=
  skipn (length (log (host w))) (log (host (unmount r w))).

(** ** Drag gestures *)

(** What can happen between the press and the release. *)
Inductive DragStep :=
| Move (x y : R)
| Tick (now : Z).

Definition drag_event (d : DragStep) : Event :=
  match d with
  | Move x y => MouseMove x y
  | Tick now => Frame now
  end.

Definition gesture (r : nat) (x0 y0 : R) (ds : list DragStep) : list Event :=
  MouseDown r x0 y0 :: map drag_event ds ++ [MouseUp].

(** Where the pointer is after the moves of [ds], starting at [(x0, y0)]. *)
Fixpoint pointer_after (x0 y0 : R) (ds : list DragStep) : R * R :=
  match ds with
  | [] => (x0, y0)
  | Move x y :: ds' => pointer_after x y ds'
  | Tick _ :: ds' => pointer_after x0 y0 ds'
  end.

(** ** Invariants *)

Definition cube_listeners (r : nat) : list Listener :=
  [ (CanvasElement r, mousedown, handleMouseDown r);
    (Document, mousemove, handleMouseMove r);
    (Document, mouseup, handleMouseUp r);
    (Window, resize, handleResize r) ].

(** The state of a page on which run [r] of the effect, with props [p], is
    live: its canvas is the mount point's only child, its four listeners are
    the registered ones, and exactly one frame request is pending, whose id
    is the one kept in [animationIdRef]. *)
Record mounted (r : nat) (p : Props) (w : World) : Prop := {
  m_present : mount_present (host w) = true;
  m_children : children (host w) = [Canvas r];
  m_listeners : listeners (host w) = cube_listeners r;
  m_renderer : rendererRef w = Some r;
  m_controls : controlsRef w = Some r;
  m_instance : exists i, nth_error (instances w) r = Some i /\ props i = p;
  m_cube : exists c, cubeRef w = Some c;
  m_frame : exists id, frames (host w) = [(id, r)] /\
                       animationIdRef w = Some id /\
                       (1 <= id < nextFrame (host w))%nat
}.

(** Nothing scheduled and nothing listening. *)
Definition quiet (w : World) : Prop :=
  frames (host w) = [] /\ listeners (host w) = [].

End RotatingCube.

(* ================================================================== *)
(** * ImmersiveScene.tsx *)
(* ================================================================== *)

(** The [useEffect] of the city: lighting, the building grid, the flying
    vehicles, the three particle systems, the frame loop, the resize
    handler and the cleanup.  Of a vehicle only what the frame loop moves
    is kept (position, rotation, speed, direction); the ground plane and
    the materials of the particle systems are fixed and left out. *)
Module ImmersiveScene.
Import Js Host.
Local Open Scope rand_scope.

Record Props := mkProps {
  cameraMode : string;
  timeOfDay : string;
  effectsEnabled : bool
}.

Inductive Geometry :=
| BoxGeometry (width height depth : R)
| PlaneGeometry (width height : R)
| CylinderGeometry (radiusTop radiusBottom height : R).

Inductive Color :=
| setHSL (h s l : R)
| setHex (c : Z).

Record Mesh := mkMesh {
  geometry : Geometry;
  color : Color;
  position : Vec3;
  rotation_y : R
}.

(** A building is a [THREE.Group]: its children in the order they are added. *)
Definition Building : Type := list Mesh.

Inductive Light :=
| DirectionalLight (color : Z) (intensity : R) (position : Vec3)
| AmbientLight (color : Z) (intensity : R).

Record Fog := mkFog { fog_color : Z; fog_near : R; fog_far : R }.

Record Vehicle := mkVehicle {
  v_position : Vec3;
  v_rotation_y : R;
  speed : R;
  direction : Vec3
}.

Inductive ParticleType := rain | sparks | fog.

(** A [THREE.Points]: the [position] and [velocity] attributes hold one
    triple per particle ([Float32Array] cells [3i], [3i+1], [3i+2]). *)
Record Points := mkPoints {
  ptype : ParticleType;
  positions : list Vec3;
  velocities : list Vec3;
  colors : list Vec3
}.

Record Instance := mkInstance {
  props : Props;
  lights : list Light;
  scene_fog : Fog;
  buildings : list Building;
  camera_position : Vec3;
  camera_aspect : R;
  renderer_width : Z;
  renderer_height : Z
}.

Record World := mkWorld {
  host : Host;
  rng : Rng;
  sceneRef : option nat;
  rendererRef : option nat;
  animationIdRef : option nat;
  controlsRef : option nat;
  flyingObjectsRef : list Vehicle;
  particleSystemsRef : list Points;
  instances : list Instance
}.

Definition set_host (h : Host) (w : World) : World :=
  mkWorld h (rng w) (sceneRef w) (rendererRef w) (animationIdRef w)
          (controlsRef w) (flyingObjectsRef w) (particleSystemsRef w)
          (instances w).

Definition on_host (f : Host -> Host) (w : World) : World :=
  set_host (f (host w)) w.

Definition set_rng (g : Rng) (w : World) : World :=
  mkWorld (host w) g (sceneRef w) (rendererRef w) (animationIdRef w)
          (controlsRef w) (flyingObjectsRef w) (particleSystemsRef w)
          (instances w).

Definition set_sceneRef (v : option nat) (w : World) : World :=
  mkWorld (host w) (rng w) v (rendererRef w) (animationIdRef w)
          (controlsRef w) (flyingObjectsRef w) (particleSystemsRef w)
          (instances w).

Definition set_rendererRef (v : option nat) (w : World) : World :=
  mkWorld (host w) (rng w) (sceneRef w) v (animationIdRef w)
          (controlsRef w) (flyingObjectsRef w) (particleSystemsRef w)
          (instances w).

Definition set_animationIdRef (v : option nat) (w : World) : World :=
  mkWorld (host w) (rng w) (sceneRef w) (rendererRef w) v
          (controlsRef w) (flyingObjectsRef w) (particleSystemsRef w)
          (instances w).

Definition set_controlsRef (v : option nat) (w : World) : World :=
  mkWorld (host w) (rng w) (sceneRef w) (rendererRef w) (animationIdRef w)
          v (flyingObjectsRef w) (particleSystemsRef w) (instances w).

Definition set_flyingObjectsRef (v : list Vehicle) (w : World) : World :=
  mkWorld (host w) (rng w) (sceneRef w) (rendererRef w) (animationIdRef w)
          (controlsRef w) v (particleSystemsRef w) (instances w).

Definition set_particleSystemsRef (v : list Points) (w : World) : World :=
  mkWorld (host w) (rng w) (sceneRef w) (rendererRef w) (animationIdRef w)
          (controlsRef w) (flyingObjectsRef w) v (instances w).

Definition set_instances (v : list Instance) (w : World) : World :=
  mkWorld (host w) (rng w) (sceneRef w) (rendererRef w) (animationIdRef w)
          (controlsRef w) (flyingObjectsRef w) (particleSystemsRef w) v.

(** ** Content *)

Definition setupLighting (timeOfDay : string) : list Light * Fog :=
  if String.eqb timeOfDay "day" then
    ([DirectionalLight 0xffffff 1.0 (vec3 50 100 50);
      AmbientLight 0x87ceeb 0.6],
     mkFog 0x87ceeb 100 300)
  else
    ([DirectionalLight 0x6666ff 0.3 (vec3 (-50) 80 (-50));
      AmbientLight 0x1a1a2e 0.4],
     mkFog 0x1a1a2e 50 200).

(** The windows mesh of face [i]. *)
Definition windows (width height depth x z : R) (i : nat) : Mesh :=
  let p := vec3 x (height / 2) z in
  let p :=
    if Nat.eqb (i mod 2) 0 then
      vec3 (vx p) (vy p)
           (vz p + (if Nat.eqb i 0 then depth / 2 + 0.01 else - depth / 2 - 0.01))
    else
      vec3 (vx p + (if Nat.eqb i 1 then width / 2 + 0.01 else - width / 2 - 0.01))
           (vy p) (vz p) in
  mkMesh (PlaneGeometry (width * 0.8) (height * 0.9)) (setHex 0x00ffff) p
         (INR i * PI / 2).

(** [createBuilding] calls [Math.random()] once, for the hue of the body.
    (The thirteen three.js objects it constructs each get a uuid, which
    three.js draws from [Math.random()] by calls of its own; see [Rng].) *)
Definition createBuilding (width height depth x z : R) : Rand Building :=
  hue <- Math_random ;;
  let mesh := mkMesh (BoxGeometry width height depth)
                     (setHSL (hue * 0.1 + 0.5) 0.7 0.3)
                     (vec3 x (height / 2) z) 0 in
  let antenna := mkMesh (CylinderGeometry 0.1 0.2 (height * 0.3))
                        (setHex 0xff0000)
                        (vec3 x (height + height * 0.15) z) 0 in
  ret (mesh :: map (windows width height depth x z) [0; 1; 2; 3]%nat
            ++ [antenna]).

(** [for (let i = start; i <= stop; i += step) body(i)], collecting what
    the rounds add to the scene. *)
Fixpoint for_to {A} (fuel : nat) (i stop step : Z) (body : Z -> Rand (list A))
    : Rand (list A) :=
  match fuel with
  | O => ret []
  | S fuel' =>
      if (i <=? stop)%Z then
        added <- body i ;;
        rest <- for_to fuel' (i + step)%Z stop step body ;;
        ret (added ++ rest)
      else ret []
  end.

(** The city grid; the round of the centre block adds nothing. *)
Definition generateCity : Rand (list Building) :=
  for_to 8 (-60) 60 20 (fun x =>
    for_to 8 (-60) 60 20 (fun z =>
      if (Z.abs x <? 10)%Z && (Z.abs z <? 10)%Z then ret []
      else
        w <- Math_random ;;
        h <- Math_random ;;
        d <- Math_random ;;
        building <- createBuilding (4 + w * 6) (10 + h * 40) (4 + d * 6)
                                   (IZR x) (IZR z) ;;
        ret [building])).

Definition createFlyingVehicle : Rand Vehicle :=
  px <- Math_random ;;
  py <- Math_random ;;
  pz <- Math_random ;;
  s <- Math_random ;;
  dx <- Math_random ;;
  dy <- Math_random ;;
  dz <- Math_random ;;
  ret (mkVehicle (vec3 ((px - 0.5) * 100) (20 + py * 30) ((pz - 0.5) * 100))
                 0
                 (0.1 + s * 0.3)
                 (normalize (vec3 ((dx - 0.5) * 2) ((dy - 0.5) * 0.5)
                                  ((dz - 0.5) * 2)))).

Definition particle_count (type : ParticleType) : nat :=
  match type with rain => 1000 | sparks => 500 | fog => 300 end.

(** One round of the seeding loop: position, then velocity. *)
Definition seedParticle (type : ParticleType) : Rand (Vec3 * Vec3) :=
  px <- Math_random ;;
  py <- Math_random ;;
  pz <- Math_random ;;
  a <- Math_random ;;
  b <- Math_random ;;
  c <- Math_random ;;
  let p := vec3 ((px - 0.5) * 200) (py * 100) ((pz - 0.5) * 200) in
  let v :=
    match type with
    | rain => vec3 ((a - 0.5) * 0.1) (- 2 - b * 3) ((c - 0.5) * 0.1)
    | sparks => vec3 ((a - 0.5) * 2) (b * 2) ((c - 0.5) * 2)
    | fog => vec3 ((a - 0.5) * 0.5) (b * 0.2) ((c - 0.5) * 0.5)
    end in
  ret (p, v).

Definition particle_color (type : ParticleType) : Vec3 :=
  match type with
  | rain => vec3 0.7 0.8 1.0
  | sparks => vec3 1.0 0.6 0.0
  | fog => vec3 0.8 0.8 0.9
  end.

Definition createParticleSystem (type : ParticleType) : Rand Points :=
  let count := particle_count type in
  seeded <- repeat_from 0 count (fun _ => seedParticle type) ;;
  ret (mkPoints type (map fst seeded) (map snd seeded)
                (repeat (particle_color type) count)).

(** ** The frame loop *)

Definition updateVehicle (v : Vehicle) : Vehicle :=
  let p := vec_add (v_position v) (multiplyScalar (speed v) (direction v)) in
  mkVehicle p (v_rotation_y v + 0.02) (speed v)
            (if Rgtb (vec_length p) 80 then negate (direction v)
             else direction v).

(** The test that sends a particle back to the top. *)
Definition out_of_range (p : Vec3) : bool :=
  Rltb (vy p) 0 || Rgtb (Rabs (vx p)) 100 || Rgtb (Rabs (vz p)) 100.

(** One round of the particle loop: the particle at [p] with velocity [v]. *)
Definition updateParticle (p v : Vec3) : Rand Vec3 :=
  let p := vec_add p v in
  if out_of_range p then
    a <- Math_random ;;
    b <- Math_random ;;
    c <- Math_random ;;
    ret (vec3 ((a - 0.5) * 200) (50 + b * 50) ((c - 0.5) * 200))
  else ret p.

(** The particle loop over one system's [position] and [velocity]
    attributes (built with the same count). *)
Fixpoint updateParticles (pos vel : list Vec3) : Rand (list Vec3) :=
  match pos, vel with
  | p :: pos', v :: vel' =>
      p' <- updateParticle p v ;;
      rest <- updateParticles pos' vel' ;;
      ret (p' :: rest)
  | _, _ => ret pos
  end.

Definition updateSystem (s : Points) : Rand Points :=
  pos <- updateParticles (positions s) (velocities s) ;;
  ret (mkPoints (ptype s) pos (velocities s) (colors s)).

Fixpoint forEach {A} (f : A -> Rand A) (l : list A) : Rand (list A) :=
  match l with
  | [] => ret []
  | a :: l' =>
      a' <- f a ;;
      rest <- forEach f l' ;;
      ret (a' :: rest)
  end.

Definition animate (r : nat) (now : Z) (w : World) : World :=
  match nth_error (instances w) r with
  | None => w
  | Some inst =>
      let p := props inst in
      let '(id, h) := requestAnimationFrame r (host w) in
      let w := set_animationIdRef (Some id) (set_host h w) in
      let time := IZR now * 0.001 in
      let w := set_flyingObjectsRef (map updateVehicle (flyingObjectsRef w)) w in
      let updated := forEach updateSystem (particleSystemsRef w) (rng w) in
      let w := set_rng (snd updated) (set_particleSystemsRef (fst updated) w) in
      let relight :=
        negb (String.eqb (timeOfDay p)
                (if String.eqb (timeOfDay p) "day" then "day" else "night")) in
      let w :=
        set_instances
          (update_nth r
             (fun i =>
                mkInstance (props i)
                  (if relight then fst (setupLighting (timeOfDay p))
                   else lights i)
                  (if relight then snd (setupLighting (timeOfDay p))
                   else scene_fog i)
                  (buildings i)
                  (if String.eqb (cameraMode p) "cinematic" then
                     vec3 (cos (time * 0.1) * 50)
                          (20 + sin (time * 0.05) * 10)
                          (sin (time * 0.1) * 50)
                   else camera_position i)
                  (camera_aspect i) (renderer_width i) (renderer_height i))
             (instances w))
          w in
      on_host (emit (Draw r)) w
  end.

(** ** The resize handler *)

Definition onResize (r : nat) (w : World) : World :=
  if negb (mount_present (host w)) then w
  else
    let width := clientWidth (host w) in
    let height := clientHeight (host w) in
    set_instances
      (update_nth r
         (fun i => mkInstance (props i) (lights i) (scene_fog i) (buildings i)
                              (camera_position i) (IZR width / IZR height)
                              width height)
         (instances w))
      w.

(** ** The effect and its cleanup *)

Definition effect (p : Props) (now : Z) (w : World) : World * option nat :=
  if negb (mount_present (host w)) then (w, None)
  else
    let w := on_host clearChildren w in
    match rendererRef w with
    | Some _ => (w, None)
    | None =>
        let r := length (instances w) in
        let w := set_sceneRef (Some r) w in
        let w := set_rendererRef (Some r) w in
        let w := on_host (appendChild (Canvas r)) w in
        let w := set_controlsRef (Some r) w in
        let city := generateCity (rng w) in
        let inst :=
          mkInstance p (fst (setupLighting (timeOfDay p)))
                     (snd (setupLighting (timeOfDay p))) (fst city)
                     (vec3 0 20 50)
                     (IZR (innerWidth (host w)) / IZR (innerHeight (host w)))
                     (innerWidth (host w)) (innerHeight (host w)) in
        let w := set_instances (instances w ++ [inst]) w in
        let vehicles :=
          repeat_from 0 8 (fun _ => createFlyingVehicle) (snd city) in
        let w := set_flyingObjectsRef (flyingObjectsRef w ++ fst vehicles) w in
        let w := set_rng (snd vehicles) w in
        let w :=
          if effectsEnabled p then
            let rainSystem := createParticleSystem rain (rng w) in
            let sparksSystem := createParticleSystem sparks (snd rainSystem) in
            let fogSystem := createParticleSystem fog (snd sparksSystem) in
            set_rng (snd fogSystem)
              (set_particleSystemsRef
                 [fst rainSystem; fst sparksSystem; fst fogSystem] w)
          else w in
        let w := animate r now w in
        let w := on_host (addEventListener Window resize (handleResize r)) w in
        let w := onResize r w in
        (w, Some r)
    end.

Definition cleanup (r : nat) (w : World) : World :=
  let w := on_host (removeEventListener Window resize (handleResize r)) w in
  let w :=
    if truthy (animationIdRef w) then
      match animationIdRef w with
      | Some id => on_host (cancelAnimationFrame id) w
      | None => w
      end
    else w in
  let w :=
    match controlsRef w with
    | Some c => on_host (emit (Dispose (the_controls c))) w
    | None => w
    end in
  let w :=
    if mount_present (host w) then
      let w := if contains (Canvas r) (host w)
               then on_host (removeChild (Canvas r)) w else w in
      on_host removeRemainingCanvases w
    else w in
  let w := on_host (emit (Dispose (the_renderer r))) w in
  set_rendererRef None w.

(** ** What the page can do to a mounted city *)

Inductive Event :=
| Frame (now : Z)
| Resize (cw ch iw ih : Z).

Definition step (e : Event) (w : World) : World :=
  match e with
  | Frame now =>
      let callbacks := frames (host w) in
      let w := on_host (fun h => set_frames [] (nextFrame h) h) w in
      fold_left (fun acc f => animate (snd f) now acc) callbacks w
  | Resize cw ch iw ih =>
      fold_left (fun acc k => match k with
                              | handleResize r => onResize r acc
                              | _ => acc
                              end)
                (handlers_for Window resize (host w))
                (on_host (set_viewport cw ch iw ih) w)
  end.

Definition run (es : list Event) (w : World) : World :=
  fold_left (fun acc e => step e acc) es w.

Definition initial (h : Host) (g : Rng) : World :=
  mkWorld h g None None None None [] [] [].

Definition boot (cw ch iw ih : Z) (dpr : R) (g : Rng) (p : Props) (now : Z)
    : World :=
  fst (effect p now (initial (fresh cw ch iw ih dpr) g)).

(** The effects that the cleanup closure of run [r] performs, in order. *)
Definition teardown_trace (r : nat) (w : World) : list Effect :=
  skipn (length (log (host w))) (log (host (cleanup r w))).

(** What [teardown_trace] is on a mounted city whose pending request is
    [id]. *)
Definition city_teardown (r id : nat) : list Effect :=
  [ RemoveListener Window resize (handleResize r);
    CancelFrame id;
    Dispose (the_controls r);
    RemoveChild (Canvas r);
    Dispose (the_renderer r) ].

(** The cleanup as React runs it when the component unmounts: [mountRef]
    has been cleared by then. *)
Definition unmount (r : nat) (w : World) : World :=
  cleanup r (on_host detachRef w).

(** The effects of the cleanup at unmount, in order. *)
Definition unmount_trace (r : nat) (w : World) : list Effect :=
  skipn (length (log (host w))) (log (host (unmount r w))).

(** ** Invariants *)

(** The state of a page on which run [r] of the effect is live. *)
Record mounted (r : nat) (w : World) : Prop := {
  m_present : mount_present (host w) = true;
  m_children : children (host w) = [Canvas r];
  m_listeners : listeners (host w) = [(Window, resize, handleResize r)];
  m_renderer : rendererRef w = Some r;
  m_controls : controlsRef w = Some r;
  m_instance : exists i, nth_error (instances w) r = Some i;
  m_frame : exists id, frames (host w) = [(id, r)] /\
                       animationIdRef w = Some id /\
                       (1 <= id < nextFrame (host w))%nat
}.

(** ** Particles *)

(** The position [q] that a particle moved to sends it back to the top. *)
Definition respawns (q : Vec3) : Prop :=
  vy q < 0 \/ Rabs (vx q) > 100 \/ Rabs (vz q) > 100.

(** How a tick leaves a particle that was at [p] with velocity [v]: moved
    by [v], or put back at a random place between heights 50 and 100. *)
Definition ticked (p v p' : Vec3) : Prop :=
  (~ respawns (vec_add p v) /\ p' = vec_add p v)
  \/
  (respawns (vec_add p v) /\
   50 <= vy p' < 100 /\ -100 <= vx p' < 100 /\ -100 <= vz p' < 100).

(** The number of calls of [Math.random()] in a [for_to] loop whose round
    [i] makes [k i] of them. *)
Fixpoint for_to_draws (fuel : nat) (i stop step : Z) (k : Z -> nat) : nat :=
  match fuel with
  | O => O
  | S fuel' =>
      if (i <=? stop)%Z
      then (k i + for_to_draws fuel' (i + step)%Z stop step k)%nat
      else O
  end.


End ImmersiveScene.

(* ================================================================== *)
(** * GalacticSolarSystem.tsx *)
(* ================================================================== *)

(** The [useEffect] of the galaxy: the particle galaxy with its shader
    uniforms, the sun and the planets, the frame loop, the resize handler
    and the cleanup.  Meshes are kept as the fields the frame loop writes. *)
Module GalacticSolarSystem.
Import Js Host.
Local Open Scope rand_scope.

(** The attributes of the galaxy's [BufferGeometry], one entry per
    particle. *)
Record Attributes := mkAttributes {
  position : list Vec3;
  color : list Vec3;
  aScale : list R;
  aRandom : list Vec3
}.

(** The [THREE.Points] of the galaxy. *)
Record Points := mkPoints {
  geometry : Attributes;
  rotation_y : R
}.

Record Moon := mkMoon {
  moon_x : R;
  moon_z : R;
  moon_orbitRadius : R;
  moon_orbitSpeed : R;
  moon_angle : R
}.

Record Planet := mkPlanet {
  mesh_x : R;
  mesh_z : R;
  mesh_rotation_y : R;
  orbitRadius : R;
  orbitSpeed : R;
  rotationSpeed : R;
  angle : R;
  moons : option (list Moon)
}.

Record PlanetData := mkPlanetData {
  name : string;
  size : R;
  data_color : Z;
  data_orbitRadius : R;
  data_orbitSpeed : R;
  data_rotationSpeed : R;
  hasMoon : bool;
  hasRings : bool
}.

(** What one run of the effect keeps in its closures: camera, renderer,
    the uniforms of [particleMaterial], the sun and the [planets] array
    (the array [planetsRef.current] also points to). *)
Record Instance := mkInstance {
  camera_aspect : R;
  renderer_width : Z;
  renderer_height : Z;
  renderer_pixelRatio : R;
  uTime : R;
  uSize : R;
  sun_rotation_y : R;
  planets : list Planet
}.

Record World := mkWorld {
  host : Host;
  rng : Rng;
  sceneRef : option nat;
  rendererRef : option nat;
  animationIdRef : option nat;
  controlsRef : option nat;
  particleSystemRef : option Points;
  timeRef : R;
  instances : list Instance
}.

Definition set_host (h : Host) (w : World) : World :=
  mkWorld h (rng w) (sceneRef w) (rendererRef w) (animationIdRef w) (controlsRef w) (particleSystemRef w) (timeRef w)
          (instances w).

Definition on_host (f : Host -> Host) (w : World) : World :=
  set_host (f (host w)) w.

Definition set_rng (g : Rng) (w : World) : World :=
  mkWorld (host w) g (sceneRef w) (rendererRef w) (animationIdRef w) (controlsRef w) (particleSystemRef w) (timeRef w)
          (instances w).

Definition set_sceneRef (v : option nat) (w : World) : World :=
  mkWorld (host w) (rng w) v (rendererRef w) (animationIdRef w) (controlsRef w) (particleSystemRef w) (timeRef w)
          (instances w).

Definition set_rendererRef (v : option nat) (w : World) : World :=
  mkWorld (host w) (rng w) (sceneRef w) v (animationIdRef w) (controlsRef w) (particleSystemRef w) (timeRef w)
          (instances w).

Definition set_animationIdRef (v : option nat) (w : World) : World :=
  mkWorld (host w) (rng w) (sceneRef w) (rendererRef w) v (controlsRef w) (particleSystemRef w) (timeRef w) (instances w).

Definition set_controlsRef (v : option nat) (w : World) : World :=
  mkWorld (host w) (rng w) (sceneRef w) (rendererRef w) (animationIdRef w) v (particleSystemRef w) (timeRef w) (instances w).

Definition set_particleSystemRef (v : option Points) (w : World) : World :=
  mkWorld (host w) (rng w) (sceneRef w) (rendererRef w) (animationIdRef w) (controlsRef w) v (timeRef w) (instances w).

Definition set_timeRef (v : R) (w : World) : World :=
  mkWorld (host w) (rng w) (sceneRef w) (rendererRef w) (animationIdRef w) (controlsRef w) (particleSystemRef w) v
          (instances w).

Definition set_instances (v : list Instance) (w : World) : World :=
  mkWorld (host w) (rng w) (sceneRef w) (rendererRef w) (animationIdRef w) (controlsRef w) (particleSystemRef w) (timeRef w)
          v.

(** ** Content: the particle galaxy *)

Definition particleCount : nat := Z.to_nat 20000.
Definition galaxyRadius : R := 200.
Definition galaxyArms : nat := 4.
Definition randomness : R := 0.3.
Definition randomnessPower : nat := 3.

(** [Math.pow(Math.random(), randomnessPower) * (Math.random() < 0.5 ? 1 : -1)
    * randomness * radius] *)
Definition randomOffset (radius : R) : Rand R :=
  a <- Math_random ;;
  b <- Math_random ;;
  ret (a ^ randomnessPower * (if Rltb b 0.5 then 1 else -1) * randomness
       * radius).

(** [c.lerp(o, alpha)] on one channel. *)
Definition lerp (c o alpha : R) : R := c + (o - c) * alpha.

(** What round [i] of the build loop writes: the position, colour, scale
    and random triple of particle [i].  [insideColor] and [outsideColor]
    are the components of [new THREE.Color(0xff6030)] and
    [new THREE.Color(0x1b3984)]. *)
Definition galaxyParticle (insideColor outsideColor : Vec3) (i : nat)
    : Rand (Vec3 * Vec3 * R * Vec3) :=
  u <- Math_random ;;
  let radius := u * galaxyRadius in
  let spinAngle := radius * 0.2 in
  let branchAngle :=
    INR (i mod galaxyArms) / INR galaxyArms * PI * 2 in
  randomX <- randomOffset radius ;;
  randomY <- randomOffset radius ;;
  randomZ <- randomOffset radius ;;
  let p := vec3 (cos (branchAngle + spinAngle) * radius + randomX)
                (randomY * 0.1)
                (sin (branchAngle + spinAngle) * radius + randomZ) in
  let alpha := radius / galaxyRadius in
  let mixedColor :=
    vec3 (lerp (vx insideColor) (vx outsideColor) alpha)
         (lerp (vy insideColor) (vy outsideColor) alpha)
         (lerp (vz insideColor) (vz outsideColor) alpha) in
  s <- Math_random ;;
  rx <- Math_random ;;
  ry <- Math_random ;;
  rz <- Math_random ;;
  ret (p, mixedColor, s * 0.5 + 0.5,
       vec3 ((rx - 0.5) * 2) ((ry - 0.5) * 2) ((rz - 0.5) * 2)).

Definition buildGalaxy (insideColor outsideColor : Vec3) (count : nat)
    : Rand Attributes :=
  ps <- repeat_from 0 count (galaxyParticle insideColor outsideColor) ;;
  ret (mkAttributes (map (fun q => fst (fst (fst q))) ps)
                    (map (fun q => snd (fst (fst q))) ps)
                    (map (fun q => snd (fst q)) ps)
                    (map snd ps)).

(** ** Content: the solar system *)

Definition planetData : list PlanetData :=
  [ mkPlanetData "Mercury" 0.7 0x8c7853 12 0.025 0.015 false false;
    mkPlanetData "Venus" 1.0 0xffc649 18 0.02 0.01 false false;
    mkPlanetData "Earth" 1.2 0x6b93d6 25 0.015 0.012 true false;
    mkPlanetData "Mars" 0.9 0xc1440e 32 0.012 0.015 false false;
    mkPlanetData "Jupiter" 3.5 0xd8ca9d 50 0.008 0.025 true false;
    mkPlanetData "Saturn" 3.0 0xfab95b 65 0.006 0.022 false true ].

Definition makeMoon (data : PlanetData) (moonCount i : nat) : Moon :=
  let moonOrbitRadius := size data + 2.0 + INR i * 1.2 in
  mkMoon moonOrbitRadius 0 moonOrbitRadius (0.08 + INR i * 0.03)
         (INR i * PI * 2 / INR moonCount).

Definition makePlanet (data : PlanetData) (index : nat) : Planet :=
  mkPlanet (data_orbitRadius data) 0 0
           (data_orbitRadius data) (data_orbitSpeed data)
           (data_rotationSpeed data)
           (INR index * PI * 2 / INR (length planetData))
           (if hasMoon data then
              let moonCount :=
                if String.eqb (name data) "Jupiter" then 4%nat else 1%nat in
              Some (map (makeMoon data moonCount) (seq 0 moonCount))
            else None).

Definition makePlanets : list Planet :=
  map (fun d => makePlanet (fst d) (snd d))
      (combine planetData (seq 0 (length planetData))).

(** ** The frame loop *)

Definition updateMoon (m : Moon) : Moon :=
  let a := moon_angle m + moon_orbitSpeed m in
  mkMoon (cos a * moon_orbitRadius m) (sin a * moon_orbitRadius m)
         (moon_orbitRadius m) (moon_orbitSpeed m) a.

Definition updatePlanet (p : Planet) : Planet :=
  let a := angle p + orbitSpeed p in
  mkPlanet (cos a * orbitRadius p) (sin a * orbitRadius p)
           (mesh_rotation_y p + rotationSpeed p)
           (orbitRadius p) (orbitSpeed p) (rotationSpeed p) a
           (option_map (map updateMoon) (moons p)).

Definition animate (r : nat) (w : World) : World :=
  match nth_error (instances w) r with
  | None => w
  | Some _ =>
      let '(id, h) := requestAnimationFrame r (host w) in
      let w := set_animationIdRef (Some id) (set_host h w) in
      let w := set_timeRef (timeRef w + 0.01) w in
      let w :=
        match particleSystemRef w with
        | Some particles =>
            set_particleSystemRef
              (Some (mkPoints (geometry particles) (timeRef w * 0.02))) w
        | None => w
        end in
      let w :=
        set_instances
          (update_nth r
             (fun i =>
                mkInstance (camera_aspect i) (renderer_width i)
                           (renderer_height i) (renderer_pixelRatio i)
                           (timeRef w) (uSize i) (sun_rotation_y i + 0.005)
                           (map updatePlanet (planets i)))
             (instances w))
          w in
      on_host (emit (Draw r)) w
  end.

(** ** The resize handler *)

Definition onResize (r : nat) (w : World) : World :=
  if negb (mount_present (host w)) then w
  else
    let width := js_or (clientWidth (host w)) (innerWidth (host w)) in
    let height := js_or (clientHeight (host w)) (innerHeight (host w)) in
    set_instances
      (update_nth r
         (fun i =>
            mkInstance (IZR width / IZR height) width height
                       (renderer_pixelRatio i) (uTime i)
                       (25 * renderer_pixelRatio i) (sun_rotation_y i)
                       (planets i))
         (instances w))
      w.

(** ** The effect and its cleanup *)

Definition effect (insideColor outsideColor : Vec3) (w : World)
    : World * option nat :=
  if negb (mount_present (host w)) then (w, None)
  else
    let w := on_host clearChildren w in
    match rendererRef w with
    | Some _ => (w, None)
    | None =>
        let r := length (instances w) in
        let w := set_sceneRef (Some r) w in
        let width := js_or (clientWidth (host w)) (innerWidth (host w)) in
        let height := js_or (clientHeight (host w)) (innerHeight (host w)) in
        let w := set_rendererRef (Some r) w in
        let w := on_host (appendChild (Canvas r)) w in
        let w := set_controlsRef (Some r) w in
        let galaxy := buildGalaxy insideColor outsideColor particleCount (rng w) in
        let w := set_rng (snd galaxy) w in
        let w := set_particleSystemRef (Some (mkPoints (fst galaxy) 0)) w in
        let inst :=
          mkInstance (IZR width / IZR height) width height
                     (devicePixelRatio (host w)) 0
                     (25 * devicePixelRatio (host w)) 0 makePlanets in
        let w := set_instances (instances w ++ [inst]) w in
        let w := animate r w in
        let w := on_host (addEventListener Window resize (handleResize r)) w in
        let w := on_host (setTimeout r) w in
        (w, Some r)
    end.

(** [planets.forEach(planet => ...)] of the cleanup. *)
Definition disposePlanets (r : nat) (ps : list Planet) : list Effect :=
  flat_map
    (fun ip =>
       let i := fst ip in
       [Dispose (the_planetGeometry r i); Dispose (the_planetMaterial r i)]
       ++ match moons (snd ip) with
          | Some ms =>
              flat_map (fun j => [Dispose (the_moonGeometry r i j);
                                  Dispose (the_moonMaterial r i j)])
                       (seq 0 (length ms))
          | None => []
          end)
    (combine (seq 0 (length ps)) ps).

Definition cleanup (r : nat) (w : World) : World :=
  let w := on_host (removeEventListener Window resize (handleResize r)) w in
  let w :=
    if truthy (animationIdRef w) then
      match animationIdRef w with
      | Some id => on_host (cancelAnimationFrame id) w
      | None => w
      end
    else w in
  let w :=
    match controlsRef w with
    | Some c => on_host (emit (Dispose (the_controls c))) w
    | None => w
    end in
  let w :=
    if mount_present (host w) then
      let w := if contains (Canvas r) (host w)
               then on_host (removeChild (Canvas r)) w else w in
      on_host removeRemainingCanvases w
    else w in
  let w := on_host (emit (Dispose (the_renderer r))) w in
  let w := set_rendererRef None w in
  let w := on_host (emit (Dispose (the_geometry r))) w in
  let w := on_host (emit (Dispose (the_particleMaterial r))) w in
  match nth_error (instances w) r with
  | Some i =>
      on_host (fun h => fold_left (fun acc e => emit e acc)
                                  (disposePlanets r (planets i)) h) w
  | None => w
  end.

(** ** What the page can do to a mounted galaxy *)

Inductive Event :=
| Frame
| Resize (cw ch iw ih : Z)
| Timeout.

Definition step (e : Event) (w : World) : World :=
  match e with
  | Frame =>
      let callbacks := frames (host w) in
      let w := on_host (fun h => set_frames [] (nextFrame h) h) w in
      fold_left (fun acc f => animate (snd f) acc) callbacks w
  | Resize cw ch iw ih =>
      fold_left (fun acc k => match k with
                              | handleResize r => onResize r acc
                              | _ => acc
                              end)
                (handlers_for Window resize (host w))
                (on_host (set_viewport cw ch iw ih) w)
  | Timeout =>
      match timers (host w) with
      | [] => w
      | r :: rest => onResize r (on_host (set_timers rest) w)
      end
  end.

Definition run (es : list Event) (w : World) : World :=
  fold_left (fun acc e => step e acc) es w.

Definition initial (h : Host) (g : Rng) : World :=
  mkWorld h g None None None None None 0 [].

Definition boot (cw ch iw ih : Z) (dpr : R) (g : Rng)
    (insideColor outsideColor : Vec3) : World :=
  fst (effect insideColor outsideColor (initial (fresh cw ch iw ih dpr) g)).

(** The same world with the galaxy's attributes replaced by [a]. *)
Definition with_geometry (a : Attributes) (w : World) : World :=
  set_particleSystemRef
    (option_map (fun particles => mkPoints a (rotation_y particles))
                (particleSystemRef w))
    w.

(** ** Invariants *)

(** The state of a page on which run [r] of the effect is live and the
    galaxy's attributes are [built]. *)
Record mounted (r : nat) (built : Attributes) (w : World) : Prop := {
  m_present : mount_present (host w) = true;
  m_children : children (host w) = [Canvas r];
  m_listeners : listeners (host w) = [(Window, resize, handleResize r)];
  m_renderer : rendererRef w = Some r;
  m_controls : controlsRef w = Some r;
  m_instance : exists i, nth_error (instances w) r = Some i;
  m_particles : exists rot, particleSystemRef w = Some (mkPoints built rot);
  m_frame : exists id, frames (host w) = [(id, r)] /\
                       animationIdRef w = Some id /\
                       (1 <= id < nextFrame (host w))%nat
}.

(** Nothing scheduled and nothing listening. *)
Definition quiet (w : World) : Prop :=
  frames (host w) = [] /\ listeners (host w) = [].

End GalacticSolarSystem.

(* ================================================================== *)
(** * Event counts and the second effect of the cube *)
(* ================================================================== *)

Module CubeEvents.
Import Host RotatingCube.

Definition is_frame (e : Event) : bool :=
  match e with Frame _ => true | _ => false end.


(** How many times the browser ran the frame callbacks. *)
Definition frame_count (es : list Event) : nat :=
  length (filter is_frame es).

Definition is_press (e : Event) : bool :=
  match e with MouseDown _ _ _ => true | _ => false end.

(** No mouse button is pressed during [es]. *)
Definition no_press (es : list Event) : bool :=
  forallb (fun e => negb (is_press e)) es.

(** [material.color.setStyle(color)] *)
Definition setStyle (color : String.string) (m : Material) : Material :=
  match m with
  | MeshPhongMaterial _ wireframe => MeshPhongMaterial color wireframe
  | MeshStandardMaterial _ metalness roughness =>
      MeshStandardMaterial color metalness roughness
  | MeshPhysicalMaterial _ metalness roughness transmission opacity =>
      MeshPhysicalMaterial color metalness roughness transmission opacity
  end.

(** The second effect of the component, which React runs after the first
    at mount and at every change of [cubeColor] or [cubeSize]: it recolours
    the cube in [cubeRef] and sets the scale of its mesh to
    [cubeSize / 1.5] on the three axes.  The result is the world and the
    scale that was set, if there was a cube. *)
Definition updateCubeProperties (p : Props) (w : World)
    : World * option (R * R * R) :=
  match cubeRef w with
  | Some c =>
      let scale := cubeSize p / 1.5 in
      (set_cubeRef
         (Some (mkMesh (geometry c) (setStyle (cubeColor p) (material c))
                       (rotation_x c) (rotation_y c) (position_y c)))
         w,
       Some (scale, scale, scale))
  | None => (w, None)
  end.

End CubeEvents.

(* ================================================================== *)
(** * Shapes and ranges in the city *)
(* ================================================================== *)

Module CityShapes.
Import Js Host ImmersiveScene.




(** A vehicle as the frame loop keeps it: its speed in [[0.1, 0.4)] and its
    direction of length 1 (or 0, when all three direction draws were
    0.5). *)
Definition steady (v : Vehicle) : Prop :=
  0.1 <= speed v < 0.4 /\
  (vec_length (direction v) = 1 \/ vec_length (direction v) = 0).

(** Inside the box the particle loop keeps particles in. *)
Definition in_range (q : Vec3) : Prop :=
  0 <= vy q /\ Rabs (vx q) <= 100 /\ Rabs (vz q) <= 100.

Definition is_frame (e : Event) : bool :=
  match e with Frame _ => true | _ => false end.

(** How many times the browser ran the frame callbacks. *)
Definition frame_count (es : list Event) : nat :=
  length (filter is_frame es).

(** A particle system of type [ty] with all its particles in range. *)
Definition system_in_range (ty : ParticleType) (s : Points) : Prop :=
  ptype s = ty /\
  length (positions s) = particle_count ty /\
  length (velocities s) = particle_count ty /\
  Forall in_range (positions s).

(** Where the frame loop may leave the camera: in cinematic mode on the
    circle of radius 50 around the vertical axis, between heights 10 and
    30; otherwise where the effect put it. *)
Definition camera_on_track (p : Props) (c : Vec3) : Prop :=
  if String.eqb (cameraMode p) "cinematic"
  then vx c * vx c + vz c * vz c = 2500 /\ 10 <= vy c <= 30
  else c = vec3 0 20 50.

(** What a frame makes of the instance of a run with props [p]. *)
Definition frame_instance (now : Z) (i : Instance) : Instance :=
  let p := props i in
  let time := IZR now * 0.001 in
  let relight :=
    negb (String.eqb (timeOfDay p)
            (if String.eqb (timeOfDay p) "day" then "day" else "night")) in
  mkInstance (props i)
    (if relight then fst (setupLighting (timeOfDay p)) else lights i)
    (if relight then snd (setupLighting (timeOfDay p)) else scene_fog i)
    (buildings i)
    (if String.eqb (cameraMode p) "cinematic" then
       vec3 (cos (time * 0.1) * 50) (20 + sin (time * 0.05) * 10)
            (sin (time * 0.1) * 50)
     else camera_position i)
    (camera_aspect i) (renderer_width i) (renderer_height i).

(** The one instance of a run with props [p] whose city was built from
    [g]: the lights and the fog are those of [setupLighting], the buildings
    the ones [generateCity] made, and the camera is on its track. *)
Definition city_view (g : Rng) (p : Props) (w : World) : Prop :=
  exists i,
    instances w = [i] /\ props i = p /\
    lights i = fst (setupLighting (timeOfDay p)) /\
    scene_fog i = snd (setupLighting (timeOfDay p)) /\
    buildings i = fst (generateCity g) /\
    camera_on_track p (camera_position i).

(** What holds of the refs of the city on every state reachable from the
    first mount with props [p] and generator [g]. *)
Record city_state (g : Rng) (p : Props) (w : World) : Prop := {
  c_draws : draws (rng w) = draws g;
  c_vehicles : length (flyingObjectsRef w) = 8%nat /\
               Forall steady (flyingObjectsRef w);
  c_particles : Forall2 system_in_range
                  (if effectsEnabled p then [rain; sparks; fog] else [])
                  (particleSystemsRef w)
}.

End CityShapes.


(* ================================================================== *)
(** * Shapes and orbits in the galaxy *)
(* ================================================================== *)

Module GalaxyShapes.
Import Js Host GalacticSolarSystem.

Definition is_frame (e : Event) : bool :=
  match e with Frame => true | _ => false end.

(** How many times the browser ran the frame callbacks. *)
Definition frame_count (es : list Event) : nat :=
  length (filter is_frame es).

(** Inside the flat box that holds the galaxy, its faces included: 1.3
    times the radius wide, a tenth of 0.3 times the radius high. *)
Definition in_disc (q : Vec3) : Prop :=
  -260 <= vx q <= 260 /\ -6 <= vy q <= 6 /\ -260 <= vz q <= 260.

(** A colour between [inside] and [outside], the two included. *)
Definition on_segment (inside outside c : Vec3) : Prop :=
  exists alpha, 0 <= alpha <= 1 /\
    c = vec3 (lerp (vx inside) (vx outside) alpha)
             (lerp (vy inside) (vy outside) alpha)
             (lerp (vz inside) (vz outside) alpha).

Definition in_unit_box (q : Vec3) : Prop :=
  -1 <= vx q <= 1 /\ -1 <= vy q <= 1 /\ -1 <= vz q <= 1.

(** Moon [j] of [count] around the planet of [d], after [n] frames. *)
Definition moon_at (n : nat) (d : PlanetData) (count j : nat) (m : Moon)
    : Prop :=
  moon_orbitRadius m = size d + 2.0 + INR j * 1.2 /\
  moon_orbitSpeed m = 0.08 + INR j * 0.03 /\
  moon_angle m = INR j * PI * 2 / INR count + INR n * moon_orbitSpeed m /\
  moon_x m = cos (moon_angle m) * moon_orbitRadius m /\
  moon_z m = sin (moon_angle m) * moon_orbitRadius m.

(** The planet of [d], the [index]-th of the table, after [n] frames. *)
Definition planet_at (n : nat) (d : PlanetData) (index : nat) (p : Planet)
    : Prop :=
  orbitRadius p = data_orbitRadius d /\
  orbitSpeed p = data_orbitSpeed d /\
  rotationSpeed p = data_rotationSpeed d /\
  angle p = INR index * PI * 2 / INR (length planetData)
            + INR n * data_orbitSpeed d /\
  mesh_x p = cos (angle p) * data_orbitRadius d /\
  mesh_z p = sin (angle p) * data_orbitRadius d /\
  mesh_rotation_y p = INR n * data_rotationSpeed d /\
  match moons p with
  | Some ms =>
      hasMoon d = true /\
      Forall2 (moon_at n d (if String.eqb (name d) "Jupiter" then 4 else 1))
              (seq 0 (if String.eqb (name d) "Jupiter" then 4 else 1)) ms
  | None => hasMoon d = false
  end.

(** The effects that the cleanup closure of run [r] performs, in order. *)
Definition teardown_trace (r : nat) (w : World) : list Effect :=
  skipn (length (log (host w))) (log (host (cleanup r w))).

(** The cleanup as React runs it when the component unmounts: [mountRef]
    has been cleared by then. *)
Definition unmount (r : nat) (w : World) : World :=
  cleanup r (on_host detachRef w).

(** The effects of the cleanup at unmount, in order. *)
Definition unmount_trace (r : nat) (w : World) : list Effect :=
  skipn (length (log (host w))) (log (host (unmount r w))).

(** What the disposal loop of the cleanup of run 0 disposes, in order:
    planet by planet in the order of the table, the planet's geometry and
    material followed by those of its moons (one for Earth, four for
    Jupiter). *)
Definition planet_disposals : list Effect :=
  [ Dispose (the_planetGeometry 0 0); Dispose (the_planetMaterial 0 0);
    Dispose (the_planetGeometry 0 1); Dispose (the_planetMaterial 0 1);
    Dispose (the_planetGeometry 0 2); Dispose (the_planetMaterial 0 2);
    Dispose (the_moonGeometry 0 2 0); Dispose (the_moonMaterial 0 2 0);
    Dispose (the_planetGeometry 0 3); Dispose (the_planetMaterial 0 3);
    Dispose (the_planetGeometry 0 4); Dispose (the_planetMaterial 0 4);
    Dispose (the_moonGeometry 0 4 0); Dispose (the_moonMaterial 0 4 0);
    Dispose (the_moonGeometry 0 4 1); Dispose (the_moonMaterial 0 4 1);
    Dispose (the_moonGeometry 0 4 2); Dispose (the_moonMaterial 0 4 2);
    Dispose (the_moonGeometry 0 4 3); Dispose (the_moonMaterial 0 4 3);
    Dispose (the_planetGeometry 0 5); Dispose (the_planetMaterial 0 5) ].

(** What holds of a galaxy of pixel ratio [dpr] and attributes [b] that
    has seen [n] frames. *)
Record galaxy_state (dpr : R) (b : Attributes) (n : nat) (w : World)
    : Prop := {
  g_clock : timeRef w = INR n * 0.01;
  g_system : exists rot, particleSystemRef w = Some (mkPoints b rot) /\
                         rot = timeRef w * 0.02;
  g_instance : exists i,
      instances w = [i] /\ uTime i = timeRef w /\
      sun_rotation_y i = INR n * 0.005 /\
      planets i = Nat.iter n (map updatePlanet) makePlanets /\
      renderer_pixelRatio i = dpr /\ uSize i = 25 * dpr
}.

End GalaxyShapes.

(* ================================================================== *)
(** * Facts about computations that draw random numbers *)
(* ================================================================== *)

Module RandFacts.
Import Js.

(** Evaluation of the code on a given page, leaving arithmetic on numbers
    alone. *)
Ltac run_code :=
  lazy beta iota zeta
       delta -[Rplus Rmult Rminus Rdiv Ropp Rinv IZR INR sin cos sqrt PI Rabs
               Z.add Z.mul Z.sub Z.div].

Lemma Rltb_spec a b : Rltb a b = true <-> a < b.
Proof.
  unfold Rltb. destruct (Rlt_dec a b); split; intros; auto; discriminate.
Qed.

Lemma agree_on_le k k' g1 g2 :
  (k' <= k)%nat -> agree_on k g1 g2 -> agree_on k' g1 g2.
Proof. intros L [C D]. split; [exact C|]. intros n Hn. apply D. lia. Qed.

Lemma uses_ret {A} (a : A) : uses_draws 0 (ret a).
Proof.
  split; [intros g; cbn; split; [lia|reflexivity]|reflexivity].
Qed.

Lemma uses_random : uses_draws 1 Math_random.
Proof.
  split; [intros g; cbn; split; [lia|reflexivity]|].
  intros g1 g2 [C D]. cbn. specialize (D 0%nat).
  rewrite !Nat.add_0_r in D. apply D. lia.
Qed.

Lemma uses_bind {A B} k1 k2 (m : Rand A) (f : A -> Rand B) :
  uses_draws k1 m -> (forall a, uses_draws k2 (f a)) ->
  uses_draws (k1 + k2) (bind m f).
Proof.
  intros [Hm1 Hm2] Hf. split.
  - intros g. unfold bind. destruct (m g) as [a g'] eqn:E.
    destruct (Hm1 g) as [C D]. rewrite E in C, D. cbn in C, D.
    destruct (Hf a) as [Hf1 _]. destruct (Hf1 g') as [C' D'].
    split; [lia|congruence].
  - intros g1 g2 Ag. unfold bind.
    assert (Ea : fst (m g1) = fst (m g2))
      by (apply Hm2; eapply agree_on_le; [|exact Ag]; lia).
    destruct (Hm1 g1) as [C1 D1]. destruct (Hm1 g2) as [C2 D2].
    destruct (m g1) as [a1 g1'], (m g2) as [a2 g2']. cbn in *. subst a2.
    destruct (Hf a1) as [_ Hf2]. apply Hf2.
    destruct Ag as [C D]. split; [lia|].
    intros n Hn. rewrite D1, D2, C1, C2, <- !Nat.add_assoc. apply D. lia.
Qed.

Lemma uses_eq {A} k k' (m : Rand A) :
  uses_draws k' m -> k = k' -> uses_draws k m.
Proof. intros H ->. exact H. Qed.


Lemma unit_draws_same g g' : draws g' = draws g -> unit_draws g -> unit_draws g'.
Proof. unfold unit_draws. now intros ->. Qed.

Lemma repeat_from_S {A} (body : nat -> Rand A) i n g :
  repeat_from i (S n) body g =
  let (a, g') := body i g in
  let (rest, g'') := repeat_from (S i) n body g' in
  (a :: rest, g'').
Proof.
  cbn [repeat_from]. unfold bind at 1. destruct (body i g) as [a g'].
  unfold bind at 1. destruct (repeat_from (S i) n body g'); reflexivity.
Qed.

Lemma length_repeat_from {A} (body : nat -> Rand A) n :
  forall i g, length (fst (repeat_from i n body g)) = n.
Proof.
  induction n as [|n IH]; intros i g; [reflexivity|].
  rewrite repeat_from_S. destruct (body i g) as [a g'].
  specialize (IH (S i) g').
  destruct (repeat_from (S i) n body g') as [rest g'']. cbn in *. now rewrite IH.
Qed.

(** What every round establishes holds of everything the loop builds. *)
Lemma Forall_repeat_from {A} (P : A -> Prop) (body : nat -> Rand A) :
  (forall i g, unit_draws g ->
               P (fst (body i g)) /\ draws (snd (body i g)) = draws g) ->
  forall n i g, unit_draws g ->
    Forall P (fst (repeat_from i n body g)) /\
    draws (snd (repeat_from i n body g)) = draws g.
Proof.
  intros Hb. induction n as [|n IH]; intros i g U.
  - cbn. auto.
  - rewrite repeat_from_S. destruct (Hb i g U) as [Pa Da].
    destruct (body i g) as [a g']. cbn in Pa, Da.
    destruct (IH (S i) g' (unit_draws_same _ _ Da U)) as [Fr Dr].
    destruct (repeat_from (S i) n body g') as [rest g'']. cbn in *.
    split; [constructor; assumption|congruence].
Qed.

End RandFacts.

(* ================================================================== *)
(** * Facts about the host operations *)
(* ================================================================== *)

Module HostFacts.
Import Host.

Lemma nth_error_update_nth {A} (f : A -> A) (l : list A) (n m : nat) :
  nth_error (update_nth n f l) m =
  if Nat.eqb n m then option_map f (nth_error l m) else nth_error l m.
Proof.
  revert n m; induction l as [|a l IH]; intros [|n] [|m]; cbn; auto.
  all: destruct (Nat.eqb _ _); reflexivity.
Qed.

Lemma update_nth_twice {A} (f : A -> A) (n : nat) (l : list A) :
  (forall a, f (f a) = f a) ->
  update_nth n f (update_nth n f l) = update_nth n f l.
Proof.
  intros Hf. revert n; induction l as [|a l IH]; intros [|n]; cbn; auto.
  - now rewrite Hf.
  - now rewrite IH.
Qed.

Lemma skipn_length_app {A} (l l' : list A) : skipn (length l) (l ++ l') = l'.
Proof. induction l; cbn; auto. Qed.

Lemma js_or_pos a b : (0 < a)%Z -> js_or a b = a.
Proof. intros Ha. unfold js_or. destruct (Z.eqb_spec a 0); [lia|reflexivity]. Qed.

Lemma emit_all_keeps l : forall h,
  frames (fold_left (fun acc e => emit e acc) l h) = frames h /\
  listeners (fold_left (fun acc e => emit e acc) l h) = listeners h.
Proof.
  induction l as [|e l IH]; intros h; cbn [fold_left]; [auto|].
  destruct (IH (emit e h)) as [F L]. rewrite F, L. auto.
Qed.

End HostFacts.
(* ================================================================== *)
(** * Facts about the cube *)
(* ================================================================== *)

Module CubeFacts.
Import Host RotatingCube HostFacts.

Lemma cube_effect_fresh cw ch iw ih dpr p now :
  exists w, effect p now (initial (fresh cw ch iw ih dpr)) = (w, Some 0%nat) /\
            mounted 0 p w.
Proof.
  eexists; split; [reflexivity|].
  constructor; cbn; try reflexivity.
  - eexists; split; reflexivity.
  - eexists; reflexivity.
  - exists 1%nat; repeat split; lia.
Qed.

Lemma cube_animate_mounted r p now w :
  mounted r p w ->
  mounted r p (animate r now (on_host (fun h => set_frames [] (nextFrame h) h) w)).
Proof.
  intros [Hp Hc Hl Hr Hk (i & Hi & Hpi) (c & Hcube) (id & Hf & Ha & Hid)].
  unfold animate; cbn. rewrite Hi, Hcube.
  constructor; cbn; auto.
  - eauto.
  - eexists; reflexivity.
  - exists (nextFrame (host w)); repeat split; lia.
Qed.

Lemma cube_onResize_mounted r r' p w :
  mounted r p w -> mounted r p (onResize r' w).
Proof.
  intros [Hp Hc Hl Hr Hk (i & Hi & Hpi) (c & Hcube) (id & Hf & Ha & Hid)].
  unfold onResize. rewrite Hp; cbn.
  constructor; cbn; auto.
  - rewrite nth_error_update_nth, Hi.
    destruct (Nat.eqb r' r); cbn; eauto.
  - eauto.
  - eauto.
Qed.

Lemma cube_step_mounted r p e w : mounted r p w -> mounted r p (step e w).
Proof.
  intros M. destruct e as [now|r' x y|x y| |cw ch iw ih| ]; cbn [step].
  - destruct (m_frame _ _ _ M) as (id & Hf & _). rewrite Hf. cbn [fold_left snd].
    apply cube_animate_mounted, M.
  - unfold dispatch, handlers_for. rewrite (m_listeners _ _ _ M). cbn.
    destruct (Nat.eqb r' r); cbn; [|exact M].
    destruct M as [Hp Hc Hl Hr Hk Hi Hcube Hf]. constructor; cbn; auto.
  - unfold dispatch, handlers_for. rewrite (m_listeners _ _ _ M). cbn.
    destruct M as [Hp Hc Hl Hr Hk Hi (c & Hcube) Hf].
    unfold onMouseMove. rewrite Hcube.
    destruct (isDraggingRef w); constructor; cbn; eauto.
  - unfold dispatch, handlers_for. rewrite (m_listeners _ _ _ M). cbn.
    destruct M as [Hp Hc Hl Hr Hk Hi Hcube Hf]. constructor; cbn; auto.
  - unfold dispatch, handlers_for. cbn. rewrite (m_listeners _ _ _ M). cbn.
    apply cube_onResize_mounted.
    destruct M as [Hp Hc Hl Hr Hk Hi Hcube Hf]. constructor; cbn; auto.
  - destruct (timers (host w)) as [|t rest] eqn:Ht; [exact M|].
    apply cube_onResize_mounted.
    destruct M as [Hp Hc Hl Hr Hk Hi Hcube Hf]. constructor; cbn; auto.
Qed.

Lemma cube_run_cons e es w : run (e :: es) w = run es (step e w).
Proof. reflexivity. Qed.

Lemma cube_run_mounted r p es : forall w, mounted r p w -> mounted r p (run es w).
Proof.
  induction es as [|e es IH]; intros w M; [exact M|].
  rewrite cube_run_cons. apply IH, cube_step_mounted, M.
Qed.


(** The cleanup of the first run, on the states in which that run is
    live. *)
Lemma cube_cleanup_live cw ch iw ih dpr nf ts lg sc cu k dr pm ins :
  cleanup 0
    (mkWorld (mkHost true [Canvas 0] cw ch iw ih dpr (cube_listeners 0)
                     [(S k, 0%nat)] nf ts lg)
             sc (Some 0%nat) cu (Some (S k)) (Some 0%nat) dr pm ins) =
  mkWorld (mkHost true [] cw ch iw ih dpr []
                  (if negb (Nat.eqb k k) then [(S k, 0%nat)] else [])
                  nf ts
                  ((((((((((((lg
                    ++ [RemoveListener Window resize (handleResize 0)])
                    ++ [CancelFrame (S k)])
                    ++ [Dispose (the_controls 0)])
                    ++ [RemoveListener (CanvasElement 0) mousedown
                                       (handleMouseDown 0)])
                    ++ [RemoveListener Document mousemove (handleMouseMove 0)])
                    ++ [RemoveListener Document mouseup (handleMouseUp 0)])
                    ++ [RemoveChild (Canvas 0)])
                    ++ [Dispose (the_renderer 0)])
                    ++ [Dispose (the_geometry 0)])
                    ++ [Dispose (the_material 0)])
                    ++ [Dispose (the_planeMaterial 0)])
                    ++ [Dispose (the_planeGeometry 0)]))
          sc None cu None (Some 0%nat) dr pm ins.
Proof. reflexivity. Qed.

Lemma cube_cleanup_mounted p w :
  mounted 0 p w ->
  exists id,
    frames (host w) = [(id, 0%nat)] /\
    log (host (cleanup 0 w)) = log (host w) ++ cube_teardown 0 id /\
    frames (host (cleanup 0 w)) = [] /\
    listeners (host (cleanup 0 w)) = [] /\
    children (host (cleanup 0 w)) = [] /\
    rendererRef (cleanup 0 w) = None /\
    animationIdRef (cleanup 0 w) = None.
Proof.
  intros [Hp Hc Hl Hr Hk _ _ (id & Hf & Ha & Hid)].
  exists id. split; [exact Hf|].
  destruct w as [h sc rr cu ai co dr pm ins].
  destruct h as [mp chn cw ch iw ih dpr ls fs nf ts lg].
  cbn [host mount_present children listeners rendererRef controlsRef frames
       animationIdRef nextFrame] in Hp, Hc, Hl, Hr, Hk, Hf, Ha, Hid.
  subst. destruct id as [|k]; [lia|].
  rewrite cube_cleanup_live.
  cbn [host log frames listeners children rendererRef animationIdRef].
  rewrite Nat.eqb_refl. unfold cube_teardown.
  repeat rewrite <- app_assoc. cbn [app negb].
  repeat split; reflexivity.
Qed.

Lemma cube_step_quiet e w :
  quiet w -> quiet (step e w) /\ log (host (step e w)) = log (host w).
Proof.
  intros [Hf Hl].
  destruct e as [now|r' x y|x y| |cw ch iw ih| ]; cbn [step];
    unfold dispatch, handlers_for, quiet; cbn; rewrite ?Hf, ?Hl; cbn; auto.
  destruct (timers (host w)) as [|t rest]; cbn; auto.
  unfold onResize; cbn. destruct (mount_present (host w)); cbn; auto.
Qed.

Lemma cube_run_quiet es : forall w,
  quiet w -> quiet (run es w) /\ log (host (run es w)) = log (host w).
Proof.
  induction es as [|e es IH]; intros w Q; [auto|].
  rewrite cube_run_cons.
  destruct (cube_step_quiet e w Q) as [Q' L'].
  destruct (IH _ Q') as [Q'' L'']. split; [exact Q''|congruence].
Qed.

(** What a frame does to the cube of a mounted world. *)
Lemma cube_frame_mounted r p now w c :
  mounted r p w -> cubeRef w = Some c ->
  cubeRef (step (Frame now) w) =
  Some (set_position_y
          (if autoRotate p then sin (IZR now * 0.001) * 0.2 else 0)
          (if autoRotate p && negb (isDraggingRef w)
           then set_rotation (rotation_x c + 0.01 * rotationSpeed p)
                             (rotation_y c + 0.01 * rotationSpeed p) c
           else c)) /\
  isDraggingRef (step (Frame now) w) = isDraggingRef w /\
  previousMousePositionRef (step (Frame now) w) = previousMousePositionRef w.
Proof.
  intros [Hp Hc Hl Hr Hk (i & Hi & Hpi) _ (id & Hf & Ha & Hid)] Hcube.
  cbn [step]. rewrite Hf. cbn [fold_left snd].
  unfold animate; cbn. rewrite Hi, Hcube, Hpi. cbn.
  destruct (autoRotate p); cbn; auto.
Qed.

Lemma cube_boot_mounted cw ch iw ih dpr p now :
  mounted 0 p (boot cw ch iw ih dpr p now).
Proof.
  unfold boot. destruct (cube_effect_fresh cw ch iw ih dpr p now) as (w & E & M).
  rewrite E. exact M.
Qed.

Lemma cube_reach_mounted cw ch iw ih dpr p now es :
  mounted 0 p (run es (boot cw ch iw ih dpr p now)).
Proof. apply cube_run_mounted, cube_boot_mounted. Qed.

Lemma cube_run_app es es' w : run (es ++ es') w = run es' (run es w).
Proof. unfold run. apply fold_left_app. Qed.

Lemma cube_down_mounted r p x y w :
  mounted r p w -> step (MouseDown r x y) w = onMouseDown x y w.
Proof.
  intros M. cbn [step]. unfold dispatch, handlers_for.
  rewrite (m_listeners _ _ _ M). cbn. rewrite Nat.eqb_refl. reflexivity.
Qed.

Lemma cube_move_mounted r p x y w :
  mounted r p w -> step (MouseMove x y) w = onMouseMove x y w.
Proof.
  intros M. cbn [step]. unfold dispatch, handlers_for.
  rewrite (m_listeners _ _ _ M). reflexivity.
Qed.

Lemma cube_up_mounted r p w :
  mounted r p w -> step MouseUp w = onMouseUp w.
Proof.
  intros M. cbn [step]. unfold dispatch, handlers_for.
  rewrite (m_listeners _ _ _ M). reflexivity.
Qed.

(** While the button is held, the rotation follows the pointer and frames
    leave it alone. *)
Lemma dragging r p ds : forall w c x y,
  mounted r p w -> cubeRef w = Some c -> isDraggingRef w = true ->
  previousMousePositionRef w = (x, y) ->
  exists c',
    cubeRef (run (map drag_event ds) w) = Some c' /\
    rotation_y c' = rotation_y c + (fst (pointer_after x y ds) - x) * 0.01 /\
    rotation_x c' = rotation_x c + (snd (pointer_after x y ds) - y) * 0.01 /\
    isDraggingRef (run (map drag_event ds) w) = true.
Proof.
  induction ds as [|d ds IH]; intros w c x y M Hc Hd Hp.
  - exists c. cbn. repeat split; auto; lra.
  - cbn [map]. rewrite cube_run_cons.
    pose proof (cube_step_mounted r p (drag_event d) w M) as M'.
    destruct d as [x' y'|now]; cbn [drag_event pointer_after] in *.
    + rewrite (cube_move_mounted r p _ _ _ M) in *.
      unfold onMouseMove in *. rewrite Hd, Hc, Hp in *. cbn [fst snd] in *.
      destruct (IH _ _ x' y' M' eq_refl Hd eq_refl) as (c' & E & Ry & Rx & D).
      exists c'. cbn in Ry, Rx. repeat split; auto; lra.
    + destruct (cube_frame_mounted r p now w c M Hc) as (E & D & P).
      destruct (IH _ _ x y M' E (eq_trans D Hd) (eq_trans P Hp))
        as (c' & E' & Ry & Rx & D').
      exists c'. rewrite Hd in *.
      replace (autoRotate p && negb true) with false in *
        by (destruct (autoRotate p); reflexivity).
      cbn in Ry, Rx. repeat split; auto.
Qed.

Lemma cube_boot_not_dragging cw ch iw ih dpr p now :
  isDraggingRef (boot cw ch iw ih dpr p now) = false.
Proof. reflexivity. Qed.

Lemma cube_frames_not_dragging r p nows : forall w,
  mounted r p w -> isDraggingRef w = false ->
  isDraggingRef (run (map Frame nows) w) = false.
Proof.
  induction nows as [|n nows IH]; intros w M D; [exact D|].
  cbn [map]. rewrite cube_run_cons.
  apply IH; [apply cube_step_mounted, M|].
  destruct (m_cube _ _ _ M) as (c & Hc).
  destruct (cube_frame_mounted r p n w c M Hc) as (_ & D' & _). congruence.
Qed.

(** C4: mounted with the default controls ([#00ff88], size 1.5, auto-rotate
    on, speed 1, solid), a tick of the frame loop advances the cube's
    rotation by [0.01 * speed] about both the x and the y axis and puts its
    vertical position at [sin(t) * 0.2], where [t] is [Date.now()] in
    seconds; this holds for the first tick after mounting and for every
    later one, as long as only frames happen. *)
Theorem default_config_tick cw ch iw ih dpr now0 nows now :
  let w := run (map Frame nows) (boot cw ch iw ih dpr defaultProps now0) in
  let t := IZR now * 0.001 in
  exists c c',
    cubeRef w = Some c /\
    cubeRef (step (Frame now) w) = Some c' /\
    rotation_x c' = rotation_x c + 0.01 * rotationSpeed defaultProps /\
    rotation_y c' = rotation_y c + 0.01 * rotationSpeed defaultProps /\
    position_y c' = sin t * 0.2.
Proof.
  intros w t.
  assert (M : mounted 0 defaultProps w) by apply cube_run_mounted, cube_boot_mounted.
  assert (D : isDraggingRef w = false)
    by (eapply cube_frames_not_dragging; [apply cube_boot_mounted|reflexivity]).
  destruct (m_cube _ _ _ M) as (c & Hc).
  destruct (cube_frame_mounted 0 defaultProps now w c M Hc) as (E & _).
  rewrite D in E. cbn in E.
  eexists c, _. repeat split; [exact Hc|exact E|..]; reflexivity.
Qed.

(** C10: with auto-rotation off, every frame puts the cube's vertical
    position at exactly 0, whatever happened before (drags included) and
    whether or not a drag is in progress; the sine is applied exactly when
    auto-rotation is on. *)
Theorem manual_mode_grounded cw ch iw ih dpr p now0 es now :
  let w := run es (boot cw ch iw ih dpr p now0) in
  exists c',
    cubeRef (step (Frame now) w) = Some c' /\
    position_y c' =
      if autoRotate p then sin (IZR now * 0.001) * 0.2 else 0.
Proof.
  intros w.
  assert (M : mounted 0 p w) by apply cube_reach_mounted.
  destruct (m_cube _ _ _ M) as (c & Hc).
  destruct (cube_frame_mounted 0 p now w c M Hc) as (E & _).
  eexists; split; [exact E|]. reflexivity.
Qed.

Lemma cube_resize_mounted r p cw ch iw ih w :
  mounted r p w ->
  step (Resize cw ch iw ih) w = onResize r (on_host (set_viewport cw ch iw ih) w).
Proof.
  intros M. cbn [step]. unfold dispatch, handlers_for. cbn.
  rewrite (m_listeners _ _ _ M). reflexivity.
Qed.

(** The handler on a page whose mount point is there. *)
Lemma cube_onResize_present r w :
  mount_present (host w) = true ->
  onResize r w =
  set_instances
    (update_nth r
       (fun i =>
          mkInstance (props i)
            (IZR (js_or (clientWidth (host w)) (innerWidth (host w))) /
             IZR (js_or (clientHeight (host w)) (innerHeight (host w))))
            (js_or (clientWidth (host w)) (innerWidth (host w)))
            (js_or (clientHeight (host w)) (innerHeight (host w)))
            (renderer_pixelRatio i))
       (instances w)) w.
Proof. intros Hp. unfold onResize. now rewrite Hp. Qed.

(** On a mounted cube, whatever happened before, a resize to a mount
    point of [W x H] pixels with [W, H > 0] leaves the camera's aspect at
    exactly [W / H] and the renderer at [W x H]; a second resize event, or a
    second call of the handler, with the sizes unchanged leaves the whole
    state as it is. *)
Lemma cube_resize cw ch iw ih dpr p now0 es W H iw' ih' :
  (0 < W)%Z -> (0 < H)%Z ->
  let w1 := step (Resize W H iw' ih') (run es (boot cw ch iw ih dpr p now0)) in
  (exists i, nth_error (instances w1) 0 = Some i /\
             camera_aspect i = IZR W / IZR H /\
             renderer_width i = W /\ renderer_height i = H) /\
  step (Resize W H iw' ih') w1 = w1 /\
  onResize 0 w1 = w1.
Proof.
  intros HW HH w1.
  pose proof (cube_reach_mounted cw ch iw ih dpr p now0 es) as M.
  pose proof (cube_step_mounted 0 p (Resize W H iw' ih') _ M) as M1.
  fold w1 in M1.
  assert (E1 : w1 = onResize 0 (on_host (set_viewport W H iw' ih')
                                 (run es (boot cw ch iw ih dpr p now0))))
    by apply (cube_resize_mounted 0 p), M.
  rewrite cube_onResize_present in E1 by apply M.
  cbn [on_host set_host host set_viewport clientWidth clientHeight innerWidth
       innerHeight instances] in E1.
  rewrite !(js_or_pos W), !(js_or_pos H) in E1 by assumption.
  destruct (m_instance _ _ _ M) as (i & Hi & _).
  pose proof (m_present _ _ _ M) as Hp.
  clearbody w1. subst w1.
  set (w := run es (boot cw ch iw ih dpr p now0)) in *.
  set (f := fun i => mkInstance (props i) (IZR W / IZR H) W H
                                (renderer_pixelRatio i)).
  assert (I : onResize 0 (set_instances (update_nth 0 f (instances w))
                            (set_host (set_viewport W H iw' ih' (host w)) w))
              = set_instances (update_nth 0 f (instances w))
                  (set_host (set_viewport W H iw' ih' (host w)) w)).
  { rewrite cube_onResize_present by exact Hp.
    cbn [set_instances set_host host instances set_viewport clientWidth
         clientHeight innerWidth innerHeight].
    rewrite !(js_or_pos W), !(js_or_pos H) by assumption.
    fold f. unfold set_instances.
    cbn [host sceneRef rendererRef cubeRef animationIdRef controlsRef
         isDraggingRef previousMousePositionRef instances].
    now rewrite update_nth_twice. }
  split; [|split; [|exact I]].
  - cbn [set_instances instances].
    rewrite nth_error_update_nth, Hi. cbn.
    eexists; split; [reflexivity|]. cbn. auto.
  - rewrite (cube_resize_mounted 0 p _ _ _ _ _ M1). exact I.
Qed.


(** However long the cube has been running, a frame request is pending
    when the cleanup starts; the cleanup cancels it, and from then on no
    event (frames, timers, mouse, resize) makes the page draw or log again. *)
Lemma cube_no_frame_after_cleanup cw ch iw ih dpr p now0 es es' :
  let w := run es (boot cw ch iw ih dpr p now0) in
  let w' := cleanup 0 w in
  (exists id, frames (host w) = [(id, 0%nat)] /\
              In (CancelFrame id) (teardown_trace 0 w)) /\
  frames (host w') = [] /\
  frames (host (run es' w')) = [] /\
  log (host (run es' w')) = log (host w') /\
  draw_count (log (host (run es' w'))) = draw_count (log (host w')).
Proof.
  intros w w'.
  assert (M : mounted 0 p w) by apply cube_reach_mounted.
  destruct (cube_cleanup_mounted p w M) as (id & Hf & Hlog & Hf' & Hl' & _).
  assert (Q : quiet w') by (split; assumption).
  destruct (cube_run_quiet es' w' Q) as [[Qf _] L].
  split; [exists id; split; [exact Hf|]|].
  - unfold teardown_trace. rewrite Hlog, skipn_length_app. cbn; auto.
  - repeat split; auto. now rewrite L.
Qed.

(** The cube's cleanup, step by step, on any state a mounted cube can be
    in. *)
Lemma cube_teardown_trace cw ch iw ih dpr p now0 es :
  let w := run es (boot cw ch iw ih dpr p now0) in
  exists id, frames (host w) = [(id, 0%nat)] /\
             teardown_trace 0 w = cube_teardown 0 id.
Proof.
  intros w.
  destruct (cube_cleanup_mounted p w (cube_reach_mounted _ _ _ _ _ _ _ _))
    as (id & Hf & Hlog & _).
  exists id; split; [exact Hf|].
  unfold teardown_trace. fold w. now rewrite Hlog, skipn_length_app.
Qed.

Lemma cube_unmount_live cw ch iw ih dpr nf ts lg sc cu k dr pm ins :
  unmount 0
    (mkWorld (mkHost true [Canvas 0] cw ch iw ih dpr (cube_listeners 0)
                     [(S k, 0%nat)] nf ts lg)
             sc (Some 0%nat) cu (Some (S k)) (Some 0%nat) dr pm ins) =
  mkWorld (mkHost false [Canvas 0] cw ch iw ih dpr []
                  (if negb (Nat.eqb k k) then [(S k, 0%nat)] else [])
                  nf ts
                  (((((((((((lg
                    ++ [RemoveListener Window resize (handleResize 0)])
                    ++ [CancelFrame (S k)])
                    ++ [Dispose (the_controls 0)])
                    ++ [RemoveListener (CanvasElement 0) mousedown
                                       (handleMouseDown 0)])
                    ++ [RemoveListener Document mousemove (handleMouseMove 0)])
                    ++ [RemoveListener Document mouseup (handleMouseUp 0)])
                    ++ [Dispose (the_renderer 0)])
                    ++ [Dispose (the_geometry 0)])
                    ++ [Dispose (the_material 0)])
                    ++ [Dispose (the_planeMaterial 0)])
                    ++ [Dispose (the_planeGeometry 0)]))
          sc None cu None (Some 0%nat) dr pm ins.
Proof. reflexivity. Qed.

(** The cube's cleanup at unmount, step by step, on any state a mounted
    cube can be in: with the ref cleared nothing is detached. *)
Lemma cube_unmount_trace cw ch iw ih dpr p now0 es :
  let w := run es (boot cw ch iw ih dpr p now0) in
  exists id,
    frames (host w) = [(id, 0%nat)] /\
    unmount_trace 0 w =
      [ RemoveListener Window resize (handleResize 0);
        CancelFrame id;
        Dispose (the_controls 0);
        RemoveListener (CanvasElement 0) mousedown (handleMouseDown 0);
        RemoveListener Document mousemove (handleMouseMove 0);
        RemoveListener Document mouseup (handleMouseUp 0);
        Dispose (the_renderer 0);
        Dispose (the_geometry 0);
        Dispose (the_material 0);
        Dispose (the_planeMaterial 0);
        Dispose (the_planeGeometry 0) ] /\
    children (host (unmount 0 w)) = [Canvas 0] /\
    frames (host (unmount 0 w)) = [].
Proof.
  intros w.
  destruct (cube_reach_mounted cw ch iw ih dpr p now0 es)
    as [Hp Hc Hl Hr Hk _ _ (id & Hf & Ha & Hid)].
  fold w in Hp, Hc, Hl, Hr, Hk, Hf, Ha, Hid.
  exists id. split; [exact Hf|]. unfold unmount_trace. clearbody w.
  destruct w as [h sc rr cu ai co dr pm ins].
  destruct h as [mp chn cw' ch' iw' ih' dpr' ls fs nf ts lg].
  cbn [host mount_present children listeners rendererRef controlsRef frames
       animationIdRef nextFrame] in Hp, Hc, Hl, Hr, Hk, Hf, Ha, Hid.
  subst. destruct id as [|k]; [lia|].
  rewrite cube_unmount_live.
  cbn [host log frames children]. rewrite Nat.eqb_refl.
  repeat rewrite <- app_assoc. rewrite skipn_length_app.
  repeat split; reflexivity.
Qed.

(** C1 as stated fails: the cleanup of a freshly mounted cube removes the
    resize listener (step 3) before it cancels the frame request (step 1),
    when a dependency changed as well as at unmount. *)
Lemma teardown_not_in_required_order :
  teardown_trace 0 (boot 800 600 1024 768 1 defaultProps 0) =
    cube_teardown 0 1 /\
  in_required_order (teardown_trace 0 (boot 800 600 1024 768 1 defaultProps 0))
    = false /\
  in_required_order (unmount_trace 0 (boot 800 600 1024 768 1 defaultProps 0))
    = false.
Proof. repeat split; reflexivity. Qed.

(** C3 as stated fails: with auto-rotation on, a frame that falls inside a
    drag still moves the cube (the floating motion is not suppressed). *)
Lemma floating_not_suppressed_during_drag :
  let w := run [MouseDown 0 10 10] (boot 800 600 1024 768 1 defaultProps 0) in
  let w' := step (Frame 1000) w in
  isDraggingRef w = true /\ isDraggingRef w' = true /\
  option_map position_y (cubeRef w) = Some (sin (0 * 0.001) * 0.2) /\
  option_map position_y (cubeRef w') = Some (sin (1000 * 0.001) * 0.2) /\
  option_map position_y (cubeRef w') <> option_map position_y (cubeRef w).
Proof.
  cbn. repeat split. intros E. injection E as E.
  replace (0 * 0.001) with 0 in E by lra.
  replace (1000 * 0.001) with 1 in E by lra.
  rewrite sin_0 in E.
  assert (0 < sin 1) by (apply sin_gt_0; [lra|pose proof PI2_1; lra]).
  lra.
Qed.

(** C3, amended: a press at [(x0, y0)], any moves with any frames in
    between, and the release turn the cube by [(xn - x0) * 0.01] about the
    y axis and [(yn - y0) * 0.01] about the x axis, where [(xn, yn)] is the
    last pointer position; no frame inside the drag adds to the rotation,
    and the drag flag is down again at the end.  Frames inside the drag
    still set the vertical position (to the sine when auto-rotation is on,
    to 0 when it is off). *)
Theorem drag_gesture_rotation cw ch iw ih dpr p now0 es x0 y0 ds :
  let w := run es (boot cw ch iw ih dpr p now0) in
  let w' := run (gesture 0 x0 y0 ds) w in
  let xn := fst (pointer_after x0 y0 ds) in
  let yn := snd (pointer_after x0 y0 ds) in
  (exists c c',
     cubeRef w = Some c /\ cubeRef w' = Some c' /\
     rotation_y c' = rotation_y c + (xn - x0) * 0.01 /\
     rotation_x c' = rotation_x c + (yn - y0) * 0.01 /\
     isDraggingRef w' = false) /\
  (forall now,
     let wd := run (MouseDown 0 x0 y0 :: map drag_event ds) w in
     isDraggingRef wd = true /\
     exists c c',
       cubeRef wd = Some c /\ cubeRef (step (Frame now) wd) = Some c' /\
       rotation_x c' = rotation_x c /\ rotation_y c' = rotation_y c /\
       position_y c' =
         if autoRotate p then sin (IZR now * 0.001) * 0.2 else 0).
Proof.
  intros w w' xn yn.
  assert (M : mounted 0 p w) by apply cube_reach_mounted.
  destruct (m_cube _ _ _ M) as (c & Hc).
  pose proof (cube_step_mounted 0 p (MouseDown 0 x0 y0) w M) as M1.
  pose proof (cube_down_mounted 0 p x0 y0 w M) as E1.
  destruct (dragging 0 p ds (step (MouseDown 0 x0 y0) w) c x0 y0 M1)
    as (c' & E' & Ry & Rx & D); try (rewrite E1; cbn; auto; fail).
  pose proof (cube_run_mounted 0 p (map drag_event ds) _ M1) as M2.
  split.
  - exists c, c'. unfold w', gesture.
    change (MouseDown 0 x0 y0 :: map drag_event ds ++ [MouseUp])
      with ([MouseDown 0 x0 y0] ++ map drag_event ds ++ [MouseUp]).
    rewrite !cube_run_app. cbn [run fold_left].
    rewrite (cube_up_mounted 0 p _ M2). cbn. auto.
  - intros now wd.
    assert (Ewd : wd = run (map drag_event ds) (step (MouseDown 0 x0 y0) w))
      by reflexivity.
    rewrite Ewd. split; [exact D|].
    destruct (cube_frame_mounted 0 p now _ c' M2 E') as (F & _).
    rewrite D in F.
    replace (autoRotate p && negb true) with false in F
      by (destruct (autoRotate p); reflexivity).
    exists c'. eexists. split; [exact E'|]. split; [exact F|]. cbn. auto.
Qed.
End CubeFacts.

(* ================================================================== *)
(** * Facts about the city *)
(* ================================================================== *)

Module CityFacts.
Import Js Host ImmersiveScene RandFacts HostFacts.
Local Open Scope rand_scope.

Opaque generateCity createParticleSystem createFlyingVehicle forEach.

(** Projections of a world through the setters. *)
Ltac city_world_fields :=
  cbn [host rng instances animationIdRef rendererRef controlsRef
       flyingObjectsRef particleSystemsRef
       set_instances on_host set_host set_rng set_particleSystemsRef
       set_flyingObjectsRef set_animationIdRef set_rendererRef
       set_controlsRef set_sceneRef].

Lemma city_boot_mounted cw ch iw ih dpr g p now :
  mounted 0 (boot cw ch iw ih dpr g p now).
Proof.
  destruct p as [cm tod [|]]; constructor.
  1-5, 8-12: run_code; reflexivity.
  1, 3: eexists; run_code; reflexivity.
  all: exists 1%nat; run_code; repeat split; lia.
Qed.

Lemma city_animate_mounted r now w :
  mounted r w ->
  mounted r (animate r now (on_host (fun h => set_frames [] (nextFrame h) h) w)).
Proof.
  intros [Hp Hc Hl Hr Hk (i & Hi) (id & Hf & Ha & Hid)].
  unfold animate.
  cbn [on_host set_host instances]. rewrite Hi.
  cbn [requestAnimationFrame on_host set_host host nextFrame set_frames frames].
  constructor; try assumption.
  - city_world_fields. rewrite nth_error_update_nth. city_world_fields.
    rewrite Hi, Nat.eqb_refl. eexists; reflexivity.
  - exists (nextFrame (host w)). repeat split; cbn; lia.
Qed.

Lemma city_onResize_mounted r r' w : mounted r w -> mounted r (onResize r' w).
Proof.
  intros [Hp Hc Hl Hr Hk (i & Hi) (id & Hf & Ha & Hid)].
  unfold onResize. rewrite Hp; cbn [negb].
  constructor; try assumption.
  - cbn [instances set_instances]. rewrite nth_error_update_nth, Hi.
    destruct (Nat.eqb r' r); cbn; eauto.
  - eauto.
Qed.

Lemma city_step_mounted r e w : mounted r w -> mounted r (step e w).
Proof.
  intros M. destruct e as [now|cw ch iw ih]; cbn [step].
  - destruct (m_frame _ _ M) as (id & Hf & _). rewrite Hf. cbn [fold_left snd].
    apply city_animate_mounted, M.
  - unfold handlers_for. rewrite (m_listeners _ _ M). cbn.
    apply city_onResize_mounted.
    destruct M as [Hp Hc Hl Hr Hk Hi Hf]. constructor; assumption.
Qed.

Lemma city_run_cons e es w : run (e :: es) w = run es (step e w).
Proof. reflexivity. Qed.

Lemma city_run_mounted r es : forall w, mounted r w -> mounted r (run es w).
Proof.
  induction es as [|e es IH]; intros w M; [exact M|].
  rewrite city_run_cons. apply IH, city_step_mounted, M.
Qed.

Lemma city_cleanup_live cw ch iw ih dpr nf ts lg g sc k fl ps ins :
  cleanup 0
    (mkWorld (mkHost true [Canvas 0] cw ch iw ih dpr
                     [(Window, resize, handleResize 0)]
                     [(S k, 0%nat)] nf ts lg)
             g sc (Some 0%nat) (Some (S k)) (Some 0%nat) fl ps ins) =
  mkWorld (mkHost true [] cw ch iw ih dpr []
                  (if negb (Nat.eqb k k) then [(S k, 0%nat)] else [])
                  nf ts
                  (((((lg
                    ++ [RemoveListener Window resize (handleResize 0)])
                    ++ [CancelFrame (S k)])
                    ++ [Dispose (the_controls 0)])
                    ++ [RemoveChild (Canvas 0)])
                    ++ [Dispose (the_renderer 0)]))
          g sc None (Some (S k)) (Some 0%nat) fl ps ins.
Proof. reflexivity. Qed.

Lemma city_teardown_trace cw ch iw ih dpr g p now0 es :
  let w := run es (boot cw ch iw ih dpr g p now0) in
  exists id, frames (host w) = [(id, 0%nat)] /\
             teardown_trace 0 w = city_teardown 0 id /\
             frames (host (cleanup 0 w)) = [].
Proof.
  intros w.
  destruct (city_run_mounted 0 es _ (city_boot_mounted cw ch iw ih dpr g p now0))
    as [Hp Hc Hl Hr Hk _ (id & Hf & Ha & Hid)].
  fold w in Hp, Hc, Hl, Hr, Hk, Hf, Ha, Hid.
  exists id. split; [exact Hf|]. unfold teardown_trace.
  clearbody w.
  destruct w as [h g' sc rr ai co fl ps ins].
  destruct h as [mp chn cw' ch' iw' ih' dpr' ls fs nf ts lg].
  cbn [host mount_present children listeners rendererRef controlsRef frames
       animationIdRef nextFrame] in Hp, Hc, Hl, Hr, Hk, Hf, Ha, Hid.
  subst. destruct id as [|k]; [lia|].
  rewrite city_cleanup_live.
  cbn [host log frames]. rewrite Nat.eqb_refl.
  repeat rewrite <- app_assoc. rewrite skipn_length_app.
  split; reflexivity.
Qed.

Lemma city_unmount_live cw ch iw ih dpr nf ts lg g sc k fl ps ins :
  unmount 0
    (mkWorld (mkHost true [Canvas 0] cw ch iw ih dpr
                     [(Window, resize, handleResize 0)]
                     [(S k, 0%nat)] nf ts lg)
             g sc (Some 0%nat) (Some (S k)) (Some 0%nat) fl ps ins) =
  mkWorld (mkHost false [Canvas 0] cw ch iw ih dpr []
                  (if negb (Nat.eqb k k) then [(S k, 0%nat)] else [])
                  nf ts
                  ((((lg
                    ++ [RemoveListener Window resize (handleResize 0)])
                    ++ [CancelFrame (S k)])
                    ++ [Dispose (the_controls 0)])
                    ++ [Dispose (the_renderer 0)]))
          g sc None (Some (S k)) (Some 0%nat) fl ps ins.
Proof. reflexivity. Qed.

(** The city's cleanup at unmount: with the ref cleared nothing is
    detached. *)
Lemma city_unmount_trace cw ch iw ih dpr g p now0 es :
  let w := run es (boot cw ch iw ih dpr g p now0) in
  exists id,
    frames (host w) = [(id, 0%nat)] /\
    unmount_trace 0 w =
      [ RemoveListener Window resize (handleResize 0);
        CancelFrame id;
        Dispose (the_controls 0);
        Dispose (the_renderer 0) ] /\
    children (host (unmount 0 w)) = [Canvas 0] /\
    frames (host (unmount 0 w)) = [].
Proof.
  intros w.
  destruct (city_run_mounted 0 es _ (city_boot_mounted cw ch iw ih dpr g p now0))
    as [Hp Hc Hl Hr Hk _ (id & Hf & Ha & Hid)].
  fold w in Hp, Hc, Hl, Hr, Hk, Hf, Ha, Hid.
  exists id. split; [exact Hf|]. unfold unmount_trace.
  clearbody w.
  destruct w as [h g' sc rr ai co fl ps ins].
  destruct h as [mp chn cw' ch' iw' ih' dpr' ls fs nf ts lg].
  cbn [host mount_present children listeners rendererRef controlsRef frames
       animationIdRef nextFrame] in Hp, Hc, Hl, Hr, Hk, Hf, Ha, Hid.
  subst. destruct id as [|k]; [lia|].
  rewrite city_unmount_live.
  cbn [host log frames children]. rewrite Nat.eqb_refl.
  repeat rewrite <- app_assoc. rewrite skipn_length_app.
  repeat split; reflexivity.
Qed.

Transparent generateCity createParticleSystem createFlyingVehicle forEach.


Ltac count_draws :=
  repeat first
    [ apply uses_random
    | apply uses_ret
    | eapply uses_bind; [|intros ?] ].

Lemma createBuilding_draws width height depth x z :
  uses_draws 1 (createBuilding width height depth x z).
Proof.
  unfold createBuilding. eapply uses_eq; [count_draws|reflexivity].
Qed.

Lemma uses_for_to {A} (k : Z -> nat) (body : Z -> Rand (list A)) stop step :
  (forall i, uses_draws (k i) (body i)) ->
  forall fuel i,
    uses_draws (for_to_draws fuel i stop step k) (for_to fuel i stop step body).
Proof.
  intros Hb. induction fuel as [|fuel IH]; intros i; cbn [for_to for_to_draws].
  - apply uses_ret.
  - destruct (i <=? stop)%Z; [|apply uses_ret].
    apply uses_bind; [apply Hb|]. intros added.
    eapply uses_eq; [apply uses_bind; [apply IH|intros; apply uses_ret]|lia].
Qed.

(** The grid loops call [Math.random()] 4 times per building: 192 times in
    all. *)
Lemma generateCity_draws : uses_draws 192 generateCity.
Proof.
  unfold generateCity.
  eapply uses_eq.
  - apply (uses_for_to
             (fun x => for_to_draws 8 (-60) 60 20
                         (fun z => if (Z.abs x <? 10)%Z && (Z.abs z <? 10)%Z
                                   then 0 else 4)%nat)).
    intros x. apply uses_for_to. intros z.
    destruct ((Z.abs x <? 10)%Z && (Z.abs z <? 10)%Z); [apply uses_ret|].
    eapply uses_eq.
    + do 3 (eapply uses_bind; [apply uses_random|intros ?]).
      eapply uses_bind; [apply createBuilding_draws|intros; apply uses_ret].
    + reflexivity.
  - vm_compute. reflexivity.
Qed.




Lemma out_of_range_spec q : out_of_range q = true <-> respawns q.
Proof.
  unfold out_of_range, respawns, Rgtb.
  rewrite !orb_true_iff, !Rltb_spec. tauto.
Qed.

Lemma out_of_range_false q : out_of_range q = false <-> ~ respawns q.
Proof.
  rewrite <- out_of_range_spec. destruct (out_of_range q); split; intros;
    try discriminate; try reflexivity; exfalso; auto.
Qed.

(** One round of the particle loop moves the particle or puts it back
    between heights 50 and 100. *)
Lemma updateParticle_ticked p v g :
  unit_draws g ->
  ticked p v (fst (updateParticle p v g)) /\
  draws (snd (updateParticle p v g)) = draws g.
Proof.
  intros U. unfold updateParticle, ticked.
  destruct (out_of_range (vec_add p v)) eqn:O.
  - apply out_of_range_spec in O. split; [right|reflexivity].
    split; [exact O|]. cbn.
    pose proof (U (cursor g)). pose proof (U (S (cursor g))).
    pose proof (U (S (S (cursor g)))). lra.
  - apply out_of_range_false in O. split; [left|reflexivity]. auto.
Qed.

Lemma updateParticles_cons p v pos vel g :
  updateParticles (p :: pos) (v :: vel) g =
  let (p', g') := updateParticle p v g in
  let (rest, g'') := updateParticles pos vel g' in
  (p' :: rest, g'').
Proof.
  cbn [updateParticles]. unfold bind at 1. destruct (updateParticle p v g).
  unfold bind at 1. destruct (updateParticles pos vel r); reflexivity.
Qed.




Lemma createParticleSystem_eq type g :
  fst (createParticleSystem type g) =
  let seeded := fst (repeat_from 0 (particle_count type)
                                 (fun _ => seedParticle type) g) in
  mkPoints type (map fst seeded) (map snd seeded)
           (repeat (particle_color type) (particle_count type)).
Proof.
  unfold createParticleSystem, bind.
  destruct (repeat_from 0 (particle_count type) _ g); reflexivity.
Qed.

Lemma updateSystem_eq s g :
  fst (updateSystem s g) =
  mkPoints (ptype s) (fst (updateParticles (positions s) (velocities s) g))
           (velocities s) (colors s).
Proof.
  unfold updateSystem, bind.
  destruct (updateParticles (positions s) (velocities s) g); reflexivity.
Qed.





End CityFacts.

(* ================================================================== *)
(** * Facts about the galaxy *)
(* ================================================================== *)

Module GalaxyFacts.
Import Js Host GalacticSolarSystem RandFacts HostFacts.
Local Open Scope rand_scope.

Ltac galaxy_world_fields :=
  cbn [host rng instances animationIdRef rendererRef controlsRef
       particleSystemRef timeRef sceneRef
       set_instances on_host set_host set_rng set_particleSystemRef
       set_timeRef set_animationIdRef set_rendererRef
       set_controlsRef set_sceneRef].

Opaque buildGalaxy makePlanets.

Lemma galaxy_boot_mounted cw ch iw ih dpr g ic oc :
  mounted 0 (fst (buildGalaxy ic oc particleCount g))
          (boot cw ch iw ih dpr g ic oc).
Proof.
  constructor.
  1-5: run_code; reflexivity.
  1, 2: eexists; run_code; reflexivity.
  exists 1%nat; run_code; repeat split; lia.
Qed.

Lemma galaxy_animate_mounted r b w :
  mounted r b w ->
  mounted r b (animate r (on_host (fun h => set_frames [] (nextFrame h) h) w)).
Proof.
  intros [Hp Hc Hl Hr Hk (i & Hi) (rot & Hs) (id & Hf & Ha & Hid)].
  unfold animate. galaxy_world_fields. rewrite Hi, Hs.
  cbn [requestAnimationFrame]. galaxy_world_fields.
  constructor; galaxy_world_fields; try assumption.
  - rewrite nth_error_update_nth, Hi, Nat.eqb_refl. eexists; reflexivity.
  - eexists; reflexivity.
  - exists (nextFrame (host w)). repeat split; cbn; lia.
Qed.

Lemma galaxy_onResize_mounted r r' b w : mounted r b w -> mounted r b (onResize r' w).
Proof.
  intros [Hp Hc Hl Hr Hk (i & Hi) Hs (id & Hf & Ha & Hid)].
  unfold onResize. rewrite Hp; cbn [negb].
  constructor; galaxy_world_fields; try assumption.
  - rewrite nth_error_update_nth, Hi.
    destruct (Nat.eqb r' r); cbn; eauto.
  - eauto.
Qed.

Lemma galaxy_step_mounted r b e w : mounted r b w -> mounted r b (step e w).
Proof.
  intros M. destruct e as [|cw ch iw ih|]; cbn [step].
  - destruct (m_frame _ _ _ M) as (id & Hf & _). rewrite Hf. cbn [fold_left snd].
    apply galaxy_animate_mounted, M.
  - unfold handlers_for. rewrite (m_listeners _ _ _ M). cbn.
    apply galaxy_onResize_mounted.
    destruct M as [Hp Hc Hl Hr Hk Hi Hs Hf]. constructor; assumption.
  - destruct (timers (host w)) as [|t rest] eqn:Ht; [exact M|].
    apply galaxy_onResize_mounted.
    destruct M as [Hp Hc Hl Hr Hk Hi Hs Hf]. constructor; assumption.
Qed.

Lemma galaxy_run_cons e es w : run (e :: es) w = run es (step e w).
Proof. reflexivity. Qed.

Lemma galaxy_run_mounted r b es : forall w, mounted r b w -> mounted r b (run es w).
Proof.
  induction es as [|e es IH]; intros w M; [exact M|].
  rewrite galaxy_run_cons. apply IH, galaxy_step_mounted, M.
Qed.

Transparent buildGalaxy makePlanets.

Lemma galaxy_reach_mounted cw ch iw ih dpr g ic oc es :
  mounted 0 (fst (buildGalaxy ic oc particleCount g))
          (run es (boot cw ch iw ih dpr g ic oc)).
Proof. apply galaxy_run_mounted, galaxy_boot_mounted. Qed.




Lemma buildGalaxy_eq ic oc count g :
  fst (buildGalaxy ic oc count g) =
  let ps := fst (repeat_from 0 count (galaxyParticle ic oc) g) in
  mkAttributes (map (fun q => fst (fst (fst q))) ps)
               (map (fun q => snd (fst (fst q))) ps)
               (map (fun q => snd (fst q)) ps)
               (map snd ps).
Proof.
  unfold buildGalaxy, bind.
  destruct (repeat_from 0 count (galaxyParticle ic oc) g); reflexivity.
Qed.

(** Every attribute gets one entry per particle. *)
Lemma buildGalaxy_lengths ic oc count g :
  let a := fst (buildGalaxy ic oc count g) in
  length (position a) = count /\ length (color a) = count /\
  length (aScale a) = count /\ length (aRandom a) = count.
Proof.
  rewrite buildGalaxy_eq. cbn [position color aScale aRandom].
  rewrite !length_map, length_repeat_from. auto.
Qed.

(** What a frame does to a mounted galaxy. *)
Lemma galaxy_frame_mounted b w :
  mounted 0 b w ->
  particleSystemRef (step Frame w) =
    Some (mkPoints b ((timeRef w + 0.01) * 0.02)) /\
  timeRef (step Frame w) = timeRef w + 0.01 /\
  (exists i, nth_error (instances (step Frame w)) 0 = Some i /\
             uTime i = timeRef w + 0.01) /\
  rng (step Frame w) = rng w /\
  forall a, step Frame (with_geometry a w) = with_geometry a (step Frame w).
Proof.
  intros [Hp Hc Hl Hr Hk (i & Hi) (rot & Hs) (id & Hf & Ha & Hid)].
  destruct w as [h g sc rr ai co ps tr ins].
  destruct h as [mp chn cw ch iw ih dpr ls fs nf ts lg].
  cbn [host mount_present children listeners rendererRef controlsRef frames
       animationIdRef nextFrame particleSystemRef instances]
    in Hp, Hc, Hl, Hr, Hk, Hf, Ha, Hid, Hs, Hi.
  subst. destruct ins as [|i0 rest]; [discriminate|].
  repeat split; try reflexivity.
  eexists; split; reflexivity.
Qed.

(** C9: the build loop writes the four attributes of the galaxy once, one
    entry per particle.  Whatever happens afterwards (frames, resizes,
    timers), the particle system still holds exactly those attributes; a
    frame moves only the clock, the [uTime] uniform and the rotation of the
    whole system, and it is blind to the attributes: it does the same to a
    world whose attributes were replaced by any others, and takes no
    draw. *)
Theorem galaxy_attributes_written_once cw ch iw ih dpr g ic oc es :
  let built := fst (buildGalaxy ic oc particleCount g) in
  let w := run es (boot cw ch iw ih dpr g ic oc) in
  let w' := step Frame w in
  (length (position built) = particleCount /\
   length (color built) = particleCount /\
   length (aScale built) = particleCount /\
   length (aRandom built) = particleCount) /\
  (exists rot, particleSystemRef w = Some (mkPoints built rot)) /\
  particleSystemRef w' = Some (mkPoints built ((timeRef w + 0.01) * 0.02)) /\
  timeRef w' = timeRef w + 0.01 /\
  (exists i, nth_error (instances w') 0 = Some i /\
             uTime i = timeRef w + 0.01) /\
  rng w' = rng w /\
  (forall a, step Frame (with_geometry a w) = with_geometry a w').
Proof.
  intros built w w'.
  pose proof (galaxy_reach_mounted cw ch iw ih dpr g ic oc es) as M.
  fold built w in M.
  split; [apply buildGalaxy_lengths|].
  split; [apply (m_particles _ _ _ M)|].
  apply galaxy_frame_mounted, M.
Qed.


Lemma galaxy_cleanup_live cw ch iw ih dpr nf ts lg g sc k ps tr i rest :
  host (cleanup 0
    (mkWorld (mkHost true [Canvas 0] cw ch iw ih dpr
                     [(Window, resize, handleResize 0)]
                     [(S k, 0%nat)] nf ts lg)
             g sc (Some 0%nat) (Some (S k)) (Some 0%nat) ps tr (i :: rest))) =
  fold_left (fun acc e => emit e acc) (disposePlanets 0 (planets i))
    (mkHost true [] cw ch iw ih dpr []
            (if negb (Nat.eqb k k) then [(S k, 0%nat)] else [])
            nf ts
            (((((((lg
              ++ [RemoveListener Window resize (handleResize 0)])
              ++ [CancelFrame (S k)])
              ++ [Dispose (the_controls 0)])
              ++ [RemoveChild (Canvas 0)])
              ++ [Dispose (the_renderer 0)])
              ++ [Dispose (the_geometry 0)])
              ++ [Dispose (the_particleMaterial 0)])).
Proof. reflexivity. Qed.

Lemma galaxy_cleanup_mounted b w :
  mounted 0 b w ->
  (exists id, frames (host w) = [(id, 0%nat)] /\
              animationIdRef w = Some id) /\
  quiet (cleanup 0 w).
Proof.
  intros [Hp Hc Hl Hr Hk (i & Hi) _ (id & Hf & Ha & Hid)].
  split; [eauto|]. unfold quiet.
  destruct w as [h g sc rr ai co ps tr ins].
  destruct h as [mp chn cw ch iw ih dpr ls fs nf ts lg].
  cbn [host mount_present children listeners rendererRef controlsRef frames
       animationIdRef nextFrame instances] in Hp, Hc, Hl, Hr, Hk, Hf, Ha, Hid, Hi.
  subst. destruct ins as [|i0 rest]; [discriminate|].
  destruct id as [|k]; [lia|].
  rewrite galaxy_cleanup_live.
  destruct (emit_all_keeps (disposePlanets 0 (planets i0))
              (mkHost true [] cw ch iw ih dpr []
                 (if negb (Nat.eqb k k) then [(S k, 0%nat)] else []) nf ts
                 (((((((lg
                   ++ [RemoveListener Window resize (handleResize 0)])
                   ++ [CancelFrame (S k)])
                   ++ [Dispose (the_controls 0)])
                   ++ [RemoveChild (Canvas 0)])
                   ++ [Dispose (the_renderer 0)])
                   ++ [Dispose (the_geometry 0)])
                   ++ [Dispose (the_particleMaterial 0)]))) as [F L].
  rewrite F, L. cbn [frames listeners]. rewrite Nat.eqb_refl. auto.
Qed.

Lemma galaxy_step_quiet e w :
  quiet w -> quiet (step e w) /\ log (host (step e w)) = log (host w).
Proof.
  intros [Hf Hl].
  destruct e as [|cw ch iw ih|]; cbn [step]; unfold handlers_for, quiet.
  - rewrite Hf. cbn. auto.
  - rewrite Hl. cbn. auto.
  - destruct (timers (host w)) as [|t rest]; [auto|].
    unfold onResize. galaxy_world_fields. cbn [mount_present set_timers].
    destruct (mount_present (host w)); cbn; auto.
Qed.

Lemma galaxy_run_quiet es : forall w,
  quiet w -> quiet (run es w) /\ log (host (run es w)) = log (host w).
Proof.
  induction es as [|e es IH]; intros w Q; [auto|].
  rewrite galaxy_run_cons.
  destruct (galaxy_step_quiet e w Q) as [Q' L'].
  destruct (IH _ Q') as [Q'' L'']. split; [exact Q''|congruence].
Qed.

(** The galaxy's cleanup cancels the one pending frame request; nothing
    draws afterwards. *)
Lemma galaxy_no_frame_after_cleanup cw ch iw ih dpr g ic oc es es' :
  let w := run es (boot cw ch iw ih dpr g ic oc) in
  let w' := cleanup 0 w in
  (exists id, frames (host w) = [(id, 0%nat)] /\
              animationIdRef w = Some id) /\
  frames (host w') = [] /\
  frames (host (run es' w')) = [] /\
  draw_count (log (host (run es' w'))) = draw_count (log (host w')).
Proof.
  intros w w'.
  destruct (galaxy_cleanup_mounted _ w (galaxy_reach_mounted cw ch iw ih dpr g ic oc es))
    as [P Q].
  destruct (galaxy_run_quiet es' w' Q) as [[Qf _] L].
  repeat split; auto; [apply Q|now rewrite L].
Qed.

(** The galaxy's resize handler: aspect [W / H], renderer [W x H], and a
    second call changes nothing. *)
Lemma galaxy_resize cw ch iw ih dpr g ic oc es W H iw' ih' :
  (0 < W)%Z -> (0 < H)%Z ->
  let w1 := step (Resize W H iw' ih') (run es (boot cw ch iw ih dpr g ic oc)) in
  (exists i, nth_error (instances w1) 0 = Some i /\
             camera_aspect i = IZR W / IZR H /\
             renderer_width i = W /\ renderer_height i = H) /\
  step (Resize W H iw' ih') w1 = w1 /\
  onResize 0 w1 = w1.
Proof.
  intros HW HH w1.
  pose proof (galaxy_reach_mounted cw ch iw ih dpr g ic oc es) as M.
  pose proof (galaxy_step_mounted 0 _ (Resize W H iw' ih') _ M) as M1.
  fold w1 in M1.
  set (w := run es (boot cw ch iw ih dpr g ic oc)) in *.
  assert (S1 : forall v, mounted 0 (fst (buildGalaxy ic oc particleCount g)) v ->
             step (Resize W H iw' ih') v =
             onResize 0 (on_host (set_viewport W H iw' ih') v)).
  { intros v Mv. cbn [step]. unfold handlers_for.
    rewrite (m_listeners _ _ _ Mv). reflexivity. }
  set (f := fun i => mkInstance (IZR W / IZR H) W H (renderer_pixelRatio i)
                                (uTime i) (25 * renderer_pixelRatio i)
                                (sun_rotation_y i) (planets i)).
  assert (R1 : forall v, mount_present (host v) = true ->
             onResize 0 (on_host (set_viewport W H iw' ih') v) =
             set_instances (update_nth 0 f (instances v))
                           (on_host (set_viewport W H iw' ih') v)).
  { intros v Pv. unfold onResize. galaxy_world_fields.
    cbn [mount_present set_viewport clientWidth clientHeight innerWidth
         innerHeight]. rewrite Pv. cbn [negb].
    rewrite !(js_or_pos W), !(js_or_pos H) by assumption. reflexivity. }
  assert (E1 : w1 = set_instances (update_nth 0 f (instances w))
                      (on_host (set_viewport W H iw' ih') w)).
  { unfold w1. rewrite (S1 w M). apply R1, M. }
  destruct (m_instance _ _ _ M) as (i & Hi).
  clearbody w1. subst w1.
  assert (I : onResize 0 (set_instances (update_nth 0 f (instances w))
                            (on_host (set_viewport W H iw' ih') w))
              = set_instances (update_nth 0 f (instances w))
                  (on_host (set_viewport W H iw' ih') w)).
  { unfold onResize. galaxy_world_fields.
    cbn [mount_present set_viewport clientWidth clientHeight innerWidth
         innerHeight]. rewrite (m_present _ _ _ M). cbn [negb].
    rewrite !(js_or_pos W), !(js_or_pos H) by assumption. fold f.
    unfold set_instances. galaxy_world_fields.
    now rewrite update_nth_twice. }
  split; [|split; [|exact I]].
  - galaxy_world_fields. rewrite nth_error_update_nth, Hi. cbn.
    eexists; split; [reflexivity|]. cbn. auto.
  - rewrite (S1 _ M1). exact I.
Qed.

End GalaxyFacts.

(* ================================================================== *)
(** * The lifecycle across the demos *)
(* ================================================================== *)

Module SceneLifecycle.
Import Js Host RandFacts HostFacts.

(** C1, amended: on every state a mounted cube or a mounted city can be in,
    the cleanup performs exactly these effects in this order: it removes
    the resize listener, cancels the pending frame request, disposes the
    controls, (cube only) removes the three mouse listeners, detaches the
    canvas from the mount point if [mountRef] is still set, disposes the
    renderer and (cube only) disposes the geometry and material of the
    cube and of the plane.  [mountRef] is still set when the cleanup runs
    because a dependency of the effect changed; at unmount React has
    cleared it before the cleanup runs, the detaching step is skipped and
    the canvas stays a child of the mount [div], all other effects being
    the same in the same order.  In both cases the frame request is
    cancelled before anything is detached or disposed. *)
Theorem teardown_order cw ch iw ih dpr p now es g p' now' es' :
  let cube := RotatingCube.run es (RotatingCube.boot cw ch iw ih dpr p now) in
  let city :=
    ImmersiveScene.run es' (ImmersiveScene.boot cw ch iw ih dpr g p' now') in
  (exists id,
     frames (RotatingCube.host cube) = [(id, 0%nat)] /\
     RotatingCube.teardown_trace 0 cube =
       [ RemoveListener Window resize (handleResize 0);
         CancelFrame id;
         Dispose (the_controls 0);
         RemoveListener (CanvasElement 0) mousedown (handleMouseDown 0);
         RemoveListener Document mousemove (handleMouseMove 0);
         RemoveListener Document mouseup (handleMouseUp 0);
         RemoveChild (Canvas 0);
         Dispose (the_renderer 0);
         Dispose (the_geometry 0);
         Dispose (the_material 0);
         Dispose (the_planeMaterial 0);
         Dispose (the_planeGeometry 0) ] /\
     RotatingCube.unmount_trace 0 cube =
       [ RemoveListener Window resize (handleResize 0);
         CancelFrame id;
         Dispose (the_controls 0);
         RemoveListener (CanvasElement 0) mousedown (handleMouseDown 0);
         RemoveListener Document mousemove (handleMouseMove 0);
         RemoveListener Document mouseup (handleMouseUp 0);
         Dispose (the_renderer 0);
         Dispose (the_geometry 0);
         Dispose (the_material 0);
         Dispose (the_planeMaterial 0);
         Dispose (the_planeGeometry 0) ] /\
     children (RotatingCube.host (RotatingCube.cleanup 0 cube)) = [] /\
     children (RotatingCube.host (RotatingCube.unmount 0 cube)) = [Canvas 0]) /\
  (exists id,
     frames (ImmersiveScene.host city) = [(id, 0%nat)] /\
     ImmersiveScene.teardown_trace 0 city =
       [ RemoveListener Window resize (handleResize 0);
         CancelFrame id;
         Dispose (the_controls 0);
         RemoveChild (Canvas 0);
         Dispose (the_renderer 0) ] /\
     ImmersiveScene.unmount_trace 0 city =
       [ RemoveListener Window resize (handleResize 0);
         CancelFrame id;
         Dispose (the_controls 0);
         Dispose (the_renderer 0) ] /\
     children (ImmersiveScene.host (ImmersiveScene.unmount 0 city))
       = [Canvas 0]).
Proof.
  intros cube city. split.
  - destruct (CubeFacts.cube_teardown_trace cw ch iw ih dpr p now es)
      as (id & F & T).
    destruct (CubeFacts.cube_unmount_trace cw ch iw ih dpr p now es)
      as (id' & F' & U & C & _).
    fold cube in F, T, F', U, C. rewrite F in F'. injection F' as <-.
    destruct (CubeFacts.cube_cleanup_mounted p cube
                (CubeFacts.cube_reach_mounted cw ch iw ih dpr p now es))
      as (_ & _ & _ & _ & _ & K & _).
    exists id. repeat split; assumption.
  - destruct (CityFacts.city_teardown_trace cw ch iw ih dpr g p' now' es')
      as (id & F & T & _).
    destruct (CityFacts.city_unmount_trace cw ch iw ih dpr g p' now' es')
      as (id' & F' & U & C & _).
    fold city in F, T, F', U, C. rewrite F in F'. injection F' as <-.
    exists id. repeat split; assumption.
Qed.



(** C5: on a mounted cube and on a mounted galaxy, whatever happened
    before, a resize to a mount point of [W x H] pixels with [W, H > 0]
    leaves the camera's aspect at exactly [W / H] and the renderer at
    [W x H]; a second resize event, or a second call of the handler, with
    the sizes unchanged leaves the whole state as it is. *)
Theorem resize_sets_aspect_idempotent
    cw ch iw ih dpr p now es g ic oc es' W H iw' ih' :
  (0 < W)%Z -> (0 < H)%Z ->
  let cube :=
    RotatingCube.step (RotatingCube.Resize W H iw' ih')
      (RotatingCube.run es (RotatingCube.boot cw ch iw ih dpr p now)) in
  let galaxy :=
    GalacticSolarSystem.step (GalacticSolarSystem.Resize W H iw' ih')
      (GalacticSolarSystem.run es'
         (GalacticSolarSystem.boot cw ch iw ih dpr g ic oc)) in
  ((exists i, nth_error (RotatingCube.instances cube) 0 = Some i /\
              RotatingCube.camera_aspect i = IZR W / IZR H /\
              RotatingCube.renderer_width i = W /\
              RotatingCube.renderer_height i = H) /\
   RotatingCube.step (RotatingCube.Resize W H iw' ih') cube = cube /\
   RotatingCube.onResize 0 cube = cube) /\
  ((exists i, nth_error (GalacticSolarSystem.instances galaxy) 0 = Some i /\
              GalacticSolarSystem.camera_aspect i = IZR W / IZR H /\
              GalacticSolarSystem.renderer_width i = W /\
              GalacticSolarSystem.renderer_height i = H) /\
   GalacticSolarSystem.step (GalacticSolarSystem.Resize W H iw' ih') galaxy
     = galaxy /\
   GalacticSolarSystem.onResize 0 galaxy = galaxy).
Proof.
  intros HW HH cube galaxy. split.
  - exact (CubeFacts.cube_resize cw ch iw ih dpr p now es W H iw' ih' HW HH).
  - exact (GalaxyFacts.galaxy_resize cw ch iw ih dpr g ic oc es' W H iw' ih'
                                     HW HH).
Qed.

Lemma resize_sets_aspect_idempotent_witness :
  let cube :=
    RotatingCube.step (RotatingCube.Resize 400 300 1024 768)
      (RotatingCube.run [RotatingCube.Frame 16; RotatingCube.MouseDown 0 5 5]
         (RotatingCube.boot 800 600 1024 768 1 RotatingCube.defaultProps 0)) in
  let galaxy :=
    GalacticSolarSystem.step (GalacticSolarSystem.Resize 400 300 1024 768)
      (GalacticSolarSystem.run [GalacticSolarSystem.Frame]
         (GalacticSolarSystem.boot 800 600 1024 768 1
            (mkRng (fun _ => 0.5) 0) (vec3 1 0.4 0.2) (vec3 0.1 0.2 0.5))) in
  ((exists i, nth_error (RotatingCube.instances cube) 0 = Some i /\
              RotatingCube.camera_aspect i = 400 / 300 /\
              RotatingCube.renderer_width i = 400%Z /\
              RotatingCube.renderer_height i = 300%Z) /\
   RotatingCube.step (RotatingCube.Resize 400 300 1024 768) cube = cube /\
   RotatingCube.onResize 0 cube = cube) /\
  ((exists i, nth_error (GalacticSolarSystem.instances galaxy) 0 = Some i /\
              GalacticSolarSystem.camera_aspect i = 400 / 300 /\
              GalacticSolarSystem.renderer_width i = 400%Z /\
              GalacticSolarSystem.renderer_height i = 300%Z) /\
   GalacticSolarSystem.step (GalacticSolarSystem.Resize 400 300 1024 768)
     galaxy = galaxy /\
   GalacticSolarSystem.onResize 0 galaxy = galaxy).
Proof.
  apply (resize_sets_aspect_idempotent 800 600 1024 768 1
           RotatingCube.defaultProps 0
           [RotatingCube.Frame 16; RotatingCube.MouseDown 0 5 5]
           (mkRng (fun _ => 0.5) 0) (vec3 1 0.4 0.2) (vec3 0.1 0.2 0.5)
           [GalacticSolarSystem.Frame] 400 300 1024 768); lia.
Defined.

(** C7: however long the cube or the galaxy has been running, exactly one
    frame request is pending when the cleanup starts, the one whose id is in
    [animationIdRef]; the cleanup cancels it, and from then on no event
    (frames, timers, mouse, resize) makes the page draw again: the number
    of draw calls stays what it was when the cleanup returned. *)
Theorem no_frame_after_cleanup cw ch iw ih dpr p now es es1 g ic oc es' es1' :
  let cube := RotatingCube.run es (RotatingCube.boot cw ch iw ih dpr p now) in
  let cube' := RotatingCube.cleanup 0 cube in
  let galaxy :=
    GalacticSolarSystem.run es'
      (GalacticSolarSystem.boot cw ch iw ih dpr g ic oc) in
  let galaxy' := GalacticSolarSystem.cleanup 0 galaxy in
  ((exists id, frames (RotatingCube.host cube) = [(id, 0%nat)] /\
               In (CancelFrame id) (RotatingCube.teardown_trace 0 cube)) /\
   frames (RotatingCube.host cube') = [] /\
   frames (RotatingCube.host (RotatingCube.run es1 cube')) = [] /\
   draw_count (log (RotatingCube.host (RotatingCube.run es1 cube'))) =
     draw_count (log (RotatingCube.host cube'))) /\
  ((exists id, frames (GalacticSolarSystem.host galaxy) = [(id, 0%nat)] /\
               GalacticSolarSystem.animationIdRef galaxy = Some id) /\
   frames (GalacticSolarSystem.host galaxy') = [] /\
   frames (GalacticSolarSystem.host (GalacticSolarSystem.run es1' galaxy'))
     = [] /\
   draw_count
     (log (GalacticSolarSystem.host (GalacticSolarSystem.run es1' galaxy'))) =
     draw_count (log (GalacticSolarSystem.host galaxy'))).
Proof.
  intros cube cube' galaxy galaxy'. split.
  - destruct (CubeFacts.cube_no_frame_after_cleanup
                cw ch iw ih dpr p now es es1) as (P & F & F' & _ & D).
    repeat split; assumption.
  - exact (GalaxyFacts.galaxy_no_frame_after_cleanup
             cw ch iw ih dpr g ic oc es' es1').
Qed.

End SceneLifecycle.

(* ================================================================== *)
(** * More about the cube *)
(* ================================================================== *)

Module CubeMore.
Import Host RotatingCube RandFacts HostFacts CubeFacts CubeEvents.

Lemma draw_count_app l l' :
  draw_count (l ++ l') = (draw_count l + draw_count l')%nat.
Proof. unfold draw_count. now rewrite filter_app, length_app. Qed.

(** What one event adds to the log of a mounted cube. *)
Lemma cube_step_log r p e w :
  mounted r p w ->
  log (host (step e w)) =
  log (host w) ++
  match e with
  | Frame _ => [RequestFrame (nextFrame (host w)) r; Draw r]
  | _ => []
  end.
Proof.
  intros M. destruct e as [now|r' x y|x y| |cw ch iw ih| ].
  - destruct M as [Hp Hc Hl Hr Hk (i & Hi & Hpi) (c & Hcube) (id & Hf & Ha & Hid)].
    cbn [step]. rewrite Hf. cbn [fold_left snd].
    unfold animate. cbn. rewrite Hi, Hcube. cbn.
    now rewrite <- app_assoc.
  - cbn [step]. unfold dispatch, handlers_for.
    rewrite (m_listeners _ _ _ M). cbn.
    destruct (Nat.eqb r' r); cbn; now rewrite app_nil_r.
  - rewrite (cube_move_mounted r p _ _ _ M). unfold onMouseMove.
    destruct (isDraggingRef w), (cubeRef w); cbn; now rewrite app_nil_r.
  - rewrite (cube_up_mounted r p _ M). cbn. now rewrite app_nil_r.
  - rewrite (cube_resize_mounted r p _ _ _ _ _ M). unfold onResize. cbn.
    destruct (mount_present (host w)); cbn; now rewrite app_nil_r.
  - cbn [step]. destruct (timers (host w)) as [|t rest];
      [now rewrite app_nil_r|].
    unfold onResize. cbn.
    destruct (mount_present (host w)); cbn; now rewrite app_nil_r.
Qed.

Lemma cube_frame_frames r p now w :
  mounted r p w ->
  frames (host (step (Frame now) w)) = [(nextFrame (host w), r)].
Proof.
  intros [Hp Hc Hl Hr Hk (i & Hi & Hpi) (c & Hcube) (id & Hf & Ha & Hid)].
  cbn [step]. rewrite Hf. cbn [fold_left snd].
  unfold animate. cbn. rewrite Hi, Hcube. reflexivity.
Qed.

(** Every frame event makes a mounted cube draw exactly once and leaves
    exactly one request pending (a new one); no other event draws or
    schedules.  So the number of draw calls is the number of frames so far,
    plus the one from the call of [animate] at mount. *)
Theorem one_draw_per_frame cw ch iw ih dpr p now0 es :
  let w := run es (boot cw ch iw ih dpr p now0) in
  draw_count (log (host w)) = S (frame_count es) /\
  length (frames (host w)) = 1%nat /\
  forall now,
    draw_count (log (host (step (Frame now) w))) = S (draw_count (log (host w))) /\
    frames (host (step (Frame now) w)) = [(nextFrame (host w), 0%nat)].
Proof.
  intros w.
  assert (G : forall es w0, mounted 0 p w0 ->
            draw_count (log (host (run es w0))) =
            (draw_count (log (host w0)) + frame_count es)%nat).
  { clear. induction es as [|e es IH]; intros w0 M.
    - cbn. lia.
    - rewrite cube_run_cons, IH by (apply cube_step_mounted, M).
      rewrite (cube_step_log 0 p e w0 M), draw_count_app.
      unfold frame_count. destruct e; cbn; lia. }
  pose proof (cube_reach_mounted cw ch iw ih dpr p now0 es) as M. fold w in M.
  split; [|split].
  - unfold w. rewrite G by apply cube_boot_mounted.
    replace (draw_count (log (host (boot cw ch iw ih dpr p now0)))) with 1%nat
      by reflexivity.
    reflexivity.
  - destruct (m_frame _ _ _ M) as (id & Hf & _). now rewrite Hf.
  - intros now. split.
    + rewrite (cube_step_log 0 p _ w M), draw_count_app. cbn. lia.
    + apply (cube_frame_frames 0 p), M.
Qed.


Lemma cube_unpressed_step r p e w c :
  mounted r p w -> cubeRef w = Some c -> isDraggingRef w = false ->
  is_press e = false ->
  isDraggingRef (step e w) = false /\
  exists c',
    cubeRef (step e w) = Some c' /\
    rotation_x c' = rotation_x c +
      (if is_frame e && autoRotate p then 0.01 * rotationSpeed p else 0) /\
    rotation_y c' = rotation_y c +
      (if is_frame e && autoRotate p then 0.01 * rotationSpeed p else 0).
Proof.
  intros M Hc Hd He.
  destruct e as [now|r' x y|x y| |cw ch iw ih| ]; try discriminate.
  - destruct (cube_frame_mounted r p now w c M Hc) as (E & D & _).
    split; [congruence|]. rewrite Hd in E. eexists; split; [exact E|].
    destruct (autoRotate p); cbn; split; lra.
  - rewrite (cube_move_mounted r p _ _ _ M). unfold onMouseMove. rewrite Hd.
    split; [exact Hd|]. exists c. cbn. repeat split; auto; lra.
  - rewrite (cube_up_mounted r p _ M). cbn.
    split; [reflexivity|]. exists c. repeat split; auto; lra.
  - rewrite (cube_resize_mounted r p _ _ _ _ _ M). unfold onResize. cbn.
    destruct (mount_present (host w)); cbn;
      (split; [exact Hd|]; exists c; repeat split; auto; lra).
  - cbn [step]. destruct (timers (host w)) as [|t rest].
    + split; [exact Hd|]. exists c. cbn. repeat split; auto; lra.
    + unfold onResize. cbn.
      destruct (mount_present (host w)); cbn;
        (split; [exact Hd|]; exists c; repeat split; auto; lra).
Qed.

Lemma cube_unpressed_run r p es : forall w c,
  mounted r p w -> cubeRef w = Some c -> isDraggingRef w = false ->
  no_press es = true ->
  exists c',
    cubeRef (run es w) = Some c' /\
    rotation_x c' = rotation_x c +
      (if autoRotate p then INR (frame_count es) * (0.01 * rotationSpeed p)
       else 0) /\
    rotation_y c' = rotation_y c +
      (if autoRotate p then INR (frame_count es) * (0.01 * rotationSpeed p)
       else 0).
Proof.
  induction es as [|e es IH]; intros w c M Hc Hd Hn.
  - exists c. cbn. destruct (autoRotate p); repeat split; auto; lra.
  - cbn [no_press forallb] in Hn. apply andb_true_iff in Hn as [He Hn].
    apply negb_true_iff in He.
    destruct (cube_unpressed_step r p e w c M Hc Hd He)
      as (D' & c1 & E1 & X1 & Y1).
    destruct (IH _ c1 (cube_step_mounted r p e w M) E1 D' Hn)
      as (c' & E' & X' & Y').
    exists c'. rewrite cube_run_cons. split; [exact E'|].
    unfold frame_count in *. cbn [filter].
    destruct e; cbn [is_frame andb length] in *; try discriminate;
      rewrite ?S_INR; destruct (autoRotate p); split; lra.
Qed.

(** As long as no button is pressed, pointer moves, releases, resizes and
    timers leave the rotation alone and every frame adds [0.01 * speed] to
    it about both axes: with auto-rotation on, the rotation is
    [0.01 * speed] times the number of frames so far (counting the call of
    [animate] at mount); with auto-rotation off it stays 0. *)
Theorem rotation_without_press cw ch iw ih dpr p now0 es :
  no_press es = true ->
  exists c,
    cubeRef (run es (boot cw ch iw ih dpr p now0)) = Some c /\
    rotation_x c =
      (if autoRotate p
       then INR (S (frame_count es)) * (0.01 * rotationSpeed p) else 0) /\
    rotation_y c = rotation_x c.
Proof.
  intros Hn.
  set (c0 := set_position_y
               (if autoRotate p then sin (IZR now0 * 0.001) * 0.2 else 0)
               (if autoRotate p
                then set_rotation (0 + 0.01 * rotationSpeed p)
                                  (0 + 0.01 * rotationSpeed p) (makeCube p)
                else makeCube p)).
  assert (E0 : cubeRef (boot cw ch iw ih dpr p now0) = Some c0).
  { unfold c0. destruct p as [col sz [|] sp tx]; reflexivity. }
  destruct (cube_unpressed_run 0 p es _ c0
              (cube_boot_mounted cw ch iw ih dpr p now0) E0 eq_refl Hn)
    as (c & E & X & Y).
  exists c. split; [exact E|].
  rewrite S_INR. unfold c0 in X, Y.
  destruct (autoRotate p); cbn in X, Y; split; lra.
Qed.

Lemma rotation_without_press_witness :
  exists c,
    cubeRef (run [MouseMove 3 4; Frame 16; MouseUp; Frame 32]
                 (boot 800 600 1024 768 1 defaultProps 0)) = Some c /\
    rotation_x c = INR 3 * (0.01 * 1) /\
    rotation_y c = rotation_x c.
Proof.
  exact (rotation_without_press 800 600 1024 768 1 defaultProps 0
           [MouseMove 3 4; Frame 16; MouseUp; Frame 32] eq_refl).
Defined.


(** A mount point that measures 0 in a direction falls back to the window's
    inner size in that direction: after a resize event the renderer has the
    width [clientWidth || innerWidth] and the height
    [clientHeight || innerHeight], and the camera their quotient.  The
    effect sizes the first renderer the same way. *)
Theorem resize_falls_back_to_window cw ch iw ih dpr p now0 es W H iw' ih' :
  (0 <= W)%Z -> (0 <= H)%Z -> (0 < iw')%Z -> (0 < ih')%Z ->
  let width := if (W =? 0)%Z then iw' else W in
  let height := if (H =? 0)%Z then ih' else H in
  let w1 := step (Resize W H iw' ih') (run es (boot cw ch iw ih dpr p now0)) in
  (0 < width)%Z /\ (0 < height)%Z /\
  (exists i, nth_error (instances w1) 0 = Some i /\
             renderer_width i = width /\ renderer_height i = height /\
             camera_aspect i = IZR width / IZR height) /\
  (exists i, nth_error (instances (boot W H iw' ih' dpr p now0)) 0 = Some i /\
             renderer_width i = width /\ renderer_height i = height /\
             camera_aspect i = IZR width / IZR height).
Proof.
  intros HW HH Hiw Hih width height w1.
  pose proof (cube_reach_mounted cw ch iw ih dpr p now0 es) as M.
  split; [unfold width; destruct (Z.eqb_spec W 0); lia|].
  split; [unfold height; destruct (Z.eqb_spec H 0); lia|].
  split.
  - unfold w1. rewrite (cube_resize_mounted 0 p _ _ _ _ _ M).
    rewrite cube_onResize_present by apply M.
    destruct (m_instance _ _ _ M) as (i & Hi & _).
    cbn [set_instances instances on_host set_host host set_viewport
         clientWidth clientHeight innerWidth innerHeight].
    rewrite nth_error_update_nth, Hi. cbn [Nat.eqb option_map].
    eexists; split; [reflexivity|]. cbn. auto.
  - eexists; split; [reflexivity|]. cbn. auto.
Qed.

Lemma resize_falls_back_to_window_witness :
  let w1 := step (Resize 0 0 1024 768)
                 (run [Frame 16] (boot 800 600 1024 768 1 defaultProps 0)) in
  (0 < 1024)%Z /\ (0 < 768)%Z /\
  (exists i, nth_error (instances w1) 0 = Some i /\
             renderer_width i = 1024%Z /\ renderer_height i = 768%Z /\
             camera_aspect i = 1024 / 768) /\
  (exists i, nth_error (instances (boot 0 0 1024 768 1 defaultProps 0)) 0
             = Some i /\
             renderer_width i = 1024%Z /\ renderer_height i = 768%Z /\
             camera_aspect i = 1024 / 768).
Proof.
  apply (resize_falls_back_to_window 800 600 1024 768 1 defaultProps 0
           [Frame 16] 0 0 1024 768); lia.
Defined.

(** No event touches what the cube was built from. *)
Lemma cube_built_step r p e w c :
  mounted r p w -> cubeRef w = Some c ->
  exists c', cubeRef (step e w) = Some c' /\
             geometry c' = geometry c /\ material c' = material c.
Proof.
  intros M Hc. destruct e as [now|r' x y|x y| |cw ch iw ih| ].
  - destruct (cube_frame_mounted r p now w c M Hc) as (E & _).
    eexists; split; [exact E|].
    destruct (autoRotate p && negb (isDraggingRef w)); cbn; auto.
  - cbn [step]. unfold dispatch, handlers_for.
    rewrite (m_listeners _ _ _ M). cbn.
    destruct (Nat.eqb r' r); cbn; eauto.
  - rewrite (cube_move_mounted r p _ _ _ M). unfold onMouseMove. rewrite Hc.
    destruct (isDraggingRef w); cbn; eauto.
  - rewrite (cube_up_mounted r p _ M). cbn. eauto.
  - rewrite (cube_resize_mounted r p _ _ _ _ _ M). unfold onResize. cbn.
    destruct (mount_present (host w)); cbn; eauto.
  - cbn [step]. destruct (timers (host w)) as [|t rest]; [eauto|].
    unfold onResize. cbn. destruct (mount_present (host w)); cbn; eauto.
Qed.

Lemma cube_built cw ch iw ih dpr p now0 es :
  exists c,
    cubeRef (run es (boot cw ch iw ih dpr p now0)) = Some c /\
    geometry c = (cubeSize p, cubeSize p, cubeSize p) /\
    material c = makeMaterial p.
Proof.
  assert (G : forall es w c, mounted 0 p w -> cubeRef w = Some c ->
            exists c', cubeRef (run es w) = Some c' /\
                       geometry c' = geometry c /\ material c' = material c).
  { clear. induction es as [|e es IH]; intros w c M Hc; [eauto|].
    destruct (cube_built_step 0 p e w c M Hc) as (c1 & E1 & G1 & M1).
    destruct (IH _ c1 (cube_step_mounted 0 p e w M) E1) as (c' & E' & G' & M').
    exists c'. rewrite cube_run_cons. repeat split; congruence. }
  pose proof (cube_boot_mounted cw ch iw ih dpr p now0) as M.
  destruct (m_cube _ _ _ M) as (c0 & E0).
  assert (B : geometry c0 = (cubeSize p, cubeSize p, cubeSize p) /\
              material c0 = makeMaterial p).
  { assert (E : option_map (fun c => (geometry c, material c))
                  (cubeRef (boot cw ch iw ih dpr p now0)) =
                Some ((cubeSize p, cubeSize p, cubeSize p), makeMaterial p))
      by (destruct p as [col sz [|] sp tx]; reflexivity).
    rewrite E0 in E. cbn in E. injection E as -> ->. auto. }
  destruct (G es _ c0 M E0) as (c & E & Gc & Mc).
  exists c. split; [exact E|]. destruct B as [Bg Bm].
  split; congruence.
Qed.

(** Whatever happens to a mounted cube - frames, drags, resizes - its
    geometry stays the box of the configured size and its material the one
    chosen by the configured texture, in the configured colour; a texture
    other than wireframe, metallic or glass gives the solid Phong
    material. *)
Theorem cube_keeps_geometry_and_material cw ch iw ih dpr p now0 es :
  exists c,
    cubeRef (run es (boot cw ch iw ih dpr p now0)) = Some c /\
    geometry c = (cubeSize p, cubeSize p, cubeSize p) /\
    material c = makeMaterial p /\
    match material c with
    | MeshPhongMaterial color wireframe =>
        color = cubeColor p /\
        wireframe = String.eqb (cubeTexture p) "wireframe"
    | MeshStandardMaterial color _ _ =>
        color = cubeColor p /\ cubeTexture p = "metallic"%string
    | MeshPhysicalMaterial color _ _ _ _ =>
        color = cubeColor p /\ cubeTexture p = "glass"%string
    end.
Proof.
  destruct (cube_built cw ch iw ih dpr p now0 es) as (c & E & Gc & Mc).
  exists c. split; [exact E|]. split; [exact Gc|]. split; [exact Mc|].
  rewrite Mc. unfold makeMaterial.
  destruct (String.eqb_spec (cubeTexture p) "wireframe"); [auto|].
  destruct (String.eqb_spec (cubeTexture p) "metallic"); [auto|].
  destruct (String.eqb_spec (cubeTexture p) "glass"); auto.
Qed.

Lemma setStyle_makeMaterial p :
  setStyle (cubeColor p) (makeMaterial p) = makeMaterial p.
Proof.
  unfold makeMaterial.
  destruct (String.eqb (cubeTexture p) "wireframe"); [reflexivity|].
  destruct (String.eqb (cubeTexture p) "metallic"); [reflexivity|].
  destruct (String.eqb (cubeTexture p) "glass"); reflexivity.
Qed.

(** The size is applied twice.  The first effect builds the box with the
    configured size as its edge; the second effect, run on the same props,
    finds the cube already in the configured colour and changes nothing in
    the world, but sets the scale of the mesh to [cubeSize / 1.5] on each
    axis, which is 1 only for the size 1.5. *)
Theorem size_applied_twice cw ch iw ih dpr p now0 es :
  let w := run es (boot cw ch iw ih dpr p now0) in
  let scale := cubeSize p / 1.5 in
  fst (updateCubeProperties p w) = w /\
  snd (updateCubeProperties p w) = Some (scale, scale, scale) /\
  (exists c, cubeRef w = Some c /\
             geometry c = (cubeSize p, cubeSize p, cubeSize p)) /\
  (scale = 1 <-> cubeSize p = 1.5).
Proof.
  intros w scale.
  destruct (cube_built cw ch iw ih dpr p now0 es) as (c & E & Gc & Mc).
  fold w in E. unfold updateCubeProperties. rewrite E. cbn [fst snd].
  split; [|split; [reflexivity|split; [eauto|unfold scale; lra]]].
  rewrite Mc, setStyle_makeMaterial, <- Mc.
  destruct w as [h sc rr cu ai co dr pm ins]. cbn [cubeRef] in E. subst cu.
  destruct c; reflexivity.
Qed.

Lemma length_update_nth {A} (f : A -> A) (l : list A) : forall n,
  length (update_nth n f l) = length l.
Proof. induction l as [|a l IH]; intros [|n]; cbn; auto. Qed.

Lemma cube_step_instances r p e w :
  mounted r p w -> length (instances (step e w)) = length (instances w).
Proof.
  intros M. destruct e as [now|r' x y|x y| |cw ch iw ih| ].
  - destruct M as [Hp Hc Hl Hr Hk (i & Hi & Hpi) (c & Hcube) (id & Hf & Ha & Hid)].
    cbn [step]. rewrite Hf. cbn [fold_left snd].
    unfold animate. cbn. rewrite Hi, Hcube. reflexivity.
  - cbn [step]. unfold dispatch, handlers_for.
    rewrite (m_listeners _ _ _ M). cbn. destruct (Nat.eqb r' r); reflexivity.
  - rewrite (cube_move_mounted r p _ _ _ M). unfold onMouseMove.
    destruct (isDraggingRef w), (cubeRef w); reflexivity.
  - rewrite (cube_up_mounted r p _ M). reflexivity.
  - rewrite (cube_resize_mounted r p _ _ _ _ _ M). unfold onResize. cbn.
    destruct (mount_present (host w)); cbn; [|reflexivity].
    apply length_update_nth.
  - cbn [step]. destruct (timers (host w)) as [|t rest]; [reflexivity|].
    unfold onResize. cbn.
    destruct (mount_present (host w)); cbn; [|reflexivity].
    apply length_update_nth.
Qed.

Lemma cube_one_instance cw ch iw ih dpr p now0 es :
  length (instances (run es (boot cw ch iw ih dpr p now0))) = 1%nat.
Proof.
  assert (G : forall es w, mounted 0 p w ->
            length (instances (run es w)) = length (instances w)).
  { clear. induction es as [|e es IH]; intros w M; [reflexivity|].
    rewrite cube_run_cons, IH by (apply cube_step_mounted, M).
    apply (cube_step_instances 0 p), M. }
  rewrite G by apply cube_boot_mounted. reflexivity.
Qed.

Ltac eval_cube :=
  lazy beta iota zeta
       delta -[Rplus Rmult Rminus Rdiv Ropp Rinv IZR INR sin cos sqrt PI Rabs
               Z.add Z.mul Z.sub Z.div String.eqb makeMaterial].

(** The effect run again after the cleanup, on the states the cleanup of a
    live first run leaves. *)
Lemma cube_effect_after_cleanup p' now' cw ch iw ih dpr nf ts lg sc cu dr pm i :
  (1 <= nf)%nat ->
  let r := effect p' now'
             (mkWorld (mkHost true [] cw ch iw ih dpr [] [] nf ts lg)
                      sc None cu None (Some 0%nat) dr pm [i]) in
  snd r = Some 1%nat /\ mounted 1 p' (fst r) /\
  (exists c, cubeRef (fst r) = Some c /\
             geometry c = (cubeSize p', cubeSize p', cubeSize p') /\
             material c = makeMaterial p' /\
             rotation_x c =
               (if autoRotate p' && negb dr then 0.01 * rotationSpeed p'
                else 0) /\
             rotation_y c = rotation_x c) /\
  isDraggingRef (fst r) = dr /\
  length (instances (fst r)) = 2%nat.
Proof.
  intros Hnf r. split; [reflexivity|]. split; [|split; [|split; reflexivity]].
  - constructor.
    1-5: eval_cube; reflexivity.
    + eexists. split; eval_cube; reflexivity.
    + eexists. eval_cube. reflexivity.
    + exists nf. eval_cube. repeat split; lia.
  - eexists. split; [eval_cube; reflexivity|].
    destruct p' as [col sz [|] sp tx], dr; cbn;
      repeat split; try reflexivity; lra.
Qed.

(** A configuration change (the cleanup of the live run, then the effect
    with the new props) leaves a mounted cube again: the new renderer's
    canvas is the only child of the mount point, its four listeners are the
    only ones, one frame request is pending.  The cube is built anew from
    the new props; the rotation reached so far is discarded. *)
Theorem rebuild_on_config_change cw ch iw ih dpr p now0 es p' now' :
  let w := run es (boot cw ch iw ih dpr p now0) in
  let r := effect p' now' (cleanup 0 w) in
  snd r = Some 1%nat /\
  children (host (fst r)) = [Canvas 1] /\
  listeners (host (fst r)) = cube_listeners 1 /\
  length (frames (host (fst r))) = 1%nat /\
  rendererRef (fst r) = Some 1%nat /\
  (exists c, cubeRef (fst r) = Some c /\
             geometry c = (cubeSize p', cubeSize p', cubeSize p') /\
             material c = makeMaterial p' /\
             rotation_x c =
               (if autoRotate p' && negb (isDraggingRef w)
                then 0.01 * rotationSpeed p' else 0) /\
             rotation_y c = rotation_x c).
Proof.
  intros w r.
  pose proof (cube_reach_mounted cw ch iw ih dpr p now0 es) as M.
  pose proof (cube_one_instance cw ch iw ih dpr p now0 es) as L.
  fold w in M, L. unfold r. clearbody w. clear r.
  destruct M as [Hp Hc Hl Hr Hk _ _ (id & Hf & Ha & Hid)].
  destruct w as [h sc rr cu ai co dr pm ins].
  destruct h as [mp chn cw' ch' iw' ih' dpr' ls fs nf ts lg].
  cbn [host mount_present children listeners rendererRef controlsRef frames
       animationIdRef nextFrame instances isDraggingRef]
    in Hp, Hc, Hl, Hr, Hk, Hf, Ha, Hid, L |- *.
  subst. destruct id as [|k]; [lia|].
  destruct ins as [|i [|]]; try discriminate.
  rewrite cube_cleanup_live, Nat.eqb_refl. cbn [negb].
  match goal with
  | |- context [effect p' now' (mkWorld (mkHost _ _ _ _ _ _ _ _ _ _ _ ?lg') _ _ _ _ _ _ _ _)] =>
      destruct (cube_effect_after_cleanup p' now' cw' ch' iw' ih' dpr' nf ts
                  lg' sc cu dr pm i) as (S1 & M1 & C1 & _); [lia|]
  end.
  cbv zeta in S1, M1, C1.
  destruct M1 as [_ Hc1 Hl1 Hr1 _ _ _ (id1 & Hf1 & _)].
  repeat split; try assumption; now rewrite Hf1.
Qed.




End CubeMore.

(* ================================================================== *)
(** * More about the city *)
(* ================================================================== *)

Module CityMore.
Import Js Host ImmersiveScene RandFacts HostFacts CityFacts CityShapes.
Local Open Scope rand_scope.









Lemma vec_length_nonneg a : 0 <= vec_length a.
Proof. apply sqrt_pos. Qed.

Lemma vec_length_scale s a :
  vec_length (multiplyScalar s a) = Rabs s * vec_length a.
Proof.
  unfold vec_length, multiplyScalar. cbn.
  replace (vx a * s * (vx a * s) + vy a * s * (vy a * s) +
           vz a * s * (vz a * s))
    with (Rsqr s * (vx a * vx a + vy a * vy a + vz a * vz a))
    by (unfold Rsqr; ring).
  rewrite sqrt_mult; [|apply Rle_0_sqr|nra].
  now rewrite sqrt_Rsqr_abs.
Qed.

Lemma vec_length_negate a : vec_length (negate a) = vec_length a.
Proof. unfold vec_length, negate. cbn. f_equal. ring. Qed.

(** [normalize] gives a vector of length 1, except on the zero vector. *)
Lemma vec_length_normalize a :
  vec_length (normalize a) = 1 \/ vec_length (normalize a) = 0.
Proof.
  unfold normalize. rewrite vec_length_scale. unfold Ror.
  destruct (Req_dec_T (vec_length a) 0) as [Z|NZ].
  - right. rewrite Z. ring.
  - left. pose proof (vec_length_nonneg a).
    rewrite Rabs_right.
    + field. exact NZ.
    + apply Rle_ge. apply Rlt_le. apply Rdiv_lt_0_compat; lra.
Qed.

Lemma createFlyingVehicle_steady g :
  unit_draws g ->
  let v := fst (createFlyingVehicle g) in
  (steady v /\
   -50 <= vx (v_position v) < 50 /\ 20 <= vy (v_position v) < 50 /\
   -50 <= vz (v_position v) < 50) /\
  draws (snd (createFlyingVehicle g)) = draws g.
Proof.
  intros U v. split; [|reflexivity]. unfold v. cbn.
  pose proof (U (cursor g)). pose proof (U (S (cursor g))).
  pose proof (U (S (S (cursor g)))). pose proof (U (S (S (S (cursor g))))).
  split; [unfold steady; cbn [speed direction];
          split; [lra|apply vec_length_normalize]|lra].
Qed.

Lemma updateVehicle_steady v : steady v -> steady (updateVehicle v).
Proof.
  intros [S D]. unfold steady, updateVehicle. cbn [speed direction].
  split; [exact S|].
  destruct (Rgtb _ 80); [rewrite vec_length_negate|]; exact D.
Qed.

(** A vehicle keeps its speed; each tick moves it by its speed along its
    direction and turns it by 0.02.  When that takes it further than 80
    from the origin, its direction is reversed, and the next tick puts it
    back exactly where it was. *)
Theorem vehicle_turns_back v :
  let v1 := updateVehicle v in
  let v2 := updateVehicle v1 in
  vec_length (v_position v1) > 80 ->
  speed v1 = speed v /\
  v_rotation_y v1 = v_rotation_y v + 0.02 /\
  v_position v1 =
    vec_add (v_position v) (multiplyScalar (speed v) (direction v)) /\
  direction v1 = negate (direction v) /\
  vx (v_position v2) = vx (v_position v) /\
  vy (v_position v2) = vy (v_position v) /\
  vz (v_position v2) = vz (v_position v).
Proof.
  intros v1 v2 Far.
  split; [reflexivity|]. split; [reflexivity|]. split; [reflexivity|].
  assert (E : Rgtb (vec_length
                      (vec_add (v_position v)
                               (multiplyScalar (speed v) (direction v)))) 80
              = true) by (apply Rltb_spec; exact Far).
  split.
  - unfold v1, updateVehicle. cbn [direction]. now rewrite E.
  - unfold v2, v1, updateVehicle. cbn. rewrite E. cbn. repeat split; ring.
Qed.

Lemma vehicle_turns_back_witness :
  let v := mkVehicle (vec3 80 0 0) 0 0.25 (vec3 1 0 0) in
  let v1 := updateVehicle v in
  let v2 := updateVehicle v1 in
  vec_length (v_position v1) > 80 /\
  speed v1 = speed v /\
  v_rotation_y v1 = v_rotation_y v + 0.02 /\
  v_position v1 =
    vec_add (v_position v) (multiplyScalar (speed v) (direction v)) /\
  direction v1 = negate (direction v) /\
  vx (v_position v2) = vx (v_position v) /\
  vy (v_position v2) = vy (v_position v) /\
  vz (v_position v2) = vz (v_position v).
Proof.
  intros v v1 v2.
  assert (Far : vec_length (v_position v1) > 80).
  { unfold v1, v, updateVehicle, vec_length. cbn.
    apply Rlt_gt. apply Rsqr_incrst_0; [|lra|apply sqrt_pos].
    rewrite Rsqr_sqrt by nra. unfold Rsqr. nra. }
  split; [exact Far|].
  exact (vehicle_turns_back v Far).
Defined.

Lemma vec_length_sqr a :
  vec_length a * vec_length a = vx a * vx a + vy a * vy a + vz a * vz a.
Proof. unfold vec_length. apply sqrt_sqrt. nra. Qed.

(** The length of a sum is at least the difference of the lengths. *)
Lemma vec_length_add_ge a b :
  vec_length a - vec_length b <= vec_length (vec_add a b).
Proof.
  pose proof (vec_length_nonneg a) as A0.
  pose proof (vec_length_nonneg b) as B0.
  pose proof (vec_length_nonneg (vec_add a b)) as C0.
  pose proof (vec_length_sqr a) as A2.
  pose proof (vec_length_sqr b) as B2.
  pose proof (vec_length_sqr (vec_add a b)) as C2.
  destruct a as [a1 a2 a3], b as [b1 b2 b3].
  unfold vec_add in *. cbn [vx vy vz] in *.
  set (A := vec_length (vec3 a1 a2 a3)) in *.
  set (B := vec_length (vec3 b1 b2 b3)) in *.
  set (C := vec_length (vec3 (a1 + b1) (a2 + b2) (a3 + b3))) in *.
  set (d := a1 * b1 + a2 * b2 + a3 * b3).
  assert (CS : d * d <= (A * B) * (A * B)).
  { replace (A * B * (A * B)) with ((A * A) * (B * B)) by ring.
    rewrite A2, B2. unfold d.
    pose proof (Rle_0_sqr (a1 * b2 - a2 * b1)).
    pose proof (Rle_0_sqr (a1 * b3 - a3 * b1)).
    pose proof (Rle_0_sqr (a2 * b3 - a3 * b2)).
    unfold Rsqr in *. nra. }
  assert (D : - d <= A * B).
  { destruct (Rle_dec (- d) (A * B)) as [L|N]; [exact L|].
    assert (0 <= A * B) by nra. nra. }
  destruct (Rle_dec (A - B) 0) as [L|N]; [lra|].
  assert (S : (A - B) * (A - B) <= C * C).
  { rewrite C2. fold d in D. unfold d in D. nra. }
  nra.
Qed.

(** A vehicle further out than 80 plus its speed is stuck: every tick
    leaves it beyond 80, so every tick reverses its direction, and it
    alternates for ever between the place where it is and the place one
    step along its direction. *)
Theorem vehicle_stuck_out_of_range v :
  steady v -> vec_length (v_position v) > 80 + speed v ->
  forall n,
    let even := Nat.iter (2 * n) updateVehicle v in
    let odd := updateVehicle even in
    v_position even = v_position v /\ direction even = direction v /\
    v_position odd =
      vec_add (v_position v) (multiplyScalar (speed v) (direction v)) /\
    direction odd = negate (direction v) /\
    vec_length (v_position odd) > 80.
Proof.
  intros [Sp D] Far.
  assert (Out : vec_length (vec_add (v_position v)
                  (multiplyScalar (speed v) (direction v))) > 80).
  { pose proof (vec_length_add_ge (v_position v)
                  (multiplyScalar (speed v) (direction v))) as T.
    rewrite vec_length_scale in T. rewrite Rabs_right in T by lra.
    assert (speed v * vec_length (direction v) <= speed v)
      by (destruct D as [-> | ->]; lra).
    lra. }
  assert (E1 : Rgtb (vec_length (vec_add (v_position v)
                  (multiplyScalar (speed v) (direction v)))) 80 = true)
    by (apply Rltb_spec; exact Out).
  assert (E0 : Rgtb (vec_length (v_position v)) 80 = true)
    by (apply Rltb_spec; lra).
  assert (Odd : forall u, v_position u = v_position v ->
                  direction u = direction v -> speed u = speed v ->
                  v_position (updateVehicle u) =
                    vec_add (v_position v)
                            (multiplyScalar (speed v) (direction v)) /\
                  direction (updateVehicle u) = negate (direction v) /\
                  speed (updateVehicle u) = speed v).
  { intros u Hp Hd Hs. unfold updateVehicle. cbn [v_position direction speed].
    rewrite Hp, Hd, Hs, E1. auto. }
  assert (Even : forall u,
                  v_position u =
                    vec_add (v_position v)
                            (multiplyScalar (speed v) (direction v)) ->
                  direction u = negate (direction v) -> speed u = speed v ->
                  v_position (updateVehicle u) = v_position v /\
                  direction (updateVehicle u) = direction v /\
                  speed (updateVehicle u) = speed v).
  { intros u Hp Hd Hs. unfold updateVehicle. cbn [v_position direction speed].
    rewrite Hp, Hd, Hs.
    assert (Back : vec_add (vec_add (v_position v)
                              (multiplyScalar (speed v) (direction v)))
                           (multiplyScalar (speed v) (negate (direction v)))
                   = v_position v).
    { destruct (v_position v) as [x y z], (direction v) as [dx dy dz].
      unfold vec_add, multiplyScalar, negate. cbn [vx vy vz]. f_equal; ring. }
    rewrite Back, E0. split; [reflexivity|]. split; [|reflexivity].
    destruct (direction v) as [dx dy dz]. unfold negate. cbn [vx vy vz].
    f_equal; ring. }
  assert (Inv : forall n,
            v_position (Nat.iter (2 * n) updateVehicle v) = v_position v /\
            direction (Nat.iter (2 * n) updateVehicle v) = direction v /\
            speed (Nat.iter (2 * n) updateVehicle v) = speed v).
  { induction n as [|n IH]; [cbn; auto|].
    replace (2 * S n)%nat with (S (S (2 * n)%nat)) by lia.
    cbn [Nat.iter]. destruct IH as (Hp & Hd & Hs).
    destruct (Odd _ Hp Hd Hs) as (Hp1 & Hd1 & Hs1).
    exact (Even _ Hp1 Hd1 Hs1). }
  intros n even odd. destruct (Inv n) as (Hp & Hd & Hs).
  destruct (Odd _ Hp Hd Hs) as (Hp1 & Hd1 & Hs1).
  split; [exact Hp|]. split; [exact Hd|]. split; [exact Hp1|].
  split; [exact Hd1|]. unfold odd, even. rewrite Hp1. exact Out.
Qed.

(** The generator whose second draw puts the first vehicle high above a
    corner of the spawn box, beyond the range of 80. *)
Lemma vehicle_stuck_out_of_range_witness :
  let g := mkRng (fun n => if Nat.eqb n 1 then 0.9 else 0) 0 in
  let v := fst (createFlyingVehicle g) in
  let even := Nat.iter (2 * 3) updateVehicle v in
  let odd := updateVehicle even in
  (steady v /\ vec_length (v_position v) > 80 + speed v) /\
  v_position even = v_position v /\ direction even = direction v /\
  v_position odd =
    vec_add (v_position v) (multiplyScalar (speed v) (direction v)) /\
  direction odd = negate (direction v) /\
  vec_length (v_position odd) > 80.
Proof.
  intros g v.
  assert (U : unit_draws g)
    by (intros n; unfold g; cbn [draws]; destruct (Nat.eqb n 1); lra).
  assert (S : steady v) by apply (createFlyingVehicle_steady g U).
  assert (Far : vec_length (v_position v) > 80 + speed v).
  { unfold v, g, vec_length. cbn.
    apply Rlt_gt. apply Rsqr_incrst_0; [|lra|apply sqrt_pos].
    rewrite Rsqr_sqrt by nra. unfold Rsqr. nra. }
  split; [split; [exact S|exact Far]|].
  exact (vehicle_stuck_out_of_range v S Far 3%nat).
Defined.

Lemma ticked_in_range p v p' : ticked p v p' -> in_range p'.
Proof.
  unfold ticked, respawns, in_range.
  intros [[N ->]|[_ (Y & X & Z)]].
  - repeat split; lra.
  - repeat split; try lra; apply Rabs_le; lra.
Qed.

(** The particle loop on any system: every particle is moved by its
    velocity or put back, and ends up in range. *)
Lemma updateParticles_in_range pos : forall vel g,
  length pos = length vel -> unit_draws g ->
  (length (fst (updateParticles pos vel g)) = length pos /\
   Forall in_range (fst (updateParticles pos vel g)) /\
   Forall2 (fun pv p' => ticked (fst pv) (snd pv) p')
           (combine pos vel) (fst (updateParticles pos vel g))) /\
  draws (snd (updateParticles pos vel g)) = draws g.
Proof.
  induction pos as [|p pos IH]; intros [|v vel] g L U; try discriminate.
  - cbn. repeat split; constructor.
  - rewrite updateParticles_cons.
    destruct (updateParticle_ticked p v g U) as [T Dg].
    destruct (updateParticle p v g) as [p' g']. cbn [fst snd] in T, Dg.
    destruct (IH vel g') as [(Ln & Fr & F2) Dg']; [cbn in L; lia| |].
    { eapply unit_draws_same; eauto. }
    destruct (updateParticles pos vel g') as [rest g'']. cbn [fst snd] in *.
    split; [|congruence].
    repeat split.
    + cbn. now rewrite Ln.
    + constructor; [exact (ticked_in_range _ _ _ T)|exact Fr].
    + constructor; [exact T|exact F2].
Qed.

Lemma updateSystem_in_range s g :
  length (positions s) = length (velocities s) -> unit_draws g ->
  let s' := fst (updateSystem s g) in
  ptype s' = ptype s /\ velocities s' = velocities s /\
  length (positions s') = length (positions s) /\
  Forall in_range (positions s').
Proof.
  intros L U s'. unfold s'. rewrite updateSystem_eq.
  cbn [ptype positions velocities].
  destruct (updateParticles_in_range (positions s) (velocities s) g L U)
    as [(Ln & Fr & _) _].
  repeat split; assumption.
Qed.



Lemma seedParticle_in_range type g :
  unit_draws g ->
  in_range (fst (fst (seedParticle type g))) /\
  draws (snd (seedParticle type g)) = draws g.
Proof.
  intros U. split; [|reflexivity]. unfold in_range. cbn.
  pose proof (U (cursor g)). pose proof (U (S (cursor g))).
  pose proof (U (S (S (cursor g)))).
  repeat split; try lra; apply Rabs_le; lra.
Qed.

(** A freshly seeded system has its count of particles, all in range. *)
Lemma createParticleSystem_seeded type g :
  unit_draws g ->
  system_in_range type (fst (createParticleSystem type g)) /\
  length (colors (fst (createParticleSystem type g))) = particle_count type /\
  draws (snd (createParticleSystem type g)) = draws g.
Proof.
  intros U.
  destruct (Forall_repeat_from (fun pv => in_range (fst pv))
              (fun _ => seedParticle type)) with
    (n := particle_count type) (i := 0%nat) (g := g) as [F D]; [|exact U|].
  { intros _ g0 U0. apply seedParticle_in_range, U0. }
  rewrite createParticleSystem_eq. unfold system_in_range.
  cbn [ptype positions velocities colors].
  rewrite !length_map, length_repeat_from, repeat_length.
  repeat split; auto.
  - apply Forall_map. exact F.
  - unfold createParticleSystem, bind.
    destruct (repeat_from 0 (particle_count type) _ g). exact D.
Qed.

Lemma forEach_cons {A} (f : A -> Rand A) a l g :
  forEach f (a :: l) g =
  let (a', g') := f a g in
  let (rest, g'') := forEach f l g' in
  (a' :: rest, g'').
Proof.
  cbn [forEach]. unfold bind at 1. destruct (f a g) as [a' g'].
  unfold bind at 1. destruct (forEach f l g'); reflexivity.
Qed.

Lemma updateSystem_draws s g :
  length (positions s) = length (velocities s) -> unit_draws g ->
  draws (snd (updateSystem s g)) = draws g.
Proof.
  intros L U.
  destruct (updateParticles_in_range (positions s) (velocities s) g L U)
    as [_ D].
  unfold updateSystem, bind.
  destruct (updateParticles (positions s) (velocities s) g). exact D.
Qed.

(** The update of all systems keeps them in range. *)
Lemma forEach_updateSystem tys : forall systems g,
  unit_draws g ->
  Forall2 system_in_range tys systems ->
  Forall2 system_in_range tys (fst (forEach updateSystem systems g)) /\
  draws (snd (forEach updateSystem systems g)) = draws g.
Proof.
  induction tys as [|ty tys IH]; intros systems g U F; inversion F; subst.
  - cbn. split; [constructor|reflexivity].
  - rename y into s. rename l' into rest.
    match goal with H : system_in_range ty s |- _ =>
      destruct H as (T & Lp & Lv & _) end.
    assert (L : length (positions s) = length (velocities s)) by congruence.
    pose proof (updateSystem_in_range s g L U) as (T' & V' & Lp' & R').
    pose proof (updateSystem_draws s g L U) as D.
    rewrite forEach_cons.
    destruct (updateSystem s g) as [s' g']. cbn [fst snd] in *.
    destruct (IH rest g') as [F' D']; [eapply unit_draws_same; eauto|auto|].
    destruct (forEach updateSystem rest g') as [rest' g'']. cbn [fst snd] in *.
    split; [|congruence].
    constructor; [|exact F'].
    unfold system_in_range. repeat split; congruence.
Qed.

Opaque generateCity createParticleSystem createFlyingVehicle forEach
       updateSystem updateVehicle repeat_from setupLighting.

Ltac eval_city :=
  lazy beta iota zeta
       delta -[Rplus Rmult Rminus Rdiv Ropp Rinv IZR INR sin cos sqrt PI Rabs
               Z.add Z.mul Z.sub Z.div String.eqb map app].

(** What a frame leaves in the refs and in the instance of a live run. *)
Lemma city_frame_fields now w i :
  mounted 0 w -> instances w = [i] ->
  let w' := step (Frame now) w in
  flyingObjectsRef w' = map updateVehicle (flyingObjectsRef w) /\
  particleSystemsRef w' =
    fst (forEach updateSystem (particleSystemsRef w) (rng w)) /\
  rng w' = snd (forEach updateSystem (particleSystemsRef w) (rng w)) /\
  instances w' = [frame_instance now i].
Proof.
  intros [Hp Hc Hl Hr Hk _ (id & Hf & Ha & Hid)] Hi w'. unfold w'.
  destruct w as [h g sc rr ai co fl ps ins].
  destruct h as [mp chn cw ch iw ih dpr ls fs nf ts lg].
  cbn [host mount_present children listeners rendererRef controlsRef frames
       animationIdRef nextFrame instances] in Hp, Hc, Hl, Hr, Hk, Hf, Ha, Hid, Hi.
  subst. repeat split; eval_city; reflexivity.
Qed.

Lemma city_resize_fields cw ch iw ih w i :
  mounted 0 w -> instances w = [i] ->
  let w' := step (Resize cw ch iw ih) w in
  flyingObjectsRef w' = flyingObjectsRef w /\
  particleSystemsRef w' = particleSystemsRef w /\
  rng w' = rng w /\
  instances w' =
    [mkInstance (props i) (lights i) (scene_fog i) (buildings i)
                (camera_position i) (IZR cw / IZR ch) cw ch].
Proof.
  intros [Hp Hc Hl Hr Hk _ (id & Hf & Ha & Hid)] Hi w'. unfold w'.
  destruct w as [h g sc rr ai co fl ps ins].
  destruct h as [mp chn cw' ch' iw' ih' dpr ls fs nf ts lg].
  cbn [host mount_present children listeners rendererRef controlsRef frames
       animationIdRef nextFrame instances] in Hp, Hc, Hl, Hr, Hk, Hf, Ha, Hid, Hi.
  subst. repeat split; eval_city; reflexivity.
Qed.

(** What the effect leaves on a fresh page. *)
Lemma city_boot_fields cw ch iw ih dpr g p now :
  let w := boot cw ch iw ih dpr g p now in
  let vehicles :=
    repeat_from 0 8 (fun _ => createFlyingVehicle) (snd (generateCity g)) in
  let rainSystem := createParticleSystem rain (snd vehicles) in
  let sparksSystem := createParticleSystem sparks (snd rainSystem) in
  let fogSystem := createParticleSystem fog (snd sparksSystem) in
  let systems :=
    forEach updateSystem
      (if effectsEnabled p
       then [fst rainSystem; fst sparksSystem; fst fogSystem] else [])
      (if effectsEnabled p then snd fogSystem else snd vehicles) in
  flyingObjectsRef w = map updateVehicle (fst vehicles) /\
  particleSystemsRef w = fst systems /\
  rng w = snd systems /\
  exists i,
    instances w = [i] /\ props i = p /\ buildings i = fst (generateCity g) /\
    lights i = lights (frame_instance now
                 (mkInstance p (fst (setupLighting (timeOfDay p)))
                    (snd (setupLighting (timeOfDay p))) [] (vec3 0 20 50)
                    0 0 0)) /\
    scene_fog i = scene_fog (frame_instance now
                 (mkInstance p (fst (setupLighting (timeOfDay p)))
                    (snd (setupLighting (timeOfDay p))) [] (vec3 0 20 50)
                    0 0 0)) /\
    camera_position i = camera_position (frame_instance now
                 (mkInstance p (fst (setupLighting (timeOfDay p)))
                    (snd (setupLighting (timeOfDay p))) [] (vec3 0 20 50)
                    0 0 0)).
Proof.
  destruct p as [cm tod [|]]; cbv zeta.
  all: split; [eval_city; reflexivity|].
  all: split; [eval_city; reflexivity|].
  all: split; [eval_city; reflexivity|].
  all: eexists; split; [eval_city; reflexivity|].
  all: repeat split; eval_city; reflexivity.
Qed.

(** What the next run of the effect leaves in the refs, after the cleanup
    of a live run. *)
Lemma city_remount_fields p' now' w i :
  mounted 0 w -> instances w = [i] ->
  let w' := fst (effect p' now' (cleanup 0 w)) in
  let vehicles :=
    repeat_from 0 8 (fun _ => createFlyingVehicle)
                (snd (generateCity (rng w))) in
  let rainSystem := createParticleSystem rain (snd vehicles) in
  let sparksSystem := createParticleSystem sparks (snd rainSystem) in
  let fogSystem := createParticleSystem fog (snd sparksSystem) in
  let systems :=
    forEach updateSystem
      (if effectsEnabled p'
       then [fst rainSystem; fst sparksSystem; fst fogSystem]
       else particleSystemsRef w)
      (if effectsEnabled p' then snd fogSystem else snd vehicles) in
  snd (effect p' now' (cleanup 0 w)) = Some 1%nat /\
  flyingObjectsRef w' =
    map updateVehicle (flyingObjectsRef w ++ fst vehicles) /\
  particleSystemsRef w' = fst systems /\
  rng w' = snd systems /\
  children (host w') = [Canvas 1] /\
  frames (host w') = [(nextFrame (host w), 1%nat)].
Proof.
  intros [Hp Hc Hl Hr Hk _ (id & Hf & Ha & Hid)] Hi.
  destruct w as [h g sc rr ai co fl ps ins].
  destruct h as [mp chn cw ch iw ih dpr ls fs nf ts lg].
  cbn [host mount_present children listeners rendererRef controlsRef frames
       animationIdRef nextFrame instances] in Hp, Hc, Hl, Hr, Hk, Hf, Ha, Hid, Hi.
  subst. destruct id as [|k]; [lia|].
  rewrite city_cleanup_live. rewrite Nat.eqb_refl.
  destruct p' as [cm tod [|]]; cbv zeta; repeat split; eval_city; reflexivity.
Qed.

(** What a run of the effect does while a renderer is bound. *)
Lemma city_second_effect p' now' w :
  mounted 0 w ->
  let w' := fst (effect p' now' w) in
  snd (effect p' now' w) = None /\
  rendererRef w' = Some 0%nat /\
  instances w' = instances w /\
  flyingObjectsRef w' = flyingObjectsRef w /\
  particleSystemsRef w' = particleSystemsRef w /\
  frames (host w') = frames (host w) /\
  listeners (host w') = listeners (host w) /\
  children (host w') = [].
Proof.
  intros [Hp Hc Hl Hr Hk _ (id & Hf & Ha & Hid)].
  destruct w as [h g sc rr ai co fl ps ins].
  destruct h as [mp chn cw ch iw ih dpr ls fs nf ts lg].
  cbn [host mount_present children listeners rendererRef controlsRef frames
       animationIdRef nextFrame instances] in Hp, Hc, Hl, Hr, Hk, Hf, Ha, Hid.
  subst. repeat split; eval_city; reflexivity.
Qed.

Transparent generateCity createParticleSystem createFlyingVehicle forEach
            updateSystem updateVehicle repeat_from setupLighting.

Lemma camera_track_frame now p c :
  camera_on_track p c ->
  camera_on_track p
    (if String.eqb (cameraMode p) "cinematic" then
       vec3 (cos (IZR now * 0.001 * 0.1) * 50)
            (20 + sin (IZR now * 0.001 * 0.05) * 10)
            (sin (IZR now * 0.001 * 0.1) * 50)
     else c).
Proof.
  unfold camera_on_track. destruct (String.eqb (cameraMode p) "cinematic").
  - intros _. cbn [vx vy vz]. split.
    + pose proof (sin2_cos2 (IZR now * 0.001 * 0.1)) as E.
      unfold Rsqr in E. nra.
    + pose proof (SIN_bound (IZR now * 0.001 * 0.05)). lra.
  - auto.
Qed.

Lemma relight_same tod (ls : list Light) :
  ls = fst (setupLighting tod) ->
  (if negb (String.eqb tod (if String.eqb tod "day" then "day" else "night"))
   then fst (setupLighting tod) else ls) = fst (setupLighting tod).
Proof. intros ->. now destruct (negb _). Qed.

Lemma refog_same tod (f : Fog) :
  f = snd (setupLighting tod) ->
  (if negb (String.eqb tod (if String.eqb tod "day" then "day" else "night"))
   then snd (setupLighting tod) else f) = snd (setupLighting tod).
Proof. intros ->. now destruct (negb _). Qed.

Lemma city_view_boot cw ch iw ih dpr g p now :
  city_view g p (boot cw ch iw ih dpr g p now).
Proof.
  destruct (city_boot_fields cw ch iw ih dpr g p now)
    as (_ & _ & _ & i & Hi & Hp & Hb & Hl & Hf & Hc).
  exists i. split; [exact Hi|]. split; [exact Hp|].
  unfold frame_instance in Hl, Hf, Hc. cbn [props lights scene_fog camera_position] in Hl, Hf, Hc.
  split; [rewrite Hl; now apply relight_same|].
  split; [rewrite Hf; now apply refog_same|].
  split; [exact Hb|].
  rewrite Hc. apply camera_track_frame.
  unfold camera_on_track.
  destruct (String.eqb (cameraMode p) "cinematic"); [|reflexivity].
  cbn [vx vy vz]. lra.
Qed.

Lemma city_view_step g p e w :
  mounted 0 w -> city_view g p w -> city_view g p (step e w).
Proof.
  intros M (i & Hi & Hp & Hl & Hf & Hb & Hc). destruct e as [now|cw ch iw ih].
  - destruct (city_frame_fields now w i M Hi) as (_ & _ & _ & E).
    exists (frame_instance now i). split; [exact E|].
    unfold frame_instance. cbn [props lights scene_fog buildings camera_position].
    rewrite Hp. split; [reflexivity|].
    split; [now apply relight_same|]. split; [now apply refog_same|].
    split; [exact Hb|]. now apply camera_track_frame.
  - destruct (city_resize_fields cw ch iw ih w i M Hi) as (_ & _ & _ & E).
    eexists. split; [exact E|].
    cbn [props lights scene_fog buildings camera_position]. auto.
Qed.

Lemma city_view_run g p es : forall w,
  mounted 0 w -> city_view g p w -> city_view g p (run es w).
Proof.
  induction es as [|e es IH]; intros w M V; [exact V|].
  rewrite city_run_cons. apply IH; [now apply city_step_mounted|].
  now apply city_view_step.
Qed.

Lemma Forall_map_steady vs :
  Forall steady vs -> Forall steady (map updateVehicle vs).
Proof.
  induction 1; cbn [map]; constructor; auto using updateVehicle_steady.
Qed.

Lemma city_fleet g :
  unit_draws g ->
  let vehicles := repeat_from 0 8 (fun _ => createFlyingVehicle) g in
  length (fst vehicles) = 8%nat /\ Forall steady (fst vehicles) /\
  draws (snd vehicles) = draws g.
Proof.
  intros U vehicles. split; [apply length_repeat_from|].
  apply (Forall_repeat_from steady (fun _ => createFlyingVehicle)); [|exact U].
  intros _ g' U'. destruct (createFlyingVehicle_steady g' U') as [[S _] D].
  split; assumption.
Qed.

Lemma city_state_boot cw ch iw ih dpr g p now :
  unit_draws g -> city_state g p (boot cw ch iw ih dpr g p now).
Proof.
  intros U.
  destruct (city_boot_fields cw ch iw ih dpr g p now) as (Ev & Es & Eg & _).
  destruct generateCity_draws as [Dc _]. destruct (Dc g) as [_ D0].
  assert (U0 : unit_draws (snd (generateCity g)))
    by (eapply unit_draws_same; eauto).
  destruct (city_fleet _ U0) as (L8 & S8 & D1).
  set (vehicles := repeat_from 0 8 (fun _ => createFlyingVehicle)
                               (snd (generateCity g))) in *.
  assert (U1 : unit_draws (snd vehicles)) by (eapply unit_draws_same; eauto).
  destruct (createParticleSystem_seeded rain _ U1) as (R1 & _ & D2).
  set (rainSystem := createParticleSystem rain (snd vehicles)) in *.
  assert (U2 : unit_draws (snd rainSystem)) by (eapply unit_draws_same; eauto).
  destruct (createParticleSystem_seeded sparks _ U2) as (R2 & _ & D3).
  set (sparksSystem := createParticleSystem sparks (snd rainSystem)) in *.
  assert (U3 : unit_draws (snd sparksSystem)) by (eapply unit_draws_same; eauto).
  destruct (createParticleSystem_seeded fog _ U3) as (R3 & _ & D4).
  set (fogSystem := createParticleSystem fog (snd sparksSystem)) in *.
  assert (U4 : unit_draws (snd fogSystem)) by (eapply unit_draws_same; eauto).
  cbv zeta in Ev, Es, Eg.
  fold vehicles in Ev, Es, Eg. fold rainSystem in Es, Eg.
  fold sparksSystem in Es, Eg. fold fogSystem in Es, Eg.
  destruct (effectsEnabled p) eqn:Ee.
  - destruct (forEach_updateSystem [rain; sparks; fog]
                [fst rainSystem; fst sparksSystem; fst fogSystem]
                (snd fogSystem) U4) as [F D5].
    { constructor; [exact R1|]. constructor; [exact R2|].
      constructor; [exact R3|constructor]. }
    constructor.
    + rewrite Eg, D5, D4, D3, D2, D1. exact D0.
    + rewrite Ev. split; [now rewrite length_map|now apply Forall_map_steady].
    + rewrite Es, Ee. exact F.
  - destruct (forEach_updateSystem [] [] (snd vehicles) U1) as [F D5];
      [constructor|].
    constructor.
    + rewrite Eg, D5, D1. exact D0.
    + rewrite Ev. split; [now rewrite length_map|now apply Forall_map_steady].
    + rewrite Es, Ee. exact F.
Qed.

Lemma city_state_step g p e w :
  unit_draws g -> mounted 0 w -> city_view g p w ->
  city_state g p w -> city_state g p (step e w).
Proof.
  intros U M (i & Hi & _) [D [L8 S8] F]. destruct e as [now|cw ch iw ih].
  - destruct (city_frame_fields now w i M Hi) as (Ev & Es & Eg & _).
    assert (U' : unit_draws (rng w)) by (eapply unit_draws_same; eauto).
    destruct (forEach_updateSystem _ _ _ U' F) as [F' D'].
    constructor.
    + rewrite Eg, D'. exact D.
    + rewrite Ev. split; [now rewrite length_map|now apply Forall_map_steady].
    + rewrite Es. exact F'.
  - destruct (city_resize_fields cw ch iw ih w i M Hi) as (Ev & Es & Eg & _).
    constructor.
    + now rewrite Eg.
    + now rewrite Ev.
    + now rewrite Es.
Qed.

Lemma city_state_run g p es : forall w,
  unit_draws g -> mounted 0 w -> city_view g p w ->
  city_state g p w -> city_state g p (run es w).
Proof.
  induction es as [|e es IH]; intros w U M V C; [exact C|].
  rewrite city_run_cons. apply IH; auto using city_step_mounted,
    city_view_step, city_state_step.
Qed.

(** Through any sequence of frames and resizes the city keeps its one
    instance with the props of the mount: its lights and fog are those
    [setupLighting] makes for the time of day, its buildings are the ones
    [generateCity] made at the mount, and its camera is on the cinematic
    circle or, in the other modes, where the effect put it. *)
Theorem city_scene_is_fixed cw ch iw ih dpr g p now es :
  exists i,
    instances (run es (boot cw ch iw ih dpr g p now)) = [i] /\
    props i = p /\
    lights i = fst (setupLighting (timeOfDay p)) /\
    scene_fog i = snd (setupLighting (timeOfDay p)) /\
    buildings i = fst (generateCity g) /\
    (if String.eqb (cameraMode p) "cinematic"
     then vx (camera_position i) * vx (camera_position i) +
          vz (camera_position i) * vz (camera_position i) = 2500 /\
          10 <= vy (camera_position i) <= 30
     else camera_position i = vec3 0 20 50).
Proof.
  apply (city_view_run g p es); [apply city_boot_mounted|apply city_view_boot].
Qed.

(** With draws in [[0, 1)] there are always eight vehicles, each with its
    speed in [[0.1, 0.4)] and a direction of length 1 (or 0). *)
Theorem city_fleet_stays_steady cw ch iw ih dpr g p now es :
  unit_draws g ->
  let w := run es (boot cw ch iw ih dpr g p now) in
  length (flyingObjectsRef w) = 8%nat /\ Forall steady (flyingObjectsRef w).
Proof.
  intros U w.
  apply (c_vehicles g p w).
  apply city_state_run;
    auto using city_boot_mounted, city_view_boot, city_state_boot.
Qed.

Lemma city_fleet_stays_steady_witness :
  let g := mkRng (fun _ => 0.5) 0 in
  let w := run [Frame 16; Resize 800 600 1024 768; Frame 33]
               (boot 640 480 1024 768 2 g (mkProps "orbit" "night" true) 0) in
  length (flyingObjectsRef w) = 8%nat /\ Forall steady (flyingObjectsRef w).
Proof.
  intros g. apply city_fleet_stays_steady. intros n. cbn [draws g]. lra.
Defined.

(** With draws in [[0, 1)] the particle systems are, after any sequence of
    frames and resizes, the rain of 1000, the sparks of 500 and the fog of
    300 particles when effects are enabled and none otherwise; every
    particle is at height 0 or above and within 100 of the axis in [x] and
    in [z]; and the frames took their draws from the same sequence. *)
Theorem city_particles_always_in_range cw ch iw ih dpr g p now es :
  unit_draws g ->
  let w := run es (boot cw ch iw ih dpr g p now) in
  Forall2 system_in_range
          (if effectsEnabled p then [rain; sparks; fog] else [])
          (particleSystemsRef w) /\
  draws (rng w) = draws g.
Proof.
  intros U w.
  assert (C : city_state g p w)
    by (apply city_state_run;
        auto using city_boot_mounted, city_view_boot, city_state_boot).
  split; [apply (c_particles g p w C)|apply (c_draws g p w C)].
Qed.

Lemma city_particles_always_in_range_witness :
  let g := mkRng (fun _ => 0.5) 0 in
  let p := mkProps "orbit" "night" true in
  let w := run [Frame 16; Resize 800 600 1024 768; Frame 33]
               (boot 640 480 1024 768 2 g p 0) in
  Forall2 system_in_range
          (if effectsEnabled p then [rain; sparks; fog] else [])
          (particleSystemsRef w) /\
  draws (rng w) = draws g.
Proof.
  intros g p. apply city_particles_always_in_range.
  intros n. cbn [draws g]. lra.
Defined.

(** The two refs outlive a run.  When the props change, the cleanup leaves
    them alone and the next run of the effect pushes its eight vehicles
    behind the eight that are there, so sixteen are moved from then on;
    and when the new props switch the effects off, the particle systems of
    the old run stay in their ref and go on being updated. *)
Theorem city_refs_outlive_the_run cw ch iw ih dpr g p now es p' now' :
  unit_draws g ->
  let w := run es (boot cw ch iw ih dpr g p now) in
  let w' := fst (effect p' now' (cleanup 0 w)) in
  snd (effect p' now' (cleanup 0 w)) = Some 1%nat /\
  children (host w') = [Canvas 1] /\
  length (flyingObjectsRef w') = 16%nat /\
  Forall steady (flyingObjectsRef w') /\
  Forall2 system_in_range
          (if effectsEnabled p' || effectsEnabled p
           then [rain; sparks; fog] else [])
          (particleSystemsRef w').
Proof.
  intros U w w'.
  assert (M : mounted 0 w) by apply city_run_mounted, city_boot_mounted.
  assert (V : city_view g p w)
    by (apply city_view_run; auto using city_boot_mounted, city_view_boot).
  assert (C : city_state g p w)
    by (apply city_state_run;
        auto using city_boot_mounted, city_view_boot, city_state_boot).
  destruct V as (i & Hi & _). destruct C as [D [L8 S8] F].
  destruct (city_remount_fields p' now' w i M Hi)
    as (Er & Ev & Es & _ & Ec & _).
  fold w' in Ev, Es, Ec. clearbody w' w.
  assert (Uw : unit_draws (rng w)) by (eapply unit_draws_same; eauto).
  destruct generateCity_draws as [Dc _]. destruct (Dc (rng w)) as [_ D0].
  assert (U0 : unit_draws (snd (generateCity (rng w))))
    by (eapply unit_draws_same; eauto).
  destruct (city_fleet _ U0) as (L8' & S8' & D1).
  cbv zeta in Ev, Es.
  set (vehicles := repeat_from 0 8 (fun _ => createFlyingVehicle)
                               (snd (generateCity (rng w)))) in *.
  assert (U1 : unit_draws (snd vehicles)) by (eapply unit_draws_same; eauto).
  split; [exact Er|]. split; [exact Ec|].
  split; [rewrite Ev, length_map, length_app, L8, L8'; reflexivity|].
  split; [rewrite Ev; apply Forall_map_steady, Forall_app; now split|].
  rewrite Es. destruct (effectsEnabled p'); cbn [orb].
  - destruct (createParticleSystem_seeded rain _ U1) as (R1 & _ & D2).
    set (rainSystem := createParticleSystem rain (snd vehicles)) in *.
    assert (U2 : unit_draws (snd rainSystem))
      by (eapply unit_draws_same; eauto).
    destruct (createParticleSystem_seeded sparks _ U2) as (R2 & _ & D3).
    set (sparksSystem := createParticleSystem sparks (snd rainSystem)) in *.
    assert (U3 : unit_draws (snd sparksSystem))
      by (eapply unit_draws_same; eauto).
    destruct (createParticleSystem_seeded fog _ U3) as (R3 & _ & D4).
    set (fogSystem := createParticleSystem fog (snd sparksSystem)) in *.
    assert (U4 : unit_draws (snd fogSystem))
      by (eapply unit_draws_same; eauto).
    apply forEach_updateSystem; [exact U4|].
    constructor; [exact R1|]. constructor; [exact R2|].
    constructor; [exact R3|constructor].
  - apply forEach_updateSystem; [exact U1|exact F].
Qed.

Lemma city_refs_outlive_the_run_witness :
  let g := mkRng (fun _ => 0.5) 0 in
  let p := mkProps "orbit" "night" true in
  let p' := mkProps "orbit" "night" false in
  let w := run [Frame 16; Frame 33] (boot 640 480 1024 768 2 g p 0) in
  let w' := fst (effect p' 50 (cleanup 0 w)) in
  snd (effect p' 50 (cleanup 0 w)) = Some 1%nat /\
  children (host w') = [Canvas 1] /\
  length (flyingObjectsRef w') = 16%nat /\
  Forall steady (flyingObjectsRef w') /\
  Forall2 system_in_range
          (if effectsEnabled p' || effectsEnabled p
           then [rain; sparks; fog] else [])
          (particleSystemsRef w').
Proof.
  intros g p p'. apply city_refs_outlive_the_run.
  intros n. cbn [draws g]. lra.
Defined.

(** Run a second time while its renderer is bound, the effect of the city
    hands back no cleanup and builds nothing, and the frame loop and the
    resize listener of the first run stay; but the mount point has been
    emptied by then, so the canvas the loop draws to is no longer
    attached. *)
Theorem city_second_mount_detaches_canvas
    cw ch iw ih dpr g p now es p' now' :
  let w := run es (boot cw ch iw ih dpr g p now) in
  let w' := fst (effect p' now' w) in
  snd (effect p' now' w) = None /\
  rendererRef w = Some 0%nat /\ rendererRef w' = Some 0%nat /\
  instances w' = instances w /\
  flyingObjectsRef w' = flyingObjectsRef w /\
  frames (host w') = frames (host w) /\
  listeners (host w') = [(Window, resize, handleResize 0)] /\
  children (host w) = [Canvas 0] /\
  children (host w') = [].
Proof.
  intros w w'.
  assert (M : mounted 0 w) by apply city_run_mounted, city_boot_mounted.
  destruct (city_second_effect p' now' w M)
    as (E1 & E2 & E3 & E4 & _ & E6 & E7 & E8).
  fold w' in E2, E3, E4, E6, E7, E8.
  rewrite E7, (m_listeners _ _ M), (m_renderer _ _ M), (m_children _ _ M).
  repeat split; assumption.
Qed.

(** The resize handler of the city takes the size of the mount point as it
    is, with no fallback to the window: for a mount point [W] wide and
    [H > 0] high the renderer becomes [W] by [H], also when [W] is 0, and
    the aspect [W / H].  Nothing else of the scene and nothing in the refs
    changes. *)
Theorem city_resize_takes_mount_size
    cw ch iw ih dpr g p now es W H iw' ih' :
  (0 < H)%Z ->
  let w := run es (boot cw ch iw ih dpr g p now) in
  let w1 := step (Resize W H iw' ih') w in
  exists i i1,
    instances w = [i] /\ instances w1 = [i1] /\
    renderer_width i1 = W /\ renderer_height i1 = H /\
    camera_aspect i1 = IZR W / IZR H /\
    camera_position i1 = camera_position i /\
    lights i1 = lights i /\ scene_fog i1 = scene_fog i /\
    buildings i1 = buildings i /\
    flyingObjectsRef w1 = flyingObjectsRef w /\
    particleSystemsRef w1 = particleSystemsRef w /\
    rng w1 = rng w.
Proof.
  intros _ w w1.
  assert (M : mounted 0 w) by apply city_run_mounted, city_boot_mounted.
  destruct (city_view_run g p es _ (city_boot_mounted cw ch iw ih dpr g p now)
              (city_view_boot cw ch iw ih dpr g p now)) as (i & Hi & _).
  fold w in Hi.
  destruct (city_resize_fields W H iw' ih' w i M Hi) as (Ev & Es & Eg & Ei).
  fold w1 in Ev, Es, Eg, Ei.
  exists i. eexists. split; [exact Hi|]. split; [exact Ei|].
  cbn [renderer_width renderer_height camera_aspect camera_position lights
       scene_fog buildings].
  repeat split; assumption.
Qed.

Lemma city_resize_takes_mount_size_witness :
  let g := mkRng (fun _ => 0.5) 0 in
  let w := run [Frame 16] (boot 640 480 1024 768 2 g
                                (mkProps "orbit" "night" true) 0) in
  let w1 := step (Resize 0 300 1024 768) w in
  exists i i1,
    instances w = [i] /\ instances w1 = [i1] /\
    renderer_width i1 = 0%Z /\ renderer_height i1 = 300%Z /\
    camera_aspect i1 = IZR 0 / IZR 300 /\
    camera_position i1 = camera_position i /\
    lights i1 = lights i /\ scene_fog i1 = scene_fog i /\
    buildings i1 = buildings i /\
    flyingObjectsRef w1 = flyingObjectsRef w /\
    particleSystemsRef w1 = particleSystemsRef w /\
    rng w1 = rng w.
Proof.
  intros g. apply city_resize_takes_mount_size. lia.
Defined.

End CityMore.
(* ================================================================== *)
(** * More about the galaxy *)
(* ================================================================== *)

Module GalaxyMore.
Import Js Host GalacticSolarSystem RandFacts HostFacts GalaxyFacts GalaxyShapes.
Local Open Scope rand_scope.

Lemma cube_of_unit a : 0 <= a < 1 -> 0 <= a ^ randomnessPower < 1.
Proof. intros H. unfold randomnessPower. cbn [pow]. nra. Qed.

Lemma randomOffset_bound radius g :
  unit_draws g -> 0 <= radius ->
  - (0.3 * radius) <= fst (randomOffset radius g) <= 0.3 * radius /\
  draws (snd (randomOffset radius g)) = draws g.
Proof.
  intros U R0. split; [|reflexivity].
  unfold randomOffset, bind, Math_random, ret. cbn [fst snd draws cursor].
  pose proof (cube_of_unit _ (U (cursor g))) as T.
  set (t := draws g (cursor g) ^ randomnessPower) in *.
  unfold randomness. destruct (Rltb _ 0.5); nra.
Qed.

Lemma bind_eq {A B} (m : Rand A) (k : A -> Rand B) g :
  bind m k g = k (fst (m g)) (snd (m g)).
Proof. unfold bind. now destruct (m g). Qed.

Lemma galaxyParticle_bounds ic oc i g :
  unit_draws g ->
  let q := fst (galaxyParticle ic oc i g) in
  (in_disc (fst (fst (fst q))) /\ on_segment ic oc (snd (fst (fst q))) /\
   0.5 <= snd (fst q) <= 1 /\ in_unit_box (snd q)) /\
  draws (snd (galaxyParticle ic oc i g)) = draws g.
Proof.
  intros U q. unfold q, galaxyParticle.
  repeat (rewrite bind_eq; cbv beta zeta).
  unfold ret, Math_random. cbn [fst snd draws cursor].
  set (g1 := mkRng (draws g) (S (cursor g))).
  assert (U1 : unit_draws g1) by exact U.
  pose proof (U (cursor g)) as Hu.
  set (u := draws g (cursor g)) in *.
  assert (R0 : 0 <= u * galaxyRadius < 200) by (unfold galaxyRadius; lra).
  set (radius := u * galaxyRadius) in *.
  destruct (randomOffset_bound radius g1 U1 (proj1 R0)) as [BX DX].
  set (randomX := fst (randomOffset radius g1)) in *.
  set (g2 := snd (randomOffset radius g1)) in *.
  assert (U2 : unit_draws g2) by (eapply unit_draws_same; eauto).
  destruct (randomOffset_bound radius g2 U2 (proj1 R0)) as [BY DY].
  set (randomY := fst (randomOffset radius g2)) in *.
  set (g3 := snd (randomOffset radius g2)) in *.
  assert (U3 : unit_draws g3) by (eapply unit_draws_same; eauto).
  destruct (randomOffset_bound radius g3 U3 (proj1 R0)) as [BZ DZ].
  set (randomZ := fst (randomOffset radius g3)) in *.
  set (g4 := snd (randomOffset radius g3)) in *.
  assert (U4 : unit_draws g4) by (eapply unit_draws_same; eauto).
  pose proof (U4 (cursor g4)). pose proof (U4 (S (cursor g4))).
  pose proof (U4 (S (S (cursor g4)))). pose proof (U4 (S (S (S (cursor g4))))).
  split; [|rewrite DZ, DY, DX; reflexivity].
  set (a := INR (i mod galaxyArms) / INR galaxyArms * PI * 2 + radius * 0.2).
  pose proof (COS_bound a) as [C1 C2]. pose proof (SIN_bound a) as [S1 S2].
  split; [|split; [|split]].
  - unfold in_disc. cbn [vx vy vz]. repeat split; nra.
  - exists (radius / galaxyRadius). split; [|reflexivity].
    unfold radius, galaxyRadius. lra.
  - lra.
  - unfold in_unit_box. cbn [vx vy vz]. lra.
Qed.

Lemma Forall_map_of {A B} (P : B -> Prop) (f : A -> B) l :
  Forall (fun a => P (f a)) l -> Forall P (map f l).
Proof. induction 1; cbn [map]; constructor; auto. Qed.

(** Whatever the values in [[0, 1)] that [Math.random()] returns, every
    particle of the galaxy is placed inside the box [|x| <= 260],
    [|y| <= 6], [|z| <= 260], gets a colour between the inside and the
    outside colour, a scale in [[0.5, 1]] and a random triple in
    [[-1, 1]]; the bounds are closed, so they also hold of the rounded
    numbers that the code stores. *)
Theorem galaxy_particles_in_bounds ic oc count g :
  unit_draws g ->
  let a := fst (buildGalaxy ic oc count g) in
  Forall in_disc (position a) /\
  Forall (on_segment ic oc) (color a) /\
  Forall (fun s => 0.5 <= s <= 1) (aScale a) /\
  Forall in_unit_box (aRandom a).
Proof.
  intros U a. unfold a. rewrite buildGalaxy_eq. cbv zeta.
  cbn [position color aScale aRandom].
  destruct (Forall_repeat_from
              (fun q => in_disc (fst (fst (fst q))) /\
                        on_segment ic oc (snd (fst (fst q))) /\
                        0.5 <= snd (fst q) <= 1 /\ in_unit_box (snd q))
              (galaxyParticle ic oc)
              (fun i g0 U0 => galaxyParticle_bounds ic oc i g0 U0)
              count 0%nat g U) as [F _].
  repeat split; apply Forall_map_of; eapply Forall_impl; try exact F;
    cbv beta; tauto.
Qed.

Lemma galaxy_particles_in_bounds_witness :
  let ic := vec3 1 0.4 0.2 in
  let oc := vec3 0.1 0.2 0.5 in
  let g := mkRng (fun n => if Nat.even n then 0.25 else 0.75) 0 in
  let a := fst (buildGalaxy ic oc particleCount g) in
  Forall in_disc (position a) /\
  Forall (on_segment ic oc) (color a) /\
  Forall (fun s => 0.5 <= s <= 1) (aScale a) /\
  Forall in_unit_box (aRandom a).
Proof.
  intros ic oc g. apply galaxy_particles_in_bounds.
  intros n. cbn [draws g]. destruct (Nat.even n); lra.
Defined.

Opaque buildGalaxy makePlanets updatePlanet.

Lemma galaxy_boot_state cw ch iw ih dpr g ic oc :
  galaxy_state dpr (fst (buildGalaxy ic oc particleCount g)) 1
               (boot cw ch iw ih dpr g ic oc).
Proof.
  constructor.
  - run_code. simpl INR. lra.
  - eexists. split; run_code; reflexivity.
  - eexists. split; [run_code; reflexivity|].
    cbn [uTime sun_rotation_y planets renderer_pixelRatio uSize].
    repeat split; run_code; try reflexivity. simpl INR. lra.
Qed.

Lemma galaxy_step_state dpr b n e w :
  mounted 0 b w -> galaxy_state dpr b n w ->
  galaxy_state dpr b (if is_frame e then S n else n) (step e w).
Proof.
  intros [Hp Hc Hl Hr Hk _ _ (id & Hf & Ha & Hid)]
         [Ht (rot & Hs' & Hrot) (i & Hi & Hu & Hsun & Hpl & Hpr & Hsz)].
  destruct w as [h g sc rr ai co ps tr ins].
  destruct h as [mp chn cw ch iw ih dpr' ls fs nf ts lg].
  destruct i as [ca rw rh rpr ut us sr pl].
  cbn [host mount_present children listeners rendererRef controlsRef frames
       animationIdRef nextFrame particleSystemRef instances timeRef
       uTime sun_rotation_y planets renderer_pixelRatio uSize]
    in Hp, Hc, Hl, Hr, Hk, Hf, Ha, Hid, Hs', Hi, Ht, Hrot, Hu, Hsun,
       Hpl, Hpr, Hsz.
  subst mp chn ls rr co fs ai ins ps rpr ut.
  destruct e as [|cw2 ch2 iw2 ih2|]; cbn [is_frame].
  - constructor.
    + run_code. rewrite Ht, S_INR. lra.
    + eexists. split; run_code; reflexivity.
    + eexists. split; [run_code; reflexivity|].
      cbn [uTime sun_rotation_y planets renderer_pixelRatio uSize].
      split; [run_code; reflexivity|].
      split; [rewrite Hsun, S_INR; lra|].
      split; [rewrite Hpl; reflexivity|]. split; [reflexivity|exact Hsz].
  - constructor.
    + exact Ht.
    + exists rot. split; [run_code; reflexivity|exact Hrot].
    + eexists. split; [run_code; reflexivity|].
      cbn [uTime sun_rotation_y planets renderer_pixelRatio uSize].
      repeat split; assumption || reflexivity.
  - destruct ts as [|[|r] rest].
    + constructor; [exact Ht|exists rot; split; [reflexivity|exact Hrot]|].
      eexists. split; [reflexivity|].
      cbn [uTime sun_rotation_y planets renderer_pixelRatio uSize].
      repeat split; assumption || reflexivity.
    + constructor.
      * exact Ht.
      * exists rot. split; [run_code; reflexivity|exact Hrot].
      * eexists. split; [run_code; reflexivity|].
        cbn [uTime sun_rotation_y planets renderer_pixelRatio uSize].
        repeat split; assumption || reflexivity.
    + constructor.
      * exact Ht.
      * exists rot. split; [run_code; reflexivity|exact Hrot].
      * eexists. split; [destruct r; run_code; reflexivity|].
        cbn [uTime sun_rotation_y planets renderer_pixelRatio uSize].
        repeat split; assumption || reflexivity.
Qed.

Lemma galaxy_run_state dpr b es : forall n w,
  mounted 0 b w -> galaxy_state dpr b n w ->
  galaxy_state dpr b (n + frame_count es) (run es w).
Proof.
  induction es as [|e es IH]; intros n w M G.
  - unfold frame_count. cbn. now rewrite Nat.add_0_r.
  - rewrite galaxy_run_cons.
    pose proof (IH _ _ (galaxy_step_mounted 0 b e w M)
                       (galaxy_step_state dpr b n e w M G)) as G'.
    unfold frame_count in *. cbn [filter].
    destruct e; cbn [is_frame length] in *;
      [now rewrite Nat.add_succ_r|exact G'|exact G'].
Qed.

(** What a run of the effect does while a renderer is bound. *)
Lemma galaxy_second_effect ic' oc' b w :
  mounted 0 b w ->
  let w' := fst (effect ic' oc' w) in
  snd (effect ic' oc' w) = None /\
  rendererRef w' = Some 0%nat /\
  instances w' = instances w /\
  particleSystemRef w' = particleSystemRef w /\
  rng w' = rng w /\
  frames (host w') = frames (host w) /\
  listeners (host w') = listeners (host w) /\
  timers (host w') = timers (host w) /\
  children (host w') = [].
Proof.
  intros [Hp Hc Hl Hr Hk _ _ (id & Hf & Ha & Hid)].
  destruct w as [h g sc rr ai co ps tr ins].
  destruct h as [mp chn cw ch iw ih dpr ls fs nf ts lg].
  cbn [host mount_present children listeners rendererRef controlsRef frames
       animationIdRef nextFrame instances] in Hp, Hc, Hl, Hr, Hk, Hf, Ha, Hid.
  subst. repeat split; run_code; reflexivity.
Qed.


(** What the cleanup of a live run leaves of the world. *)
Lemma galaxy_cleanup_world cw ch iw ih dpr nf ts lg g sc k ps tr i rest :
  cleanup 0
    (mkWorld (mkHost true [Canvas 0] cw ch iw ih dpr
                     [(Window, resize, handleResize 0)]
                     [(S k, 0%nat)] nf ts lg)
             g sc (Some 0%nat) (Some (S k)) (Some 0%nat) ps tr (i :: rest)) =
  mkWorld
    (fold_left (fun acc e => emit e acc) (disposePlanets 0 (planets i))
       (mkHost true [] cw ch iw ih dpr []
               (if negb (Nat.eqb k k) then [(S k, 0%nat)] else [])
               nf ts
               (((((((lg
                 ++ [RemoveListener Window resize (handleResize 0)])
                 ++ [CancelFrame (S k)])
                 ++ [Dispose (the_controls 0)])
                 ++ [RemoveChild (Canvas 0)])
                 ++ [Dispose (the_renderer 0)])
                 ++ [Dispose (the_geometry 0)])
                 ++ [Dispose (the_particleMaterial 0)])))
    g sc None (Some (S k)) (Some 0%nat) ps tr (i :: rest).
Proof. reflexivity. Qed.

(** What the cleanup leaves of the world at unmount. *)
Lemma galaxy_unmount_world cw ch iw ih dpr nf ts lg g sc k ps tr i rest :
  unmount 0
    (mkWorld (mkHost true [Canvas 0] cw ch iw ih dpr
                     [(Window, resize, handleResize 0)]
                     [(S k, 0%nat)] nf ts lg)
             g sc (Some 0%nat) (Some (S k)) (Some 0%nat) ps tr (i :: rest)) =
  mkWorld
    (fold_left (fun acc e => emit e acc) (disposePlanets 0 (planets i))
       (mkHost false [Canvas 0] cw ch iw ih dpr []
               (if negb (Nat.eqb k k) then [(S k, 0%nat)] else [])
               nf ts
               ((((((lg
                 ++ [RemoveListener Window resize (handleResize 0)])
                 ++ [CancelFrame (S k)])
                 ++ [Dispose (the_controls 0)])
                 ++ [Dispose (the_renderer 0)])
                 ++ [Dispose (the_geometry 0)])
                 ++ [Dispose (the_particleMaterial 0)])))
    g sc None (Some (S k)) (Some 0%nat) ps tr (i :: rest).
Proof. reflexivity. Qed.

Transparent buildGalaxy makePlanets updatePlanet.

Lemma iter_map {A} (f : A -> A) n (l : list A) :
  Nat.iter n (map f) l = map (Nat.iter n f) l.
Proof.
  induction n as [|n IH].
  - symmetry. apply map_id.
  - change (Nat.iter (S n) (map f) l) with (map f (Nat.iter n (map f) l)).
    rewrite IH, map_map. apply map_ext. reflexivity.
Qed.

Lemma Forall2_map_r {A B C} (P : A -> C -> Prop) (f : B -> C) l :
  forall ms, Forall2 (fun a b => P a (f b)) l ms -> Forall2 P l (map f ms).
Proof. induction 1; cbn [map]; constructor; auto. Qed.

Lemma Forall2_diag {A B} (P : A -> B -> Prop) (f : A -> B) l :
  (forall a, P a (f a)) -> Forall2 P l (map f l).
Proof. intros H. induction l; cbn [map]; constructor; auto. Qed.

Lemma updateMoon_at n d count j m :
  moon_at n d count j m -> moon_at (S n) d count j (updateMoon m).
Proof.
  intros (Hr & Hs & Ha & _ & _).
  unfold moon_at, updateMoon.
  cbn [moon_orbitRadius moon_orbitSpeed moon_angle moon_x moon_z].
  repeat split; try assumption; try reflexivity.
  rewrite Ha, S_INR. ring.
Qed.

Lemma makeMoon_at d count j :
  moon_at 1 d count j (updateMoon (makeMoon d count j)).
Proof.
  unfold moon_at, updateMoon, makeMoon.
  cbn [moon_orbitRadius moon_orbitSpeed moon_angle moon_x moon_z].
  repeat split; try reflexivity. simpl INR. ring.
Qed.

Lemma updatePlanet_at n d index p :
  planet_at n d index p -> planet_at (S n) d index (updatePlanet p).
Proof.
  intros (Hr & Hs & Hrs & Ha & _ & _ & Hrot & Hm).
  unfold planet_at, updatePlanet.
  cbn [orbitRadius orbitSpeed rotationSpeed angle mesh_x mesh_z
       mesh_rotation_y moons].
  split; [exact Hr|]. split; [exact Hs|]. split; [exact Hrs|].
  split; [rewrite Ha, Hs, S_INR; ring|].
  split; [now rewrite Hr|]. split; [now rewrite Hr|].
  split; [rewrite Hrot, Hrs, S_INR; ring|].
  destruct (moons p) as [ms|]; cbn [option_map]; [|exact Hm].
  destruct Hm as [Hh F]. split; [exact Hh|].
  apply Forall2_map_r. eapply Forall2_impl; [|exact F].
  intros j m. apply updateMoon_at.
Qed.

Lemma makePlanet_at d index :
  planet_at 1 d index (updatePlanet (makePlanet d index)).
Proof.
  unfold planet_at, updatePlanet, makePlanet.
  cbn [orbitRadius orbitSpeed rotationSpeed angle mesh_x mesh_z
       mesh_rotation_y moons].
  repeat (split; [reflexivity || (simpl INR; ring)|]).
  destruct (hasMoon d); cbn [option_map]; [|reflexivity].
  split; [reflexivity|]. rewrite map_map.
  apply Forall2_diag. intros j. apply makeMoon_at.
Qed.

Lemma planet_iter n d index :
  planet_at (S n) d index (Nat.iter (S n) updatePlanet (makePlanet d index)).
Proof.
  induction n as [|n IH]; [apply makePlanet_at|].
  change (Nat.iter (S (S n)) updatePlanet (makePlanet d index))
    with (updatePlanet (Nat.iter (S n) updatePlanet (makePlanet d index))).
  apply updatePlanet_at, IH.
Qed.

Lemma planet_at_circle n d index p :
  planet_at n d index p ->
  mesh_x p * mesh_x p + mesh_z p * mesh_z p = orbitRadius p * orbitRadius p.
Proof.
  intros (Hr & _ & _ & _ & Hx & Hz & _). rewrite Hx, Hz, Hr.
  pose proof (sin2_cos2 (angle p)) as E. unfold Rsqr in E. nra.
Qed.

(** A mounted galaxy, after any frames, resizes and timers, keeps time by
    frames: with [n] one more than the number of frames so far, the clock
    stands at [n] hundredths, the particle system is turned by 0.02 times
    the clock, [uTime] is the clock and the sun is turned by [n] times
    0.005; the pixel ratio is the one of the mount and [uSize] is 25 times
    it, whatever was resized. *)
Theorem galaxy_clock_counts_frames cw ch iw ih dpr g ic oc es :
  let w := run es (boot cw ch iw ih dpr g ic oc) in
  let n := S (frame_count es) in
  timeRef w = INR n * 0.01 /\
  particleSystemRef w =
    Some (mkPoints (fst (buildGalaxy ic oc particleCount g))
                   (timeRef w * 0.02)) /\
  exists i, instances w = [i] /\ uTime i = timeRef w /\
            sun_rotation_y i = INR n * 0.005 /\
            renderer_pixelRatio i = dpr /\ uSize i = 25 * dpr.
Proof.
  intros w n.
  destruct (galaxy_run_state dpr _ es 1 _
              (galaxy_boot_mounted cw ch iw ih dpr g ic oc)
              (galaxy_boot_state cw ch iw ih dpr g ic oc))
    as [Ht (rot & Hs & Hrot) (i & Hi & Hu & Hsun & _ & Hpr & Hsz)].
  fold w in Ht, Hs, Hrot, Hi, Hu. change (1 + frame_count es)%nat with n in *.
  split; [exact Ht|]. split; [rewrite Hs, Hrot; reflexivity|].
  exists i. auto.
Qed.

(** After any frames, resizes and timers the six planets are the ones of
    the table, each on the circle of its orbit radius around the sun: with
    [n] one more than the number of frames so far, planet [index] stands at
    the angle [index * 2 PI / 6 + n * orbitSpeed] and is turned by [n]
    times its rotation speed, and the moons of Earth (one) and Jupiter
    (four) stand likewise on their circles around their planet. *)
Theorem planets_follow_their_orbits cw ch iw ih dpr g ic oc es :
  let w := run es (boot cw ch iw ih dpr g ic oc) in
  let n := S (frame_count es) in
  exists i,
    instances w = [i] /\
    Forall2 (fun di p => planet_at n (fst di) (snd di) p)
            (combine planetData (seq 0 (length planetData))) (planets i) /\
    Forall (fun p => mesh_x p * mesh_x p + mesh_z p * mesh_z p
                     = orbitRadius p * orbitRadius p) (planets i).
Proof.
  intros w n.
  destruct (galaxy_run_state dpr _ es 1 _
              (galaxy_boot_mounted cw ch iw ih dpr g ic oc)
              (galaxy_boot_state cw ch iw ih dpr g ic oc))
    as [_ _ (i & Hi & _ & _ & Hpl & _)].
  fold w in Hi. change (1 + frame_count es)%nat with n in *.
  exists i. split; [exact Hi|].
  assert (F : Forall2 (fun di p => planet_at n (fst di) (snd di) p)
                (combine planetData (seq 0 (length planetData)))
                (planets i)).
  { rewrite Hpl, iter_map. unfold makePlanets. rewrite map_map.
    apply Forall2_diag. intros [d index]. cbn [fst snd]. apply planet_iter. }
  split; [exact F|].
  clear Hpl. induction F as [|di p ds ps P _ IH]; constructor; [|exact IH].
  eapply planet_at_circle, P.
Qed.

Lemma emit_all_log l : forall h,
  log (fold_left (fun acc e => emit e acc) l h) = log h ++ l.
Proof.
  induction l as [|e l IH]; intros h; cbn [fold_left].
  - now rewrite app_nil_r.
  - rewrite IH. cbn [emit log]. now rewrite <- app_assoc.
Qed.

(** The disposal loop looks at which planets and moons there are, not at
    where the frames moved them. *)
Lemma disposePlanets_update r ps :
  disposePlanets r (map updatePlanet ps) = disposePlanets r ps.
Proof.
  unfold disposePlanets. rewrite length_map.
  generalize (seq 0 (length ps)) as s.
  induction ps as [|p ps IH]; intros [|k s]; cbn [map combine flat_map];
    try reflexivity.
  rewrite IH. f_equal. cbn [fst snd]. f_equal.
  unfold updatePlanet. cbn [moons].
  destruct (moons p) as [ms|]; cbn [option_map]; [|reflexivity].
  now rewrite length_map.
Qed.

Lemma disposePlanets_iter r n :
  disposePlanets r (Nat.iter n (map updatePlanet) makePlanets) =
  disposePlanets r makePlanets.
Proof.
  induction n as [|n IH]; [reflexivity|].
  change (Nat.iter (S n) (map updatePlanet) makePlanets)
    with (map updatePlanet (Nat.iter n (map updatePlanet) makePlanets)).
  now rewrite disposePlanets_update.
Qed.

Lemma emit_all_host l : forall h,
  fold_left (fun acc e => emit e acc) l h =
  mkHost (mount_present h) (children h) (clientWidth h) (clientHeight h)
         (innerWidth h) (innerHeight h) (devicePixelRatio h) (listeners h)
         (frames h) (nextFrame h) (timers h) (log h ++ l).
Proof.
  induction l as [|e l IH]; intros h; cbn [fold_left].
  - rewrite app_nil_r. now destruct h.
  - rewrite IH. unfold emit.
    cbn [mount_present children clientWidth clientHeight innerWidth
         innerHeight devicePixelRatio listeners frames nextFrame timers log].
    now rewrite <- app_assoc.
Qed.

(** The effect of the galaxy has no dependencies, so React runs its
    cleanup at unmount only, after it has cleared [mountRef].  On every
    state a mounted galaxy can be in, that cleanup performs exactly these
    effects in this order: it removes the resize listener, cancels the
    pending frame request, disposes the controls, the renderer, the
    galaxy's geometry and its shader material, and then, planet by planet,
    the planet's geometry and material followed by those of its moons.  It
    detaches nothing: the canvas is still a child of the mount [div].
    Were the ref still set when the cleanup runs, it would also detach
    the canvas, after disposing the controls and before disposing the
    renderer. *)
Theorem galaxy_teardown_trace cw ch iw ih dpr g ic oc es :
  let w := run es (boot cw ch iw ih dpr g ic oc) in
  exists id,
    frames (host w) = [(id, 0%nat)] /\
    unmount_trace 0 w =
      [ RemoveListener Window resize (handleResize 0);
        CancelFrame id;
        Dispose (the_controls 0);
        Dispose (the_renderer 0);
        Dispose (the_geometry 0);
        Dispose (the_particleMaterial 0) ] ++ planet_disposals /\
    children (host (unmount 0 w)) = [Canvas 0] /\
    teardown_trace 0 w =
      [ RemoveListener Window resize (handleResize 0);
        CancelFrame id;
        Dispose (the_controls 0);
        RemoveChild (Canvas 0);
        Dispose (the_renderer 0);
        Dispose (the_geometry 0);
        Dispose (the_particleMaterial 0) ] ++ planet_disposals /\
    children (host (cleanup 0 w)) = [].
Proof.
  intros w.
  pose proof (galaxy_reach_mounted cw ch iw ih dpr g ic oc es) as M.
  destruct (galaxy_run_state dpr _ es 1 _
              (galaxy_boot_mounted cw ch iw ih dpr g ic oc)
              (galaxy_boot_state cw ch iw ih dpr g ic oc))
    as [_ _ (i & Hi & _ & _ & Hpl & _)].
  fold w in M, Hi.
  destruct M as [Hp Hc Hl Hr Hk _ _ (id & Hf & Ha & Hid)].
  exists id. split; [exact Hf|]. unfold teardown_trace, unmount_trace.
  clearbody w.
  destruct w as [h g' sc rr ai co ps tr ins].
  destruct h as [mp chn cw' ch' iw' ih' dpr' ls fs nf ts lg].
  cbn [host mount_present children listeners rendererRef controlsRef frames
       animationIdRef nextFrame instances] in Hp, Hc, Hl, Hr, Hk, Hf, Ha, Hid, Hi.
  subst. destruct id as [|k]; [lia|].
  assert (D : disposePlanets 0 (planets i) = planet_disposals)
    by (rewrite Hpl, disposePlanets_iter; reflexivity).
  rewrite galaxy_unmount_world, galaxy_cleanup_world, !emit_all_host, D.
  cbn [host log children]. repeat rewrite <- app_assoc.
  rewrite !skipn_length_app. repeat split; reflexivity.
Qed.

(** Run a second time while its renderer is bound, the effect of the
    galaxy hands back no cleanup, builds nothing and takes no draw, and
    the frame loop, the listener and the timer of the first run stay; but
    the mount point has been emptied by then, so the canvas the loop draws
    to is no longer attached. *)
Theorem galaxy_second_mount_detaches_canvas
    cw ch iw ih dpr g ic oc es ic' oc' :
  let w := run es (boot cw ch iw ih dpr g ic oc) in
  let w' := fst (effect ic' oc' w) in
  snd (effect ic' oc' w) = None /\
  rendererRef w = Some 0%nat /\ rendererRef w' = Some 0%nat /\
  instances w' = instances w /\
  particleSystemRef w' = particleSystemRef w /\
  rng w' = rng w /\
  frames (host w') = frames (host w) /\
  timers (host w') = timers (host w) /\
  listeners (host w') = [(Window, resize, handleResize 0)] /\
  children (host w) = [Canvas 0] /\
  children (host w') = [].
Proof.
  intros w w'.
  pose proof (galaxy_reach_mounted cw ch iw ih dpr g ic oc es) as M.
  fold w in M.
  destruct (galaxy_second_effect ic' oc' _ w M)
    as (E1 & E2 & E3 & E4 & E5 & E6 & E7 & E8 & E9).
  fold w' in E2, E3, E4, E5, E6, E7, E8, E9.
  rewrite E7, (m_listeners _ _ _ M), (m_renderer _ _ _ M),
    (m_children _ _ _ M).
  repeat split; assumption.
Qed.



End GalaxyMore.
